(** * CryptoZombies client: the trait deriver and the contract gateway

    A shallow embedding of the module the examples import as
    [src/zombieFactory] (it holds [ZombieFactory] and [generateZombie]):

    - [Js]: the fragment of the JavaScript run time the source relies on
      ([BigInt.prototype.toString], [padStart], [substring], [parseInt],
      [%], [+], binary64 division and multiplication, [Math.floor]);
    - [generateZombie]: the DNA to visual-trait mapping;
    - [createRandomZombie], [getZombie], [watchNewZombieEvents]: the three
      gateway operations, over a client collaborator given as an interface.
*)

From Stdlib Require Import String Ascii.
From Stdlib Require Import ZArith QArith Qround List Bool Lia.
From Stdlib Require Import Decimal DecimalString DecimalFacts DecimalPos DecimalN DecimalZ.
From Stdlib Require Import SpecFloat.
Import ListNotations.

Local Open Scope Z_scope.

(* ================================================================== *)
(** * The JavaScript fragment *)
(* ================================================================== *)

Module Js.

(** A JavaScript string, as the list of its characters. *)
Definition str := list ascii.

(** The [Number] values a field of [ZombieDetails] can hold: an integer
    (every double below 2^53 in magnitude that is an integer; [-0] is
    identified with [0], as [===] does), an infinity, or [NaN]. *)
Inductive number : Type :=
| Num (z : Z)
| Inf (negative : bool)
| NaN.

(** ** [BigInt.prototype.toString()]: the decimal rendering, ["-"] first
    for a negative value, no leading zero. *)
Definition toString (z : Z) : str :=
  list_ascii_of_string (NilEmpty.string_of_int (Z.to_int z)).

(** ** [String.prototype.padStart(targetLength, padChar)] with a
    one-character pad: nothing is added when the string is already
    [targetLength] long or longer. *)
Definition padStart (targetLength : nat) (pad : ascii) (s : str) : str :=
  repeat pad (targetLength - length s) ++ s.

(** ** [String.prototype.substring(start, end)] for [start <= end]:
    the characters at indices [start, end), clamped to the string. *)
Definition substring (i j : nat) (s : str) : str :=
  firstn (j - i) (skipn i s).

(** ** [parseInt(string)] without a radix argument. *)

(** White space stripped from the front (the ASCII members of
    [StrWhiteSpaceChar]: TAB, LF, VT, FF, CR, SP). *)
Definition is_whitespace (c : ascii) : bool :=
  let n := nat_of_ascii c in
  ((9 <=? n) && (n <=? 13))%nat || (n =? 32)%nat.

Fixpoint skip_whitespace (s : str) : str :=
  match s with
  | c :: r => if is_whitespace c then skip_whitespace r else s
  | [] => []
  end.

(** The value of [c] as a digit of the given radix (10 or 16). *)
Definition digit_value (radix : Z) (c : ascii) : option Z :=
  let n := Z.of_nat (nat_of_ascii c) in
  if (48 <=? n) && (n <=? 57) then Some (n - 48)
  else if radix =? 16 then
    if (97 <=? n) && (n <=? 102) then Some (n - 87)
    else if (65 <=? n) && (n <=? 70) then Some (n - 55)
    else None
  else None.

(** The longest prefix of radix digits. *)
Fixpoint leading_digits (radix : Z) (s : str) : list Z :=
  match s with
  | c :: r =>
      match digit_value radix c with
      | Some d => d :: leading_digits radix r
      | None => []
      end
  | [] => []
  end.

(** The mathematical integer a digit sequence denotes. *)
Definition horner (radix : Z) (ds : list Z) : Z :=
  fold_left (fun acc d => acc * radix + d) ds 0.

Definition is_x (c : ascii) : bool :=
  let n := nat_of_ascii c in ((n =? 120) || (n =? 88))%nat.

(** [parseInt]: strip white space, read a sign, switch to radix 16 after
    a [0x] prefix, read the longest digit prefix; [NaN] when it is empty.
    The result is exact up to 2^53, which covers every call of the source
    (two-character arguments). *)
Definition parseInt (s : str) : number :=
  let s1 := skip_whitespace s in
  let '(negative, s2) :=
    match s1 with
    | "-"%char :: r => (true, r)
    | "+"%char :: r => (false, r)
    | _ => (false, s1)
    end in
  let '(radix, s3) :=
    match s2 with
    | "0"%char :: x :: r => if is_x x then (16, r) else (10, s2)
    | _ => (10, s2)
    end in
  match leading_digits radix s3 with
  | [] => NaN
  | ds => Num (if negative then - horner radix ds else horner radix ds)
  end.

(** ** The remainder operator [a % m] for an integer constant [m <> 0]:
    the sign of the result is the sign of the dividend. *)
Definition rem (a : number) (m : Z) : number :=
  match a with
  | Num z => Num (Z.rem z m)
  | Inf _ => NaN
  | NaN => NaN
  end.

(** ** [a + k] for an integer constant [k]. *)
Definition add (a : number) (k : Z) : number :=
  match a with
  | Num z => Num (z + k)
  | Inf s => Inf s
  | NaN => NaN
  end.

(** ** Doubles: IEEE 754 binary64, round to nearest even. *)
Definition prec : Z := 53.
Definition emax : Z := 1024.

Definition double := spec_float.

Definition double_of_Z (z : Z) : double := binary_normalize prec emax z 0 false.

Definition to_double (a : number) : double :=
  match a with
  | Num z => double_of_Z z
  | Inf s => S754_infinity s
  | NaN => S754_nan
  end.

Definition fdiv : double -> double -> double := SFdiv prec emax.
Definition fmul : double -> double -> double := SFmul prec emax.

(** ** [Math.floor]. A finite double is [(-1)^s * m * 2^e]. *)
Definition Math_floor (x : double) : number :=
  match x with
  | S754_zero _ => Num 0
  | S754_infinity s => Inf s
  | S754_nan => NaN
  | S754_finite s m e =>
      let n := if s then Z.neg m else Z.pos m in
      Num (if 0 <=? e then n * 2 ^ e else n / 2 ^ (- e))
  end.

End Js.

(* ================================================================== *)
(** * The trait deriver *)
(* ================================================================== *)

(** [interface ZombieDetails]. *)
Record ZombieDetails : Type := {
  headChoice : Js.number;
  eyeChoice : Js.number;
  shirtChoice : Js.number;
  skinColorChoice : Js.number;
  eyeColorChoice : Js.number;
  clothesColorChoice : Js.number;
  zombieName : string;
  zombieDescription : string
}.

(** What [console.log] and [console.error] have printed so far. *)
Inductive console_entry (error : Type) : Type :=
| LogGenerated (d : ZombieDetails)
| ErrorCreating (e : error)
| ErrorGetting (e : error).
Arguments LogGenerated {error} d.
Arguments ErrorCreating {error} e.
Arguments ErrorGetting {error} e.

(** [Math.floor((parseInt(s) / 100) * 360)]: the division and the
    multiplication are binary64 operations, in this order. *)
Definition hue (s : Js.str) : Js.number :=
  Js.Math_floor
    (Js.fmul (Js.fdiv (Js.to_double (Js.parseInt s)) (Js.double_of_Z 100))
             (Js.double_of_Z 360)).

(** The record literal of [generateZombie]. *)
Definition zombieDetails_of (name : string) (dnaStr : Js.str) : ZombieDetails :=
  {| headChoice := Js.add (Js.rem (Js.parseInt (Js.substring 0 2 dnaStr)) 7) 1;
     eyeChoice := Js.add (Js.rem (Js.parseInt (Js.substring 2 4 dnaStr)) 11) 1;
     shirtChoice := Js.add (Js.rem (Js.parseInt (Js.substring 4 6 dnaStr)) 6) 1;
     skinColorChoice := hue (Js.substring 6 8 dnaStr);
     eyeColorChoice := hue (Js.substring 8 10 dnaStr);
     clothesColorChoice := hue (Js.substring 10 12 dnaStr);
     zombieName := name;
     zombieDescription := "A Level 1 CryptoZombie" |}.

(** [generateZombie(id, name, dna)]: builds the record, prints it on the
    console and returns it. *)
Definition generateZombie {error : Type} (id : Z) (name : string) (dna : Z)
    (console : list (console_entry error))
  : ZombieDetails * list (console_entry error) :=
  let dnaStr := Js.padStart 16 "0"%char (Js.toString dna) in
  let zombieDetails := zombieDetails_of name dnaStr in
  (zombieDetails, console ++ [LogGenerated zombieDetails]).

(* ================================================================== *)
(** * The contract gateway *)
(* ================================================================== *)

(** A call either returns or throws; an awaited promise either fulfils or
    rejects, and [await] turns a rejection into a throw. *)
Inductive outcome (E A : Type) : Type :=
| Returned (a : A)
| Thrown (e : E).
Arguments Returned {E A} a.
Arguments Thrown {E A} e.

(** Computations over a state [S] that may throw a value of type [E]. *)
Definition M (E S A : Type) : Type := S -> outcome E A * S.

Definition ret {E S A} (a : A) : M E S A := fun s => (Returned a, s).

Definition throw {E S A} (e : E) : M E S A := fun s => (Thrown e, s).

Definition bind {E S A B} (m : M E S A) (k : A -> M E S B) : M E S B :=
  fun s =>
    match m s with
    | (Returned a, s') => k a s'
    | (Thrown e, s') => (Thrown e, s')
    end.

(** [try { body } catch (error) { handler(error) }]. *)
Definition try_catch {E S A} (body : M E S A) (handler : E -> M E S A) : M E S A :=
  fun s =>
    match body s with
    | (Returned a, s') => (Returned a, s')
    | (Thrown e, s') => handler e s'
    end.

Declare Scope gateway_scope.
Delimit Scope gateway_scope with gateway.
Notation "x <- m ;; k" := (bind m (fun x => k))
  (at level 61, m at next level, right associativity) : gateway_scope.
Notation "m ;;; k" := (bind m (fun _ => k))
  (at level 61, right associativity) : gateway_scope.

(** [Array.prototype.forEach]: the elements in order; a throw ends it. *)
Fixpoint forEach {E S A} (f : A -> M E S unit) (l : list A) : M E S unit :=
  match l with
  | [] => ret tt
  | x :: r => bind (f x) (fun _ => forEach f r)
  end.

(** The types the gateway is generic in. *)
Class Values : Type := {
  error : Type;     (* the values that can be thrown *)
  App : Type        (* the state a subscriber's callback acts on *)
}.

Class Platform `{Values} : Type := {
  node : Type;      (* the wallet, the RPC node and the chain behind them *)
  request : Type    (* the prepared request [simulateContract] hands back *)
}.

(** The argument objects; the [abi] member is the constant
    [ZombieFactoryAbi] and is left out. *)
Record SimulateContractParameters : Type := {
  sim_address : string;
  sim_functionName : string;
  sim_args : list string;
  sim_account : option string
}.

Record ReadContractParameters : Type := {
  read_address : string;
  read_functionName : string;
  read_args : list Z
}.

(** [walletClient] and [publicClient], as far as the two request/response
    operations use them. *)
Class Clients `{Platform} : Type := {
  requestAddresses : node -> outcome error (list string) * node;
  simulateContract :
    SimulateContractParameters -> node -> outcome error request * node;
  writeContract : request -> node -> outcome error string * node;
  readContract :
    ReadContractParameters -> node -> outcome error (string * Z) * node
}.

(** The collaborator primitives a gateway operation has invoked. *)
Inductive call `{Platform} : Type :=
| CallRequestAddresses
| CallSimulateContract (p : SimulateContractParameters)
| CallWriteContract (r : request)
| CallReadContract (p : ReadContractParameters)
| CallWatchContractEvent (address eventName : string).

Record world `{Platform} : Type := {
  w_node : node;
  w_calls : list call;
  w_console : list (console_entry error)
}.

(** Invoke a primitive: run it on the node and note the call. *)
Definition invoke `{Platform} {A} (c : call)
    (f : node -> outcome error A * node) : M error world A :=
  fun w =>
    let '(r, n) := f (w_node w) in
    (r, {| w_node := n; w_calls := w_calls w ++ [c]; w_console := w_console w |}).

Definition console_error `{Platform} (entry : console_entry error)
  : M error world unit :=
  fun w =>
    (Returned tt,
     {| w_node := w_node w; w_calls := w_calls w;
        w_console := w_console w ++ [entry] |}).

(** [class ZombieFactory]. *)
Record ZombieFactory : Type := { contractAddress : string }.

Record ZombieRecord : Type := { zr_name : string; zr_dna : Z }.

Local Open Scope gateway_scope.

(** [async createRandomZombie(name)]. *)
Definition createRandomZombie `{Clients} (this : ZombieFactory) (name : string)
  : M error world string :=
  try_catch
    (accounts <- invoke CallRequestAddresses requestAddresses ;;
     let account := hd_error accounts in
     let params :=
       {| sim_address := contractAddress this;
          sim_functionName := "createRandomZombie";
          sim_args := [name];
          sim_account := account |} in
     req <- invoke (CallSimulateContract params) (simulateContract params) ;;
     hash <- invoke (CallWriteContract req) (writeContract req) ;;
     ret hash)
    (fun e => console_error (ErrorCreating e) ;;; throw e).

(** [async getZombie(zombieId)]. *)
Definition getZombie `{Clients} (this : ZombieFactory) (zombieId : Z)
  : M error world ZombieRecord :=
  try_catch
    (let params :=
       {| read_address := contractAddress this;
          read_functionName := "zombies";
          read_args := [zombieId] |} in
     result <- invoke (CallReadContract params) (readContract params) ;;
     ret {| zr_name := fst result; zr_dna := snd result |})
    (fun e => console_error (ErrorGetting e) ;;; throw e).

(** ** Event subscription *)

(** The decoded arguments of a log: each member may be [undefined]. *)
Record LogArgs : Type := {
  arg_zombieId : option Z;
  arg_name : option string;
  arg_dna : option Z
}.

(** A log, as far as the source looks at it: [args] may be absent. *)
Record Log : Type := { log_args : option LogArgs }.

(** [interface NewZombieEvent], with the values the members have at run
    time: the non-null assertion [!] is erased by the compiler, so an
    [undefined] member of [log.args] is passed on as it is. *)
Record NewZombieEvent : Type := {
  ev_zombieId : option Z;
  ev_name : option string;
  ev_dna : option Z
}.

(** The state a handler runs on: the application state and the events the
    callback has been invoked with. *)
Record hstate `{Values} : Type := {
  h_app : App;
  h_invoked : list NewZombieEvent
}.

Definition Callback `{Values} : Type :=
  NewZombieEvent -> App -> outcome error unit * App.

Definition OnLogs `{Values} : Type := list Log -> M error hstate unit.

(** [callback(event)]. *)
Definition invoke_callback `{Values} (callback : Callback)
    (event : NewZombieEvent) : M error hstate unit :=
  fun hs =>
    let '(r, a) := callback event (h_app hs) in
    (r, {| h_app := a; h_invoked := h_invoked hs ++ [event] |}).

(** The [onLogs] handler [watchNewZombieEvents] registers. *)
Definition onLogs `{Values} (callback : Callback) : OnLogs :=
  forEach (fun log =>
    match log_args log with
    | Some args =>
        invoke_callback callback
          {| ev_zombieId := arg_zombieId args;
             ev_name := arg_name args;
             ev_dna := arg_dna args |}
    | None => ret tt
    end).

Record WatchContractEventParameters `{Values} : Type := {
  watch_address : string;
  watch_eventName : string;
  watch_onLogs : OnLogs
}.

(** [publicClient.watchContractEvent]; [handle] is the type of the function
    it returns and [unwatch h] is the call [h()]. *)
Class EventClient `{Platform} : Type := {
  handle : Type;
  watchContractEvent :
    WatchContractEventParameters -> node -> outcome error handle * node;
  unwatch : handle -> node -> outcome error unit * node
}.

(** [watchNewZombieEvents(callback)]. *)
Definition watchNewZombieEvents `{EventClient} (this : ZombieFactory)
    (callback : Callback) : M error world handle :=
  invoke (CallWatchContractEvent (contractAddress this) "NewZombie")
    (watchContractEvent
       {| watch_address := contractAddress this;
          watch_eventName := "NewZombie";
          watch_onLogs := onLogs callback |}).

(** The call [h()] of a handle [watchNewZombieEvents] returned. *)
Definition call_handle `{EventClient} (h : handle) : M error world unit :=
  fun w =>
    let '(r, n) := unwatch h (w_node w) in
    (r, {| w_node := n; w_calls := w_calls w; w_console := w_console w |}).

(** The batches a client hands to a handler, one call of the handler per
    batch, in order. *)
Definition handle_batches `{Values} (handler : OnLogs) (batches : list (list Log))
  : M error hstate unit :=
  forEach handler batches.

(* ================================================================== *)
(** * The subscription behind [watchContractEvent] *)
(* ================================================================== *)

Module Polling.

(** Modelled from the spec: [publicClient.watchContractEvent] and the
    function it returns belong to the viem library, which is not among the
    sources. Section 4.1 of the specification describes them: the call
    "registers a persistent filter on the node"; "every time the node
    reports new matching logs" the handler is invoked with them; "the only
    stateful object is the subscription, with states [{active, stopped}];
    [active -> stopped] is one-way, triggered only by invoking the
    unsubscribe handle"; invoking the handle "more than once must be a
    no-op, not an error". *)
Record subscription `{Values} : Type := {
  sub_onLogs : OnLogs;
  sub_active : bool
}.

(** Modelled from the spec: the node side of the client is the list of the
    subscriptions registered so far; a handle is the position of its
    subscription. *)
#[local] Instance platform `{Values} : Platform :=
  {| node := list subscription; request := unit |}.

(** Modelled from the spec: the transition [active -> stopped] of the
    subscription at position [h]; nothing changes when there is none. *)
Fixpoint stop `{Values} (h : nat) (subs : list subscription) : list subscription :=
  match subs, h with
  | [], _ => []
  | s :: r, O => {| sub_onLogs := sub_onLogs s; sub_active := false |} :: r
  | s :: r, S h' => s :: stop h' r
  end.

(** Modelled from the spec: registering appends an active subscription and
    returns its handle; invoking a handle stops its subscription and never
    throws. *)
#[local] Instance client `{Values} : EventClient :=
  {| handle := nat;
     watchContractEvent p subs :=
       (Returned (length subs),
        subs ++ [{| sub_onLogs := watch_onLogs p; sub_active := true |}]);
     unwatch h subs := (Returned tt, stop h subs) |}.

(** The state [active] of the subscription with handle [h]. *)
Definition is_active `{Values} (h : nat) (subs : list subscription) : bool :=
  match nth_error subs h with
  | Some s => sub_active s
  | None => false
  end.

(** The system a subscriber lives in: the gateway's world, the application
    state, and the callback invocations so far, each with the handle of the
    subscription that made it. *)
Record system `{Values} : Type := {
  s_world : world;
  s_app : App;
  s_trace : list (nat * NewZombieEvent)
}.

(** Modelled from the spec: the node reports a batch of matching logs; the
    handler of every active subscription is invoked with it, in
    registration order. What a handler throws is not the subscriber's to
    catch and is dropped here. *)
Fixpoint deliver `{Values} (batch : list Log) (subs : list subscription)
    (h : nat) (a : App) (trace : list (nat * NewZombieEvent))
  : App * list (nat * NewZombieEvent) :=
  match subs with
  | [] => (a, trace)
  | s :: r =>
      if sub_active s then
        let '(_, hs) := sub_onLogs s batch {| h_app := a; h_invoked := [] |} in
        deliver batch r (S h) (h_app hs)
          (trace ++ map (fun ev => (h, ev)) (h_invoked hs))
      else deliver batch r (S h) a trace
  end.

(** What can happen next: the application subscribes another callback
    through [watchNewZombieEvents], invokes a handle, or the node reports a
    batch. *)
Inductive action `{Values} : Type :=
| Watch (callback : Callback)
| Unwatch (h : nat)
| Emit (batch : list Log).

Definition step `{Values} (this : ZombieFactory) (act : action) (s : system)
  : system :=
  match act with
  | Watch callback =>
      {| s_world := snd (watchNewZombieEvents this callback (s_world s));
         s_app := s_app s; s_trace := s_trace s |}
  | Unwatch h =>
      {| s_world := snd (call_handle h (s_world s));
         s_app := s_app s; s_trace := s_trace s |}
  | Emit batch =>
      let '(a, t) :=
        deliver batch (w_node (s_world s)) 0 (s_app s) (s_trace s) in
      {| s_world := s_world s; s_app := a; s_trace := t |}
  end.

Definition run `{Values} (this : ZombieFactory) (acts : list action) (s : system)
  : system :=
  fold_left (fun s act => step this act s) acts s.

(** The callback invocations of the subscription with handle [h]. *)
Definition invocations_of (h : nat) (trace : list (nat * NewZombieEvent))
  : list NewZombieEvent :=
  map snd (filter (fun p => Nat.eqb (fst p) h) trace).

Definition is_unwatch `{Values} (h : nat) (act : action) : bool :=
  match act with
  | Unwatch h' => Nat.eqb h' h
  | _ => false
  end.

(** The subscription with handle [h] is registered and stopped. *)
Definition stopped `{Values} (h : nat) (subs : list subscription) : Prop :=
  exists s, nth_error subs h = Some s /\ sub_active s = false.

(** The subscription with handle [h] is registered and active. *)
Definition active `{Values} (h : nat) (subs : list subscription) : Prop :=
  exists s, nth_error subs h = Some s /\ sub_active s = true.

End Polling.

(* ================================================================== *)
(** * The trait derivation as the specification words it *)
(* ================================================================== *)

Module Spec.

(** "Decimal parse" of a range of decimal digit characters. *)
Definition decimal_value (s : Js.str) : Z :=
  fold_left (fun acc c => acc * 10 + (Z.of_nat (nat_of_ascii c) - 48)) s 0.

(** "Render [dna] as a decimal string, left-padded with ['0'] to exactly
    16 characters". *)
Definition padded (dna : Z) : Js.str :=
  let s := Js.toString dna in
  repeat "0"%char (16 - length s) ++ s.

(** The characters at indices [i, j). *)
Definition range (i j : nat) (s : Js.str) : Js.str :=
  firstn (j - i) (skipn i s).

(** "floor(value / 100 x 360)", over the rationals. *)
Definition degrees (v : Z) : Z :=
  Qfloor (inject_Z v / inject_Z 100 * inject_Z 360)%Q.

(** The table of section 4.2, with the degrees of a two-digit value left
    open. *)
Definition traits_with (deg : Z -> Z) (name : string) (dna : Z) : ZombieDetails :=
  let v i j := decimal_value (range i j (padded dna)) in
  {| headChoice := Js.Num (v 0%nat 2%nat mod 7 + 1);
     eyeChoice := Js.Num (v 2%nat 4%nat mod 11 + 1);
     shirtChoice := Js.Num (v 4%nat 6%nat mod 6 + 1);
     skinColorChoice := Js.Num (deg (v 6%nat 8%nat));
     eyeColorChoice := Js.Num (deg (v 8%nat 10%nat));
     clothesColorChoice := Js.Num (deg (v 10%nat 12%nat));
     zombieName := name;
     zombieDescription := "A Level 1 CryptoZombie" |}.

(** [deriveTraits] of section 4.2. *)
Definition deriveTraits (name : string) (dna : Z) : ZombieDetails :=
  traits_with degrees name dna.

(** The degrees the binary64 evaluation of [(v / 100) * 360] floors to:
    the quotients [35 / 100] and [70 / 100] round below their exact values
    and the products stay below 126 and 252. *)
Definition degrees_binary64 (v : Z) : Z :=
  if (v =? 35) || (v =? 70) then degrees v - 1 else degrees v.

Definition deriveTraits_binary64 (name : string) (dna : Z) : ZombieDetails :=
  traits_with degrees_binary64 name dna.

End Spec.

(** The six numeric members of a record. *)
Definition numeric_fields (d : ZombieDetails) : list Js.number :=
  [headChoice d; eyeChoice d; shirtChoice d;
   skinColorChoice d; eyeColorChoice d; clothesColorChoice d].

(** [lo <= a <= hi] for a [Number] that is an integer in that range. *)
Definition in_range (lo hi : Z) (a : Js.number) : Prop :=
  exists z, a = Js.Num z /\ lo <= z <= hi.

(** The digits of a [Decimal.uint], most significant first. *)
Fixpoint uint_digits (d : Decimal.uint) : list Z :=
  match d with
  | Nil => []
  | D0 r => 0 :: uint_digits r
  | D1 r => 1 :: uint_digits r
  | D2 r => 2 :: uint_digits r
  | D3 r => 3 :: uint_digits r
  | D4 r => 4 :: uint_digits r
  | D5 r => 5 :: uint_digits r
  | D6 r => 6 :: uint_digits r
  | D7 r => 7 :: uint_digits r
  | D8 r => 8 :: uint_digits r
  | D9 r => 9 :: uint_digits r
  end.

(** The character of a digit. *)
Definition digit_char (d : Z) : ascii := ascii_of_nat (48 + Z.to_nat d).

Definition is_digit (d : Z) : Prop := 0 <= d <= 9.

(** The digits of a non-negative [dna], and the digits of its padded
    rendering. *)
Definition digits_of (dna : Z) : list Z := uint_digits (N.to_uint (Z.to_N dna)).

Definition padded_digits (dna : Z) : list Z :=
  repeat 0 (16 - length (digits_of dna)) ++ digits_of dna.

(* ================================================================== *)
(** * Vocabulary of the statements *)
(* ================================================================== *)

(** The record of section 4.2 read off a digit sequence. *)
Definition traits_of_digits (deg : Z -> Z) (name : string) (l : list Z)
  : ZombieDetails :=
  let v i := Js.horner 10 (firstn 2 (skipn i l)) in
  {| headChoice := Js.Num (v 0%nat mod 7 + 1);
     eyeChoice := Js.Num (v 2%nat mod 11 + 1);
     shirtChoice := Js.Num (v 4%nat mod 6 + 1);
     skinColorChoice := Js.Num (deg (v 6%nat));
     eyeColorChoice := Js.Num (deg (v 8%nat));
     clothesColorChoice := Js.Num (deg (v 10%nat));
     zombieName := name;
     zombieDescription := "A Level 1 CryptoZombie" |}.

(** A [Number] that is an integer: neither [NaN] nor an infinity. *)
Definition is_integer (a : Js.number) : Prop := exists z, a = Js.Num z.

(** The kinds of collaborator primitives. *)
Inductive primitive : Type :=
| RequestAddresses
| SimulateContract
| WriteContract
| ReadContract
| WatchContractEvent.

Definition primitive_of `{Platform} (c : call) : primitive :=
  match c with
  | CallRequestAddresses => RequestAddresses
  | CallSimulateContract _ => SimulateContract
  | CallWriteContract _ => WriteContract
  | CallReadContract _ => ReadContract
  | CallWatchContractEvent _ _ => WatchContractEvent
  end.

Definition primitive_eqb (p q : primitive) : bool :=
  match p, q with
  | RequestAddresses, RequestAddresses
  | SimulateContract, SimulateContract
  | WriteContract, WriteContract
  | ReadContract, ReadContract
  | WatchContractEvent, WatchContractEvent => true
  | _, _ => false
  end.

(** How often a primitive occurs in a list of calls. *)
Definition invocations `{Platform} (p : primitive) (calls : list call) : nat :=
  length (filter (fun c => primitive_eqb (primitive_of c) p) calls).

(** The calls made between two worlds. *)
Definition calls_since `{Platform} (w w' : world) : list call :=
  skipn (length (w_calls w)) (w_calls w').

(** The argument [createRandomZombie] passes to [simulateContract]. *)
Definition creation_parameters (this : ZombieFactory) (name : string)
    (accounts : list string) : SimulateContractParameters :=
  {| sim_address := contractAddress this;
     sim_functionName := "createRandomZombie";
     sim_args := [name];
     sim_account := hd_error accounts |}.

(** The argument [getZombie] passes to [readContract]. *)
Definition read_parameters (this : ZombieFactory) (zombieId : Z)
  : ReadContractParameters :=
  {| read_address := contractAddress this;
     read_functionName := "zombies";
     read_args := [zombieId] |}.

(** The event the handler builds from the arguments of a log. *)
Definition event_of_args (args : LogArgs) : NewZombieEvent :=
  {| ev_zombieId := arg_zombieId args;
     ev_name := arg_name args;
     ev_dna := arg_dna args |}.

(** The events of the logs of a batch that have arguments, in batch
    order, one per such log. *)
Definition decoded (batch : list Log) : list NewZombieEvent :=
  flat_map (fun log =>
    match log_args log with
    | Some args => [event_of_args args]
    | None => []
    end) batch.


(** An event with an [undefined] member. *)
Definition has_undefined (ev : NewZombieEvent) : bool :=
  match ev_zombieId ev, ev_name ev, ev_dna ev with
  | Some _, Some _, Some _ => false
  | _, _, _ => true
  end.

(** A log whose arguments are absent, or present with an [undefined]
    member. *)
Definition malformed (log : Log) : bool :=
  match log_args log with
  | Some args => has_undefined (event_of_args args)
  | None => true
  end.

(** The handler passes over [log] in silence: it returns normally, and
    either nothing at all has happened, or the callback has been handed an
    event with an [undefined] member. *)
Definition silent `{Values} (callback : Callback) (log : Log) (hs : hstate) : Prop :=
  exists hs',
    onLogs callback [log] hs = (Returned tt, hs')
    /\ (hs' = hs
        \/ exists ev, h_invoked hs' = h_invoked hs ++ [ev] /\ has_undefined ev = true).

(** C5 as the specification states it: a malformed log is never passed
    over in silence. *)
Definition decode_failures_surfaced `{Values} : Prop :=
  forall (callback : Callback) (log : Log) (hs : hstate),
    malformed log = true -> ~ silent callback log hs.

(** A callback that returns normally on every event. *)
Definition returns_normally `{Values} (callback : Callback) : Prop :=
  forall ev a, exists a', callback ev a = (Returned tt, a').

(** A subscriber for the examples: errors are strings, the application
    counts the events it has seen. *)
Module Example.

Definition values : Values := {| error := string; App := nat |}.

Definition counting : @Callback values :=
  fun _ (seen : nat) => (Returned tt, S seen).

Definition start : @hstate values := @Build_hstate values (O : @App values) [].

Definition absent : Log := {| log_args := None |}.

Definition partial : Log :=
  {| log_args := Some {| arg_zombieId := Some 7; arg_name := None; arg_dna := None |} |}.

Definition complete : Log :=
  {| log_args :=
       Some {| arg_zombieId := Some 8; arg_name := Some "Rex"%string;
               arg_dna := Some 1234567890123456 |} |}.

End Example.

Module ExampleClients.

Definition platform : @Platform Example.values :=
  {| node := nat; request := SimulateContractParameters |}.

(** A node that counts the calls reaching it; the simulation and the read
    are rejected. *)
Definition rejecting : @Clients Example.values platform :=
  @Build_Clients Example.values platform
    (fun n => (Returned ["0xA11CE"%string], S n))
    (fun _ n => (Thrown "SimulationReverted"%string, S n))
    (fun _ n => (Returned "0xBEEF"%string, S n))
    (fun _ n => (Thrown "ReadFailed"%string, S n)).

(** A node on which every primitive succeeds. *)
Definition accepting : @Clients Example.values platform :=
  @Build_Clients Example.values platform
    (fun n => (Returned ["0xA11CE"%string; "0xB0B"%string], S n))
    (fun p n => (Returned p, S n))
    (fun _ n => (Returned "0xBEEF"%string, S n))
    (fun _ n => (Returned ("Rex"%string, 1234567890123456), S n)).

Definition factory : ZombieFactory := {| contractAddress := "0xFAC7" |}.

Definition fresh : @world Example.values platform :=
  @Build_world Example.values platform (O : @node Example.values platform) [] [].

Definition idle : @Polling.system Example.values :=
  @Polling.Build_system Example.values
    (@Build_world Example.values Polling.platform
       ([] : @node Example.values Polling.platform) [] [])
    (O : @App Example.values) [].

End ExampleClients.

(* ================================================================== *)
(** * String methods of the callers *)
(* ================================================================== *)

(** A [string] stands for a JavaScript string whose code units are below
    256, one [ascii] per code unit. *)
Module JsString.

Definition chars : string -> list ascii := list_ascii_of_string.

Definition of_chars : list ascii -> string := string_of_list_ascii.

(** The white space and line terminators below 256: TAB, LF, VT, FF, CR,
    SP and NBSP. *)
Definition is_space (c : ascii) : bool :=
  let n := nat_of_ascii c in
  ((9 <=? n) && (n <=? 13) || (n =? 32) || (n =? 160))%nat.

Fixpoint trimStart_chars (l : list ascii) : list ascii :=
  match l with
  | c :: r => if is_space c then trimStart_chars r else l
  | [] => []
  end.

Definition trim_chars (l : list ascii) : list ascii :=
  List.rev (trimStart_chars (List.rev (trimStart_chars l))).

(** [String.prototype.trim()]. *)
Definition trim (s : string) : string := of_chars (trim_chars (chars s)).

(** The lower-case form of a code unit below 256: [A-Z] and the capital
    letters of Latin-1 (192 to 222, without the multiplication sign 215). *)
Definition lower_char (c : ascii) : ascii :=
  let n := nat_of_ascii c in
  if ((65 <=? n) && (n <=? 90)
      || (192 <=? n) && (n <=? 222) && negb (n =? 215))%nat
  then ascii_of_nat (n + 32)
  else c.

(** [String.prototype.toLowerCase()]. *)
Definition toLowerCase (s : string) : string :=
  of_chars (map lower_char (chars s)).

Fixpoint starts_with (k m : list ascii) : bool :=
  match k, m with
  | [], _ => true
  | a :: k', b :: m' => Ascii.eqb a b && starts_with k' m'
  | _ :: _, [] => false
  end.

Fixpoint includes_chars (m k : list ascii) : bool :=
  starts_with k m
  || match m with
     | _ :: m' => includes_chars m' k
     | [] => false
     end.

(** [m.includes(k)]. *)
Definition includes (m k : string) : bool := includes_chars (chars m) (chars k).

(** [s.length]. *)
Definition length (s : string) : nat := String.length s.

End JsString.

(* ================================================================== *)
(** * Thrown values *)
(* ================================================================== *)

(** What the callers look at in a thrown value: [message e] is its
    [message] member when that is a string and [None] when it has none;
    [TypeError] builds the error the run time throws when a member of
    [undefined] is read. *)
Class ErrorObjects (E : Type) : Type := {
  message : E -> option string;
  TypeError : string -> E
}.

(* ================================================================== *)
(** * [class ZombieErrorHandler] *)
(* ================================================================== *)

Module ZombieErrorHandler.

(** [static handleContractError(error)]. *)
Definition handleContractError {E} `{ErrorObjects E} (e : E) : outcome E string :=
  match message e with
  | None => Thrown (TypeError "error.message is undefined")
  | Some m =>
      Returned
        (if JsString.includes m "User rejected" then
           "Transaction was cancelled by user"
         else if JsString.includes m "insufficient funds" then
           "Insufficient funds for gas fees"
         else if JsString.includes m "execution reverted" then
           "Transaction failed - contract rejected the operation"
         else if JsString.includes m "network" then
           "Network error - please check your connection"
         else "An unexpected error occurred")%string
  end.

Definition retryableErrors : list string :=
  ["network"; "timeout"; "rate limit"; "temporary"]%string.

(** [static isRetryableError(error)]. *)
Definition isRetryableError {E} `{ErrorObjects E} (e : E) : outcome E bool :=
  match message e with
  | None => Thrown (TypeError "error.message is undefined")
  | Some m =>
      Returned
        (existsb (fun keyword => JsString.includes (JsString.toLowerCase m) keyword)
           retryableErrors)
  end.

End ZombieErrorHandler.

(* ================================================================== *)
(** * [generateZombie] as the subscribers call it *)
(* ================================================================== *)

(** The record [generateZombie] builds when its name argument may be
    [undefined]: the six numeric members in the order of
    [ZombieDetails], the name as it was handed in, and the description. *)
Record UncheckedDetails : Type := {
  u_numbers : list Js.number;
  u_zombieName : option string;
  u_zombieDescription : string
}.

(** [generateZombie(event.zombieId, event.name, event.dna)] with the
    members of an event, any of which may be [undefined]: [dna.toString()]
    throws a [TypeError] on [undefined]; [id] is not looked at and [name]
    is copied. The line it prints is kept in [console]. *)
Definition generateZombieUnchecked {E} `{ErrorObjects E}
    (id : option Z) (name : option string) (dna : option Z)
    (console : list UncheckedDetails)
  : outcome E UncheckedDetails * list UncheckedDetails :=
  match dna with
  | None => (Thrown (TypeError "dna is undefined"), console)
  | Some dna =>
      let dnaStr := Js.padStart 16 "0"%char (Js.toString dna) in
      let zombieDetails :=
        {| u_numbers := numeric_fields (zombieDetails_of "" dnaStr);
           u_zombieName := name;
           u_zombieDescription := "A Level 1 CryptoZombie" |} in
      (Returned zombieDetails, console ++ [zombieDetails])
  end.

(* ================================================================== *)
(** * [setupZombieFactoryUI] *)
(* ================================================================== *)

Module UI.

(** What the page shows and prints. *)
Inductive entry (E : Type) : Type :=
| Alert (text : string)
| LogTransactionSent (txHash : string)
| ErrorFailedToCreate (e : E).
Arguments Alert {E} text.
Arguments LogTransactionSent {E} txHash.
Arguments ErrorFailedToCreate {E} e.

Record state `{Platform} : Type := {
  ui_world : world;
  ui_out : list (entry error)
}.

(** Run a gateway operation on the world of the page. *)
Definition on_world `{Platform} {A} (m : M error world A) : M error state A :=
  fun s =>
    let '(r, w) := m (ui_world s) in
    (r, {| ui_world := w; ui_out := ui_out s |}).

Definition print `{Platform} (e : entry error) : M error state unit :=
  fun s => (Returned tt, {| ui_world := ui_world s; ui_out := ui_out s ++ [e] |}).

(** [const zombieFactory = new ZombieFactory(CONTRACT_ADDRESS)]. *)
Definition zombieFactory : ZombieFactory := {| contractAddress := "0x..." |}.

(** The click listener of the create button; [value] is
    [nameInput.value]. *)
Definition onClick `{Clients} (value : string) : M error state unit :=
  let name := JsString.trim value in
  match name with
  | EmptyString => print (Alert "Please enter a zombie name")
  | _ =>
      try_catch
        (txHash <- on_world (createRandomZombie zombieFactory name) ;;
         print (LogTransactionSent txHash))
        (fun e => print (ErrorFailedToCreate e))
  end.

(** The subscriber: [(event) => { generateZombie(event.zombieId,
    event.name, event.dna) }], on the lines [generateZombie] has printed. *)
Definition values (E : Type) : Values :=
  {| error := E; App := list UncheckedDetails |}.

Definition callback {E} `{ErrorObjects E} : @Callback (values E) :=
  fun event console =>
    match generateZombieUnchecked (ev_zombieId event) (ev_name event)
            (ev_dna event) console with
    | (Returned _, console') => (Returned tt, console')
    | (Thrown e, console') => (Thrown e, console')
    end.

End UI.

(* ================================================================== *)
(** * [class ZombieApp] *)
(* ================================================================== *)

(** [try { body } finally { final }]: [final] runs whatever [body] does;
    the outcome is that of [body] unless [final] throws. *)
Definition try_finally {E S A} (body : M E S A) (final : M E S unit) : M E S A :=
  fun s =>
    let '(r, s') := body s in
    match final s' with
    | (Returned _, s'') => (r, s'')
    | (Thrown e, s'') => (Thrown e, s'')
    end.

Module ZombieApp.

(** The objects the [zombies] map holds: [fullZombie] of [getZombie] and
    [zombie] of the event callback, whose [name] and [dna] are those of
    the event, [undefined] or not. *)
Inductive CachedZombie : Type :=
| Loaded (id : Z) (name : string) (dna : Z) (visual : ZombieDetails) (loadedAt : Z)
| Created (id : Z) (name : option string) (dna : option Z)
    (visual : UncheckedDetails) (createdAt : Z).

(** [zombie.name]. *)
Definition name_of (zombie : CachedZombie) : option string :=
  match zombie with
  | Loaded _ name _ _ _ => Some name
  | Created _ name _ _ _ => name
  end.

(** What the application prints, by the statement that prints it. *)
Inductive entry (E : Type) : Type :=
| ShowError (text : string)
| ShowLoading (text : string)
| HideLoading
| ShowSuccess (text : string)
| LogCreationTransaction (txHash : string)
| ErrorFailedToCreate (e : E)
| ErrorFailedToGet (id : Js.str) (e : E)
| LogNewZombieDetected (event : NewZombieEvent)
| LogGenerated (d : UncheckedDetails)
| OnNewZombie (zombie : CachedZombie)
| LogInitializing
| LogInitialized
| LogLoadingExisting
| LogLoaded (i : Z) (name : option string)
| LogCleanedUp.
Arguments ShowError {E} text.
Arguments ShowLoading {E} text.
Arguments HideLoading {E}.
Arguments ShowSuccess {E} text.
Arguments LogCreationTransaction {E} txHash.
Arguments ErrorFailedToCreate {E} e.
Arguments ErrorFailedToGet {E} id e.
Arguments LogNewZombieDetected {E} event.
Arguments LogGenerated {E} d.
Arguments OnNewZombie {E} zombie.
Arguments LogInitializing {E}.
Arguments LogInitialized {E}.
Arguments LogLoadingExisting {E}.
Arguments LogLoaded {E} i name.
Arguments LogCleanedUp {E}.

(** ** [Map<string, any>]: the entries in insertion order *)

Definition key_eqb (a b : Js.str) : bool :=
  if list_eq_dec Ascii.ascii_dec a b then true else false.

Fixpoint map_get {V} (key : Js.str) (m : list (Js.str * V)) : option V :=
  match m with
  | [] => None
  | (k, v) :: r => if key_eqb k key then Some v else map_get key r
  end.

Definition map_has {V} (key : Js.str) (m : list (Js.str * V)) : bool :=
  match map_get key m with
  | Some _ => true
  | None => false
  end.

(** [set] replaces the value of a key in place and appends a new key. *)
Fixpoint map_set {V} (key : Js.str) (value : V) (m : list (Js.str * V))
  : list (Js.str * V) :=
  match m with
  | [] => [(key, value)]
  | (k, v) :: r =>
      if key_eqb k key then (key, value) :: r else (k, v) :: map_set key value r
  end.

Definition map_values {V} (m : list (Js.str * V)) : list V := map snd m.

(** What the callback and the methods share: the [zombies] map, what has
    been printed, and the time [new Date()] reads. *)
Record Memory (E : Type) : Type := {
  zombies : list (Js.str * CachedZombie);
  out : list (entry E);
  now : Z
}.
Arguments zombies {E} m.
Arguments out {E} m.
Arguments now {E} m.

Definition values (E : Type) : Values := {| error := E; App := Memory E |}.

Definition show_in {E} (e : entry E) (mem : Memory E) : Memory E :=
  {| zombies := zombies mem; out := out mem ++ [e]; now := now mem |}.

(** The callback of [startEventListening]. *)
Definition callback {E} `{ErrorObjects E} : @Callback (values E) :=
  fun event mem =>
    let mem1 := show_in (LogNewZombieDetected event) mem in
    match generateZombieUnchecked (ev_zombieId event) (ev_name event)
            (ev_dna event) [] with
    | (Thrown e, _) => (Thrown e, mem1)
    | (Returned visualDetails, lines) =>
        let mem2 :=
          {| zombies := zombies mem1;
             out := out mem1 ++ map LogGenerated lines;
             now := now mem1 |} in
        match ev_zombieId event with
        | None => (Thrown (TypeError "event.zombieId is undefined"), mem2)
        | Some id =>
            let zombie :=
              Created id (ev_name event) (ev_dna event) visualDetails (now mem2) in
            (Returned tt,
             show_in (OnNewZombie zombie)
               {| zombies := map_set (Js.toString id) zombie (zombies mem2);
                  out := out mem2;
                  now := now mem2 |})
        end
    end.

Section Methods.

Context {E : Type} {EO : ErrorObjects E}.
Context {P : @Platform (values E)}.
Context {C : @Clients (values E) P} {EC : @EventClient (values E) P}.

(** The object and what is around it: the world of the gateway, the
    shared memory, the field [eventCleanup], and the handles invoked so
    far. *)
Record state : Type := {
  st_world : @world (values E) P;
  st_memory : Memory E;
  st_eventCleanup : option (@handle (values E) P EC);
  st_invoked : list (@handle (values E) P EC)
}.

Definition on_world {A} (m : M E (@world (values E) P) A) : M E state A :=
  fun s =>
    let '(r, w) := m (st_world s) in
    (r, {| st_world := w; st_memory := st_memory s;
           st_eventCleanup := st_eventCleanup s; st_invoked := st_invoked s |}).

Definition on_memory (f : Memory E -> Memory E) : M E state unit :=
  fun s =>
    (Returned tt,
     {| st_world := st_world s; st_memory := f (st_memory s);
        st_eventCleanup := st_eventCleanup s; st_invoked := st_invoked s |}).

Definition show (e : entry E) : M E state unit := on_memory (show_in e).

(** [generateZombie(zombieId, zombie.name, zombie.dna)] on the console of
    the world. *)
Definition generate (id : Z) (name : string) (dna : Z) : M E state ZombieDetails :=
  on_world (fun w =>
    let '(d, console) := generateZombie id name dna (w_console w) in
    (Returned d,
     {| w_node := w_node w; w_calls := w_calls w; w_console := console |})).

(** [async createZombie(name)]. *)
Definition createZombie (zombieFactory : ZombieFactory) (name : string)
  : M E state bool :=
  match JsString.trim name with
  | EmptyString => show (ShowError "Please enter a zombie name") ;;; ret false
  | _ =>
      if (32 <? JsString.length name)%nat then
        show (ShowError "Zombie name too long (max 32 characters)") ;;; ret false
      else
        try_finally
          (try_catch
             (show (ShowLoading "Creating zombie...") ;;;
              txHash <- on_world (createRandomZombie zombieFactory name) ;;
              show (ShowSuccess ("Zombie creation started! Transaction: " ++ txHash)) ;;;
              show (LogCreationTransaction txHash) ;;;
              ret true)
             (fun e =>
                show (ErrorFailedToCreate e) ;;;
                match message e with
                | None => throw (TypeError "error.message is undefined")
                | Some m =>
                    if JsString.includes m "User rejected" then
                      show (ShowError "Transaction was cancelled")
                    else if JsString.includes m "insufficient funds" then
                      show (ShowError "Insufficient funds for transaction")
                    else show (ShowError "Failed to create zombie. Please try again.")
                end ;;;
                ret false))
          (show HideLoading)
  end.

(** [async getZombie(zombieId)]; [None] is [null]. *)
Definition getZombie (zombieFactory : ZombieFactory) (zombieId : Z)
  : M E state (option CachedZombie) :=
  let id := Js.toString zombieId in
  fun s =>
    match map_get id (zombies (st_memory s)) with
    | Some cached => (Returned (Some cached), s)
    | None =>
        try_catch
          (zombie <- on_world (getZombie zombieFactory zombieId) ;;
           visualDetails <- generate zombieId (zr_name zombie) (zr_dna zombie) ;;
           fun s' =>
             let fullZombie :=
               Loaded zombieId (zr_name zombie) (zr_dna zombie) visualDetails
                 (now (st_memory s')) in
             (on_memory (fun mem =>
                {| zombies := map_set id fullZombie (zombies mem);
                   out := out mem; now := now mem |}) ;;;
              ret (Some fullZombie)) s')
          (fun e => show (ErrorFailedToGet id e) ;;; ret None)
          s
    end.

(** [private startEventListening()]. *)
Definition startEventListening (zombieFactory : ZombieFactory) : M E state unit :=
  unwatch <- on_world (watchNewZombieEvents zombieFactory callback) ;;
  fun s =>
    (Returned tt,
     {| st_world := st_world s; st_memory := st_memory s;
        st_eventCleanup := Some unwatch; st_invoked := st_invoked s |}).

(** The [for] loop of [loadExistingZombies] over the remaining values of
    [i]: a throw inside the body is caught and ends the loop. *)
Fixpoint load_from (zombieFactory : ZombieFactory) (indices : list Z)
  : M E state unit :=
  match indices with
  | [] => ret tt
  | i :: rest =>
      fun s =>
        match (zombie <- getZombie zombieFactory i ;;
               match zombie with
               | Some z => show (LogLoaded i (name_of z))
               | None => ret tt
               end) s with
        | (Returned _, s') => load_from zombieFactory rest s'
        | (Thrown _, s') => (Returned tt, s')
        end
  end.

(** [private async loadExistingZombies()]. *)
Definition loadExistingZombies (zombieFactory : ZombieFactory) : M E state unit :=
  show LogLoadingExisting ;;;
  load_from zombieFactory [0; 1; 2; 3; 4; 5; 6; 7; 8; 9].

(** [async initialize()]. *)
Definition initialize (zombieFactory : ZombieFactory) : M E state unit :=
  show LogInitializing ;;;
  startEventListening zombieFactory ;;;
  loadExistingZombies zombieFactory ;;;
  show LogInitialized.

(** [this.eventCleanup()]. *)
Definition invoke_cleanup (h : @handle (values E) P EC) : M E state unit :=
  fun s =>
    let '(r, w) := call_handle h (st_world s) in
    (r, {| st_world := w; st_memory := st_memory s;
           st_eventCleanup := st_eventCleanup s;
           st_invoked := st_invoked s ++ [h] |}).

(** [destroy()]. *)
Definition destroy : M E state unit :=
  (fun s =>
     match st_eventCleanup s with
     | Some h =>
         (invoke_cleanup h ;;;
          fun s' =>
            (Returned tt,
             {| st_world := st_world s'; st_memory := st_memory s';
                st_eventCleanup := None; st_invoked := st_invoked s' |})) s
     | None => (Returned tt, s)
     end) ;;;
  on_memory (fun mem => {| zombies := []; out := out mem; now := now mem |}) ;;;
  show LogCleanedUp.

(** [getAllZombies()]. *)
Definition getAllZombies (s : state) : list CachedZombie :=
  map_values (zombies (st_memory s)).

(** [Array.prototype.filter] with a predicate that may throw. *)
Fixpoint filter_throwing {A} (p : A -> outcome E bool) (l : list A)
  : outcome E (list A) :=
  match l with
  | [] => Returned []
  | x :: r =>
      match p x with
      | Thrown e => Thrown e
      | Returned keep =>
          match filter_throwing p r with
          | Thrown e => Thrown e
          | Returned kept => Returned (if keep then x :: kept else kept)
          end
      end
  end.

(** [searchZombies(query)]. *)
Definition searchZombies (query : string) (s : state)
  : outcome E (list CachedZombie) :=
  let lowerQuery := JsString.toLowerCase query in
  filter_throwing
    (fun zombie =>
       match name_of zombie with
       | None => Thrown (TypeError "zombie.name is undefined")
       | Some name =>
           Returned (JsString.includes (JsString.toLowerCase name) lowerQuery)
       end)
    (getAllZombies s).

End Methods.

End ZombieApp.

(* ================================================================== *)
(** * [createZombieDashboard] *)
(* ================================================================== *)

Module Dashboard.

(** An element of [stats.recentZombies]. *)
Record Row : Type := {
  row_id : Js.str;
  row_name : option string;
  row_dna : Js.str;
  row_createdAt : Z
}.

Record Stats : Type := {
  totalZombies : Z;
  recentZombies : list Row;
  lastActivity : option Z
}.

(** [let stats = { totalZombies: 0, recentZombies: [], lastActivity: null }]. *)
Definition initial : Stats :=
  {| totalZombies := 0; recentZombies := []; lastActivity := None |}.

(** What the subscriber acts on: [stats], the values of [stats] it has
    printed, and the clock, of which [reads] dates have been taken. *)
Record Page : Type := {
  stats : Stats;
  out : list Stats;
  clock : nat -> Z;
  reads : nat
}.

Definition values (E : Type) : Values := {| error := E; App := Page |}.

(** [stats.totalZombies++] on a number that started at [0]: an integer of
    at most [2^53], the value that [+ 1] rounds back to itself. *)
Definition increment (n : Z) : Z :=
  if n <? 9007199254740992 then n + 1 else n.

(** The subscriber. The argument of [unshift] is built before the call, so
    a [toString] of [undefined] leaves the list as it was. What
    [updateDashboardUI] writes into the element of the page is not part of
    [Page]: it reads [stats] and changes nothing of it. *)
Definition callback {E} `{ErrorObjects E} : @Callback (values E) :=
  fun event page =>
    let total := increment (totalZombies (stats page)) in
    let activity := Some (clock page (reads page)) in
    let failed :=
      {| stats := {| totalZombies := total;
                     recentZombies := recentZombies (stats page);
                     lastActivity := activity |};
         out := out page; clock := clock page; reads := S (reads page) |} in
    match ev_zombieId event with
    | None => (Thrown (TypeError "event.zombieId is undefined"), failed)
    | Some zombieId =>
        match ev_dna event with
        | None => (Thrown (TypeError "event.dna is undefined"), failed)
        | Some dna =>
            let unshifted :=
              {| row_id := Js.toString zombieId;
                 row_name := ev_name event;
                 row_dna := Js.toString dna;
                 row_createdAt := clock page (S (reads page)) |}
              :: recentZombies (stats page) in
            let recent :=
              if (10 <? length unshifted)%nat then firstn 10 unshifted
              else unshifted in
            let updated :=
              {| totalZombies := total; recentZombies := recent;
                 lastActivity := activity |} in
            (Returned tt,
             {| stats := updated; out := out page ++ [updated];
                clock := clock page; reads := S (S (reads page)) |})
        end
    end.

End Dashboard.

(* ================================================================== *)
(** * [testEventListening] *)
(* ================================================================== *)

Module EventTest.

(** The lines of the test and of its subscriber. *)
Inductive entry (E : Type) : Type :=
| LogStarting
| LogSettingUp
| LogEventCaptured (event : NewZombieEvent)
| LogWorking
| LogCreating
| LogTransactionSent (txHash : string)
| LogWaiting
| ErrorFailedToCreate (e : E)
| LogAutoComplete.
Arguments LogStarting {E}.
Arguments LogSettingUp {E}.
Arguments LogEventCaptured {E} event.
Arguments LogWorking {E}.
Arguments LogCreating {E}.
Arguments LogTransactionSent {E} txHash.
Arguments LogWaiting {E}.
Arguments ErrorFailedToCreate {E} e.
Arguments LogAutoComplete {E}.

Definition values (E : Type) : Values := {| error := E; App := list (entry E) |}.

(** The subscriber. *)
Definition callback {E} : @Callback (values E) :=
  fun event console => (Returned tt, console ++ [LogEventCaptured event; LogWorking]).

(** [const CONTRACT_ADDRESS = '0x...']. *)
Definition zombieFactory : ZombieFactory := {| contractAddress := "0x..." |}.

Section Test.

Context {E : Type} {P : @Platform (values E)}.
Context {C : @Clients (values E) P} {EC : @EventClient (values E) P}.

(** A pending [setTimeout(() => { console.log(...); unwatch() }, delay)]. *)
Record Timer : Type := {
  delay : Z;
  stops : @handle (values E) P EC
}.

Record state : Type := {
  st_world : @world (values E) P;
  st_console : list (entry E);
  st_timers : list Timer;
  st_invoked : list (@handle (values E) P EC)
}.

Definition on_world {A} (m : M E (@world (values E) P) A) : M E state A :=
  fun s =>
    let '(r, w) := m (st_world s) in
    (r, {| st_world := w; st_console := st_console s;
           st_timers := st_timers s; st_invoked := st_invoked s |}).

Definition print (e : entry E) : M E state unit :=
  fun s =>
    (Returned tt,
     {| st_world := st_world s; st_console := st_console s ++ [e];
        st_timers := st_timers s; st_invoked := st_invoked s |}).

(** [unwatch()]. *)
Definition invoke_handle (h : @handle (values E) P EC) : M E state unit :=
  fun s =>
    let '(r, w) := call_handle h (st_world s) in
    (r, {| st_world := w; st_console := st_console s;
           st_timers := st_timers s; st_invoked := st_invoked s ++ [h] |}).

Definition setTimeout (h : @handle (values E) P EC) (ms : Z) : M E state unit :=
  fun s =>
    (Returned tt,
     {| st_world := st_world s; st_console := st_console s;
        st_timers := st_timers s ++ [{| delay := ms; stops := h |}];
        st_invoked := st_invoked s |}).

(** [async testEventListening()]; the [return] of the [catch] block is the
    answer [false] of the guarded part. *)
Definition testEventListening : M E state unit :=
  print LogStarting ;;;
  print LogSettingUp ;;;
  unwatch <- on_world (watchNewZombieEvents zombieFactory callback) ;;
  print LogCreating ;;;
  sent <- try_catch
            (txHash <- on_world (createRandomZombie zombieFactory "TestZombie") ;;
             print (LogTransactionSent txHash) ;;;
             print LogWaiting ;;;
             ret true)
            (fun e =>
               print (ErrorFailedToCreate e) ;;;
               invoke_handle unwatch ;;;
               ret false) ;;
  if (sent : bool) then
    setTimeout unwatch 30000 ;;;
    print LogAutoComplete
  else ret tt.

End Test.

End EventTest.

(* ================================================================== *)
(** * Vocabulary of the statements on the callers *)
(* ================================================================== *)

(** Every code unit is white space. *)
Definition all_space (l : list ascii) : Prop :=
  Forall (fun c => JsString.is_space c = true) l.

(** The first code unit, if there is one, is not white space. *)
Definition no_space_at_head (l : list ascii) : Prop :=
  match l with
  | c :: _ => JsString.is_space c = false
  | [] => True
  end.

(** [getZombie] on each of [ids] in turn, whatever it answers. *)
Definition getZombies {E} {P : @Platform (ZombieApp.values E)}
    {C : @Clients (ZombieApp.values E) P} {EC : @EventClient (ZombieApp.values E) P}
    (zombieFactory : ZombieFactory) (ids : list Z) (s : ZombieApp.state)
  : ZombieApp.state :=
  fold_left (fun s id => snd (ZombieApp.getZombie zombieFactory id s)) ids s.

(** The ids among [ids] whose key the map does not hold. *)
Definition uncached {V} (m : list (Js.str * V)) (ids : list Z) : list Z :=
  filter (fun id => negb (ZombieApp.map_has (Js.toString id) m)) ids.

(** [destroy()] called [n] times in a row. *)
Definition destroys {E} {P : @Platform (ZombieApp.values E)}
    {EC : @EventClient (ZombieApp.values E) P} (n : nat)
  : M E (@ZombieApp.state E P EC) unit :=
  forEach (fun _ : unit => ZombieApp.destroy) (repeat tt n).

(** The event has the two members the subscribers call [toString] on. *)
Definition is_complete (ev : NewZombieEvent) : bool :=
  match ev_zombieId ev, ev_dna ev with
  | Some _, Some _ => true
  | _, _ => false
  end.

(** What the dashboard lists of a zombie, apart from the date. *)
Definition listed (row : Dashboard.Row) : Js.str * option string * Js.str :=
  (Dashboard.row_id row, Dashboard.row_name row, Dashboard.row_dna row).

Definition rendering (n : option Z) : Js.str :=
  match n with
  | Some z => Js.toString z
  | None => []
  end.

(** What the dashboard lists of a complete event. *)
Definition listing_of (ev : NewZombieEvent) : Js.str * option string * Js.str :=
  (rendering (ev_zombieId ev), ev_name ev, rendering (ev_dna ev)).

(** Thrown values that are a message or nothing. *)
Module ExampleErrors.

Definition objects : ErrorObjects (option string) :=
  {| message := fun e => e; TypeError := fun text => Some text |}.

End ExampleErrors.

(** An application on a node that counts the calls reaching it. *)
Module ExampleApp.

#[local] Existing Instance ExampleErrors.objects.

Definition values : Values := ZombieApp.values (option string).

Definition platform : @Platform values :=
  {| node := nat; request := SimulateContractParameters |}.

(** Every primitive succeeds. *)
Definition accepting : @Clients values platform :=
  @Build_Clients values platform
    (fun n => (Returned ["0xA11CE"%string; "0xB0B"%string], S n))
    (fun p n => (Returned p, S n))
    (fun _ n => (Returned "0xBEEF"%string, S n))
    (fun _ n => (Returned ("Rex"%string, 1234567890123456), S n)).

(** The wallet turns the request for the accounts down. *)
Definition rejecting : @Clients values platform :=
  @Build_Clients values platform
    (fun n => (Thrown (Some "User rejected the request."%string), S n))
    (fun p n => (Returned p, S n))
    (fun _ n => (Returned "0xBEEF"%string, S n))
    (fun _ n => (Thrown (Some "execution reverted"%string), S n)).

(** The handles are numbered by the state of the node at the
    subscription. *)
Definition events : @EventClient values platform :=
  @Build_EventClient values platform nat
    (fun _ n => (Returned n, S n))
    (fun _ n => (Returned tt, S n)).

Definition factory : ZombieFactory := {| contractAddress := "0xFAC7" |}.

Definition memory : ZombieApp.Memory (option string) :=
  {| ZombieApp.zombies := []; ZombieApp.out := []; ZombieApp.now := 1700000000000 |}.

Definition fresh : @ZombieApp.state (option string) platform events :=
  @ZombieApp.Build_state (option string) platform events
    (@Build_world values platform (O : @node values platform) [] [])
    memory None [].

(** The application after [startEventListening]. *)
Definition listening : @ZombieApp.state (option string) platform events :=
  snd (@ZombieApp.startEventListening (option string) ExampleErrors.objects
         platform events factory fresh).

Definition NewZombie : NewZombieEvent :=
  {| ev_zombieId := Some 7; ev_name := Some "Rex"%string;
     ev_dna := Some 1234567890123456 |}.

(** The application after the event [NewZombie] has reached its
    subscriber. *)
Definition notified : @ZombieApp.state (option string) platform events :=
  @ZombieApp.Build_state (option string) platform events
    (ZombieApp.st_world fresh)
    (snd (@ZombieApp.callback (option string) ExampleErrors.objects NewZombie memory))
    None [].

End ExampleApp.

(** A dashboard and a test on a node that counts the calls reaching it. *)
Module ExamplePages.

Definition page : Dashboard.Page :=
  {| Dashboard.stats := Dashboard.initial; Dashboard.out := [];
     Dashboard.clock := fun n => 1700000000000 + Z.of_nat n;
     Dashboard.reads := 0 |}.

Definition args (zombieId : Z) : LogArgs :=
  {| arg_zombieId := Some zombieId; arg_name := Some "Rex"%string;
     arg_dna := Some 1234567890123456 |}.

(** Twelve logs with arguments and one without. *)
Definition batch : list Log :=
  {| log_args := None |}
  :: map (fun zombieId => {| log_args := Some (args zombieId) |})
       [0; 1; 2; 3; 4; 5; 6; 7; 8; 9; 10; 11].

Definition dashboard : @hstate (Dashboard.values (option string)) :=
  @Build_hstate (Dashboard.values (option string)) page [].

(** The second log has arguments and no [dna]. *)
Definition broken_batch : list Log :=
  [ {| log_args := Some (args 0) |};
    {| log_args := Some {| arg_zombieId := Some 1; arg_name := Some "Bob"%string;
                           arg_dna := None |} |};
    {| log_args := Some (args 2) |} ].

Definition subscriber : @hstate (UI.values (option string)) :=
  @Build_hstate (UI.values (option string)) ([] : list UncheckedDetails) [].

Definition values : Values := EventTest.values (option string).

Definition platform : @Platform values :=
  {| node := nat; request := SimulateContractParameters |}.

Definition accepting : @Clients values platform :=
  @Build_Clients values platform
    (fun n => (Returned ["0xA11CE"%string], S n))
    (fun p n => (Returned p, S n))
    (fun _ n => (Returned "0xBEEF"%string, S n))
    (fun _ n => (Returned ("Rex"%string, 1234567890123456), S n)).

Definition rejecting : @Clients values platform :=
  @Build_Clients values platform
    (fun n => (Returned ["0xA11CE"%string], S n))
    (fun _ n => (Thrown (Some "execution reverted"%string), S n))
    (fun _ n => (Returned "0xBEEF"%string, S n))
    (fun _ n => (Thrown (Some "execution reverted"%string), S n)).

Definition events : @EventClient values platform :=
  @Build_EventClient values platform nat
    (fun _ n => (Returned n, S n))
    (fun _ n => (Returned tt, S n)).

Definition fresh : @EventTest.state (option string) platform events :=
  @EventTest.Build_state (option string) platform events
    (@Build_world values platform (O : @node values platform) [] [])
    [] [] [].

End ExamplePages.

(* ================================================================== *)
(** * Decimal rendering *)
(* ================================================================== *)

Section DecimalRendering.

Lemma is_digit_cases d :
  is_digit d ->
  d = 0 \/ d = 1 \/ d = 2 \/ d = 3 \/ d = 4 \/ d = 5 \/ d = 6 \/ d = 7 \/ d = 8 \/ d = 9.
Proof. unfold is_digit; lia. Qed.

Lemma uint_digits_are_digits d : Forall is_digit (uint_digits d).
Proof. induction d; simpl; constructor; unfold is_digit; auto; lia. Qed.

Lemma string_of_uint_chars d :
  list_ascii_of_string (NilEmpty.string_of_uint d) = map digit_char (uint_digits d).
Proof. induction d; simpl; [reflexivity | rewrite IHd; reflexivity ..]. Qed.

Lemma toString_nonneg dna :
  0 <= dna -> Js.toString dna = map digit_char (digits_of dna).
Proof.
  intros Hdna. unfold Js.toString, digits_of.
  destruct dna as [|p|p]; [reflexivity | | lia].
  cbn [Z.to_int NilEmpty.string_of_int Z.to_N N.to_uint]. apply string_of_uint_chars.
Qed.

Lemma digits_of_are_digits dna : Forall is_digit (digits_of dna).
Proof. apply uint_digits_are_digits. Qed.

(** ** The value of a digit sequence *)

Lemma fold_horner ds acc :
  fold_left (fun a d => a * 10 + d) ds acc = acc * 10 ^ Z.of_nat (length ds) + Js.horner 10 ds.
Proof.
  unfold Js.horner. revert acc.
  induction ds as [|d r IH]; intros acc.
  - simpl. lia.
  - cbn [fold_left length]. rewrite IH, (IH (0 * 10 + d)).
    rewrite Nat2Z.inj_succ, Z.pow_succ_r by lia. ring.
Qed.

Lemma horner_cons d r :
  Js.horner 10 (d :: r) = d * 10 ^ Z.of_nat (length r) + Js.horner 10 r.
Proof. unfold Js.horner at 1. cbn [fold_left]. rewrite fold_horner. ring. Qed.

Lemma horner_app l1 l2 :
  Js.horner 10 (l1 ++ l2) = Js.horner 10 l1 * 10 ^ Z.of_nat (length l2) + Js.horner 10 l2.
Proof.
  unfold Js.horner at 1. rewrite fold_left_app. fold (Js.horner 10 l1).
  apply fold_horner.
Qed.

Lemma horner_bounds ds :
  Forall is_digit ds -> 0 <= Js.horner 10 ds < 10 ^ Z.of_nat (length ds).
Proof.
  induction 1 as [|d r Hd _ IH].
  - cbn. lia.
  - rewrite horner_cons. cbn [length]. rewrite Nat2Z.inj_succ, Z.pow_succ_r by lia.
    unfold is_digit in Hd. nia.
Qed.

Lemma horner_repeat_0 n : Js.horner 10 (repeat 0 n) = 0.
Proof.
  induction n as [|n IH]; [reflexivity|].
  cbn [repeat]. rewrite horner_cons, IH. lia.
Qed.

Lemma of_uint_acc_horner d acc :
  Z.pos (Pos.of_uint_acc d acc) = fold_left (fun a x => a * 10 + x) (uint_digits d) (Z.pos acc).
Proof.
  revert acc. induction d; intros acc; cbn [Pos.of_uint_acc uint_digits fold_left];
    [reflexivity | rewrite IHd; f_equal; lia ..].
Qed.

Lemma of_uint_horner d : Z.of_N (Pos.of_uint d) = Js.horner 10 (uint_digits d).
Proof.
  unfold Js.horner.
  induction d; cbn [Pos.of_uint uint_digits fold_left Z.of_N];
    [reflexivity | exact IHd | rewrite of_uint_acc_horner; reflexivity ..].
Qed.

Lemma horner_digits_of dna : 0 <= dna -> Js.horner 10 (digits_of dna) = dna.
Proof.
  intros Hdna. unfold digits_of.
  rewrite <- of_uint_horner.
  change (Pos.of_uint (N.to_uint (Z.to_N dna))) with (N.of_uint (N.to_uint (Z.to_N dna))).
  rewrite DecimalN.Unsigned.of_to. lia.
Qed.

(** ** No leading zero *)

Lemma to_uint_head p :
  exists d r, uint_digits (Pos.to_uint p) = d :: r /\ 1 <= d <= 9.
Proof.
  assert (Hnorm : unorm (Pos.to_uint p) = Pos.to_uint p).
  { rewrite <- DecimalPos.Unsigned.to_of, DecimalPos.Unsigned.of_to. reflexivity. }
  pose proof (DecimalPos.Unsigned.to_uint_nonzero p) as Hnz.
  pose proof (nzhead_nonzero (Pos.to_uint p)) as Hhead.
  unfold unorm in Hnorm.
  destruct (nzhead (Pos.to_uint p)) as [|u|u|u|u|u|u|u|u|u|u] eqn:E;
    rewrite <- Hnorm; cbn [uint_digits].
  - exfalso. apply Hnz. symmetry. exact Hnorm.
  - exfalso. exact (Hhead u eq_refl).
  - exists 1, (uint_digits u); split; [reflexivity | lia].
  - exists 2, (uint_digits u); split; [reflexivity | lia].
  - exists 3, (uint_digits u); split; [reflexivity | lia].
  - exists 4, (uint_digits u); split; [reflexivity | lia].
  - exists 5, (uint_digits u); split; [reflexivity | lia].
  - exists 6, (uint_digits u); split; [reflexivity | lia].
  - exists 7, (uint_digits u); split; [reflexivity | lia].
  - exists 8, (uint_digits u); split; [reflexivity | lia].
  - exists 9, (uint_digits u); split; [reflexivity | lia].
Qed.

Lemma digits_of_nonempty dna : (1 <= length (digits_of dna))%nat.
Proof.
  unfold digits_of. destruct (Z.to_N dna) as [|p]; [cbn; lia|].
  cbn [N.to_uint]. destruct (to_uint_head p) as (d & r & -> & _). cbn. lia.
Qed.

(** A positive [dna] has at least [10 ^ (digits - 1)]. *)
Lemma digits_of_lower dna :
  0 < dna -> 10 ^ (Z.of_nat (length (digits_of dna)) - 1) <= dna.
Proof.
  intros Hpos.
  rewrite <- (horner_digits_of dna) at 2 by lia.
  pose proof (digits_of_are_digits dna) as Hall.
  unfold digits_of in *. destruct (Z.to_N dna) as [|p] eqn:E; [lia|].
  cbn [N.to_uint] in *. destruct (to_uint_head p) as (d & r & Hd & Hrange).
  rewrite Hd in *. rewrite horner_cons. cbn [length].
  replace (Z.of_nat (S (length r)) - 1) with (Z.of_nat (length r)) by lia.
  inversion Hall as [|? ? _ Hr]; subst.
  pose proof (horner_bounds r Hr). nia.
Qed.

(** [dna] has at most 16 digits exactly when it is below [10 ^ 16]. *)
Lemma at_most_16_digits dna :
  0 <= dna -> ((length (digits_of dna) <= 16)%nat <-> dna < 10 ^ 16).
Proof.
  intros Hdna. split.
  - intros Hlen.
    pose proof (horner_bounds _ (digits_of_are_digits dna)) as Hb.
    rewrite horner_digits_of in Hb by lia.
    assert (10 ^ Z.of_nat (length (digits_of dna)) <= 10 ^ 16)
      by (apply Z.pow_le_mono_r; lia).
    lia.
  - intros Hlt.
    destruct (Z.eq_dec dna 0) as [->|Hne]; [cbn; lia|].
    pose proof (digits_of_lower dna ltac:(lia)) as Hlow.
    destruct (Nat.le_gt_cases (length (digits_of dna)) 16) as [|Hgt]; [assumption|].
    assert (10 ^ 16 <= 10 ^ (Z.of_nat (length (digits_of dna)) - 1))
      by (apply Z.pow_le_mono_r; lia).
    lia.
Qed.

(** ** Prefixes and long renderings *)

Lemma digit_char_value d :
  is_digit d -> Z.of_nat (nat_of_ascii (digit_char d)) - 48 = d.
Proof.
  intros Hd.
  destruct (is_digit_cases d Hd) as [->|[->|[->|[->|[->|[->|[->|[->|[->| ->]]]]]]]]];
    reflexivity.
Qed.

Lemma decimal_value_digits l :
  Forall is_digit l -> Spec.decimal_value (map digit_char l) = Js.horner 10 l.
Proof.
  unfold Spec.decimal_value, Js.horner. generalize 0.
  induction l as [|d r IH]; intros acc Hall; [reflexivity|].
  inversion Hall as [|? ? Hd Hr]; subst.
  cbn [map fold_left]. rewrite digit_char_value by assumption.
  apply IH. assumption.
Qed.

(** The first [k] digits are the most significant ones. *)
Lemma horner_firstn k l :
  Forall is_digit l -> (k <= length l)%nat ->
  Js.horner 10 (firstn k l) = Js.horner 10 l / 10 ^ Z.of_nat (length l - k).
Proof.
  intros Hall Hk.
  rewrite <- (firstn_skipn k l) in Hall. apply Forall_app in Hall.
  destruct Hall as [_ Hlow].
  pose proof (horner_bounds _ Hlow) as Hb.
  rewrite length_skipn in Hb.
  rewrite <- (firstn_skipn k l) at 2.
  rewrite horner_app, length_skipn.
  rewrite Z.div_add_l by (apply Z.pow_nonzero; lia).
  rewrite Z.div_small by assumption. lia.
Qed.

(** The last digits are the least significant ones. *)
Lemma horner_skipn i l :
  Forall is_digit l ->
  Js.horner 10 (skipn i l) = Js.horner 10 l mod 10 ^ Z.of_nat (length l - i).
Proof.
  intros Hall.
  pose proof Hall as Hsplit.
  rewrite <- (firstn_skipn i l) in Hsplit. apply Forall_app in Hsplit.
  destruct Hsplit as [_ Hlow].
  pose proof (horner_bounds _ Hlow) as Hb. rewrite length_skipn in Hb.
  rewrite <- (firstn_skipn i l) at 2.
  rewrite horner_app, length_skipn.
  rewrite Z.add_comm, Z.mod_add by (apply Z.pow_nonzero; lia).
  rewrite Z.mod_small by assumption. reflexivity.
Qed.

(** A window of [k] digits at position [i]. *)
Lemma horner_window i k l :
  Forall is_digit l -> (i + k <= length l)%nat ->
  Js.horner 10 (firstn k (skipn i l))
  = (Js.horner 10 l / 10 ^ Z.of_nat (length l - (i + k))) mod 10 ^ Z.of_nat k.
Proof.
  intros Hall Hlen.
  rewrite firstn_skipn_comm.
  assert (Hpre : Forall is_digit (firstn (i + k) l)).
  { rewrite <- (firstn_skipn (i + k) l) in Hall. apply Forall_app in Hall. tauto. }
  rewrite horner_skipn by assumption.
  rewrite horner_firstn by assumption.
  rewrite length_firstn. do 2 f_equal. lia.
Qed.

(** Digit sequences of one length with one value are equal. *)
Lemma horner_inj l1 : forall l2,
  Forall is_digit l1 -> Forall is_digit l2 -> length l1 = length l2 ->
  Js.horner 10 l1 = Js.horner 10 l2 -> l1 = l2.
Proof.
  induction l1 as [|d1 r1 IH]; intros [|d2 r2] H1 H2 Hlen Heq;
    try discriminate; [reflexivity|].
  inversion H1 as [|? ? Hd1 Hr1]; subst. inversion H2 as [|? ? Hd2 Hr2]; subst.
  injection Hlen as Hlen. rewrite !horner_cons, Hlen in Heq.
  pose proof (horner_bounds r1 Hr1) as B1. rewrite Hlen in B1.
  pose proof (horner_bounds r2 Hr2) as B2.
  assert (d1 = d2) by nia. subst d2.
  f_equal. apply IH; try assumption. lia.
Qed.


End DecimalRendering.

(* ================================================================== *)
(** * The trait deriver on digit sequences *)
(* ================================================================== *)

Section Deriver.

Lemma degrees_div v : Spec.degrees v = v * 360 / 100.
Proof.
  unfold Spec.degrees, Qfloor, Qdiv, Qmult, Qinv, inject_Z. cbn.
  f_equal. lia.
Qed.

(** What the source computes from two digit characters. *)
Lemma two_digit_characters a b :
  is_digit a -> is_digit b ->
  Js.parseInt (map digit_char [a; b]) = Js.Num (Js.horner 10 [a; b])
  /\ Spec.decimal_value (map digit_char [a; b]) = Js.horner 10 [a; b]
  /\ hue (map digit_char [a; b]) = Js.Num (Spec.degrees_binary64 (Js.horner 10 [a; b]))
  /\ 0 <= Spec.degrees_binary64 (Js.horner 10 [a; b]) <= 356.
Proof.
  intros Ha Hb.
  destruct (is_digit_cases a Ha) as [->|[->|[->|[->|[->|[->|[->|[->|[->| ->]]]]]]]]];
  destruct (is_digit_cases b Hb) as [->|[->|[->|[->|[->|[->|[->|[->|[->| ->]]]]]]]]];
  vm_compute; repeat split; congruence.
Qed.

Lemma substring_map (f : Z -> ascii) i j l :
  Js.substring i j (map f l) = map f (firstn (j - i) (skipn i l)).
Proof. unfold Js.substring. rewrite skipn_map, firstn_map. reflexivity. Qed.

(** A window of two digits inside a digit sequence. *)
Lemma window_two l i :
  Forall is_digit l -> (i + 2 <= length l)%nat ->
  exists a b, firstn 2 (skipn i l) = [a; b] /\ is_digit a /\ is_digit b.
Proof.
  intros Hall Hlen.
  assert (Hskip : (2 <= length (skipn i l))%nat) by (rewrite length_skipn; lia).
  assert (Hd : Forall is_digit (skipn i l)).
  { rewrite <- (firstn_skipn i l) in Hall. apply Forall_app in Hall. tauto. }
  destruct (skipn i l) as [|a [|b r]]; cbn in Hskip; try lia.
  exists a, b. inversion Hd as [|? ? Ha Hd']; subst.
  inversion Hd' as [|? ? Hb _]; subst. auto.
Qed.

Lemma mod_plus_one v m :
  0 <= v -> 0 < m ->
  Js.add (Js.rem (Js.Num v) m) 1 = Js.Num (v mod m + 1).
Proof.
  intros Hv Hm. cbn. rewrite Z.rem_mod_nonneg by lia. reflexivity.
Qed.

Lemma horner_two_nonneg a b : is_digit a -> is_digit b -> 0 <= Js.horner 10 [a; b] <= 99.
Proof. unfold is_digit. cbn. lia. Qed.

(** The record literal of the source on a string of at least 12 digit
    characters. *)
Lemma zombieDetails_of_digits name l :
  Forall is_digit l -> (12 <= length l)%nat ->
  zombieDetails_of name (map digit_char l)
  = traits_of_digits Spec.degrees_binary64 name l.
Proof.
  intros Hall Hlen.
  unfold zombieDetails_of, traits_of_digits.
  rewrite !substring_map.
  change (2 - 0)%nat with 2%nat. change (4 - 2)%nat with 2%nat.
  change (6 - 4)%nat with 2%nat. change (8 - 6)%nat with 2%nat.
  change (10 - 8)%nat with 2%nat. change (12 - 10)%nat with 2%nat.
  destruct (window_two l 0 Hall ltac:(lia)) as (a0 & b0 & -> & Ha0 & Hb0).
  destruct (window_two l 2 Hall ltac:(lia)) as (a2 & b2 & -> & Ha2 & Hb2).
  destruct (window_two l 4 Hall ltac:(lia)) as (a4 & b4 & -> & Ha4 & Hb4).
  destruct (window_two l 6 Hall ltac:(lia)) as (a6 & b6 & -> & Ha6 & Hb6).
  destruct (window_two l 8 Hall ltac:(lia)) as (a8 & b8 & -> & Ha8 & Hb8).
  destruct (window_two l 10 Hall ltac:(lia)) as (a10 & b10 & -> & Ha10 & Hb10).
  destruct (two_digit_characters a0 b0 Ha0 Hb0) as (-> & _).
  destruct (two_digit_characters a2 b2 Ha2 Hb2) as (-> & _).
  destruct (two_digit_characters a4 b4 Ha4 Hb4) as (-> & _).
  destruct (two_digit_characters a6 b6 Ha6 Hb6) as (_ & _ & -> & _).
  destruct (two_digit_characters a8 b8 Ha8 Hb8) as (_ & _ & -> & _).
  destruct (two_digit_characters a10 b10 Ha10 Hb10) as (_ & _ & -> & _).
  rewrite !mod_plus_one by (try apply horner_two_nonneg; auto; lia).
  reflexivity.
Qed.

(** The table of the specification on the same digits. *)
Lemma traits_with_digits deg name l :
  Forall is_digit l -> (12 <= length l)%nat ->
  let v i j := Spec.decimal_value (Spec.range i j (map digit_char l)) in
  {| headChoice := Js.Num (v 0%nat 2%nat mod 7 + 1);
     eyeChoice := Js.Num (v 2%nat 4%nat mod 11 + 1);
     shirtChoice := Js.Num (v 4%nat 6%nat mod 6 + 1);
     skinColorChoice := Js.Num (deg (v 6%nat 8%nat));
     eyeColorChoice := Js.Num (deg (v 8%nat 10%nat));
     clothesColorChoice := Js.Num (deg (v 10%nat 12%nat));
     zombieName := name;
     zombieDescription := "A Level 1 CryptoZombie" |}
  = traits_of_digits deg name l.
Proof.
  intros Hall Hlen. cbv zeta. unfold traits_of_digits.
  change Spec.range with Js.substring.
  rewrite !substring_map.
  change (2 - 0)%nat with 2%nat. change (4 - 2)%nat with 2%nat.
  change (6 - 4)%nat with 2%nat. change (8 - 6)%nat with 2%nat.
  change (10 - 8)%nat with 2%nat. change (12 - 10)%nat with 2%nat.
  destruct (window_two l 0 Hall ltac:(lia)) as (a0 & b0 & -> & Ha0 & Hb0).
  destruct (window_two l 2 Hall ltac:(lia)) as (a2 & b2 & -> & Ha2 & Hb2).
  destruct (window_two l 4 Hall ltac:(lia)) as (a4 & b4 & -> & Ha4 & Hb4).
  destruct (window_two l 6 Hall ltac:(lia)) as (a6 & b6 & -> & Ha6 & Hb6).
  destruct (window_two l 8 Hall ltac:(lia)) as (a8 & b8 & -> & Ha8 & Hb8).
  destruct (window_two l 10 Hall ltac:(lia)) as (a10 & b10 & -> & Ha10 & Hb10).
  destruct (two_digit_characters a0 b0 Ha0 Hb0) as (_ & -> & _).
  destruct (two_digit_characters a2 b2 Ha2 Hb2) as (_ & -> & _).
  destruct (two_digit_characters a4 b4 Ha4 Hb4) as (_ & -> & _).
  destruct (two_digit_characters a6 b6 Ha6 Hb6) as (_ & -> & _).
  destruct (two_digit_characters a8 b8 Ha8 Hb8) as (_ & -> & _).
  destruct (two_digit_characters a10 b10 Ha10 Hb10) as (_ & -> & _).
  reflexivity.
Qed.

(** ** The padded rendering *)

Lemma padStart_digits dna :
  0 <= dna ->
  Js.padStart 16 "0"%char (Js.toString dna) = map digit_char (padded_digits dna).
Proof.
  intros Hdna. unfold Js.padStart, padded_digits.
  rewrite toString_nonneg by assumption.
  rewrite length_map, map_app, map_repeat. reflexivity.
Qed.

Lemma padded_digits_are_digits dna : Forall is_digit (padded_digits dna).
Proof.
  unfold padded_digits. apply Forall_app. split.
  - apply Forall_forall. intros x Hx. apply repeat_spec in Hx. subst. unfold is_digit. lia.
  - apply digits_of_are_digits.
Qed.

Lemma padded_digits_length dna : (16 <= length (padded_digits dna))%nat.
Proof. unfold padded_digits. rewrite length_app, repeat_length. lia. Qed.

Lemma padded_digits_value dna : 0 <= dna -> Js.horner 10 (padded_digits dna) = dna.
Proof.
  intros Hdna. unfold padded_digits.
  rewrite horner_app, horner_repeat_0, horner_digits_of by assumption. lia.
Qed.

Lemma padded_digits_length_exact dna :
  0 <= dna < 10 ^ 16 -> length (padded_digits dna) = 16%nat.
Proof.
  intros Hdna. unfold padded_digits. rewrite length_app, repeat_length.
  assert ((length (digits_of dna) <= 16)%nat) by (apply at_most_16_digits; lia).
  lia.
Qed.

(** Characters [0,12) of the padded rendering are [dna] without its four
    lowest digits. *)
Lemma first_12_digits_value dna :
  0 <= dna < 10 ^ 16 ->
  Js.horner 10 (firstn 12 (padded_digits dna)) = dna / 10 ^ 4.
Proof.
  intros Hdna.
  rewrite horner_firstn.
  - rewrite padded_digits_length_exact, padded_digits_value by lia. reflexivity.
  - apply padded_digits_are_digits.
  - rewrite padded_digits_length_exact by lia. lia.
Qed.

(** The two characters at [i, i + 2) of the padded rendering, as
    arithmetic on [dna]. *)
Lemma padded_window_value dna i :
  0 <= dna < 10 ^ 16 -> (i + 2 <= 16)%nat ->
  Js.horner 10 (firstn 2 (skipn i (padded_digits dna)))
  = (dna / 10 ^ Z.of_nat (14 - i)) mod 100.
Proof.
  intros Hdna Hi.
  rewrite horner_window.
  - rewrite padded_digits_length_exact, padded_digits_value by lia.
    do 2 f_equal. f_equal. lia.
  - apply padded_digits_are_digits.
  - rewrite padded_digits_length_exact by lia. assumption.
Qed.

Lemma first_12_digits_agree dna1 dna2 :
  0 <= dna1 < 10 ^ 16 -> 0 <= dna2 < 10 ^ 16 ->
  (firstn 12 (Js.padStart 16 "0"%char (Js.toString dna1))
   = firstn 12 (Js.padStart 16 "0"%char (Js.toString dna2))
   <-> dna1 / 10 ^ 4 = dna2 / 10 ^ 4).
Proof.
  intros H1 H2.
  rewrite !padStart_digits, !firstn_map by lia.
  assert (D1 : Forall is_digit (firstn 12 (padded_digits dna1))).
  { pose proof (padded_digits_are_digits dna1) as Hd.
    rewrite <- (firstn_skipn 12 (padded_digits dna1)) in Hd.
    apply Forall_app in Hd. tauto. }
  assert (D2 : Forall is_digit (firstn 12 (padded_digits dna2))).
  { pose proof (padded_digits_are_digits dna2) as Hd.
    rewrite <- (firstn_skipn 12 (padded_digits dna2)) in Hd.
    apply Forall_app in Hd. tauto. }
  rewrite <- !first_12_digits_value by assumption.
  split.
  - intros Heq. apply (f_equal Spec.decimal_value) in Heq.
    rewrite !decimal_value_digits in Heq by assumption. exact Heq.
  - intros Heq. f_equal. apply horner_inj; try assumption.
    rewrite !length_firstn, !padded_digits_length_exact by assumption.
    reflexivity.
Qed.

(** What [generateZombie] returns for a non-negative [dna]. *)
Lemma generateZombie_digits {error : Type} id name dna
    (console : list (console_entry error)) :
  0 <= dna ->
  generateZombie id name dna console
  = (traits_of_digits Spec.degrees_binary64 name (padded_digits dna),
     console ++ [LogGenerated
       (traits_of_digits Spec.degrees_binary64 name (padded_digits dna))]).
Proof.
  intros Hdna. unfold generateZombie.
  rewrite padStart_digits by assumption.
  rewrite zombieDetails_of_digits.
  - reflexivity.
  - apply padded_digits_are_digits.
  - pose proof (padded_digits_length dna). lia.
Qed.

Lemma spec_traits_digits deg name dna :
  0 <= dna ->
  Spec.traits_with deg name dna = traits_of_digits deg name (padded_digits dna).
Proof.
  intros Hdna. unfold Spec.traits_with.
  change (Spec.padded dna) with (Js.padStart 16 "0"%char (Js.toString dna)).
  rewrite padStart_digits by assumption.
  apply traits_with_digits.
  - apply padded_digits_are_digits.
  - pose proof (padded_digits_length dna). lia.
Qed.

End Deriver.

(* ================================================================== *)
(** * Properties of [generateZombie] *)
(* ================================================================== *)

Section GenerateZombie.

Context {error : Type}.

Lemma in_range_weaken lo hi lo' hi' a :
  lo' <= lo -> hi <= hi' -> in_range lo hi a -> in_range lo' hi' a.
Proof. intros Hlo Hhi (z & -> & Hz). exists z. split; [reflexivity | lia]. Qed.

Lemma in_range_is_integer lo hi a : in_range lo hi a -> is_integer a.
Proof. intros (z & -> & _). exists z. reflexivity. Qed.

(** The ranges of the six numeric members, on any digit sequence of at
    least 12 digits. *)
Lemma traits_of_digits_ranges name l :
  Forall is_digit l -> (12 <= length l)%nat ->
  let d := traits_of_digits Spec.degrees_binary64 name l in
  in_range 1 7 (headChoice d) /\ in_range 1 11 (eyeChoice d)
  /\ in_range 1 6 (shirtChoice d)
  /\ in_range 0 356 (skinColorChoice d) /\ in_range 0 356 (eyeColorChoice d)
  /\ in_range 0 356 (clothesColorChoice d).
Proof.
  intros Hall Hlen. cbv zeta. unfold traits_of_digits. cbn [headChoice eyeChoice
    shirtChoice skinColorChoice eyeColorChoice clothesColorChoice].
  destruct (window_two l 0 Hall ltac:(lia)) as (a0 & b0 & -> & Ha0 & Hb0).
  destruct (window_two l 2 Hall ltac:(lia)) as (a2 & b2 & -> & Ha2 & Hb2).
  destruct (window_two l 4 Hall ltac:(lia)) as (a4 & b4 & -> & Ha4 & Hb4).
  destruct (window_two l 6 Hall ltac:(lia)) as (a6 & b6 & -> & Ha6 & Hb6).
  destruct (window_two l 8 Hall ltac:(lia)) as (a8 & b8 & -> & Ha8 & Hb8).
  destruct (window_two l 10 Hall ltac:(lia)) as (a10 & b10 & -> & Ha10 & Hb10).
  repeat split; eexists; (split; [reflexivity|]).
  - pose proof (Z.mod_pos_bound (Js.horner 10 [a0; b0]) 7). lia.
  - pose proof (Z.mod_pos_bound (Js.horner 10 [a2; b2]) 11). lia.
  - pose proof (Z.mod_pos_bound (Js.horner 10 [a4; b4]) 6). lia.
  - apply (two_digit_characters a6 b6 Ha6 Hb6).
  - apply (two_digit_characters a8 b8 Ha8 Hb8).
  - apply (two_digit_characters a10 b10 Ha10 Hb10).
Qed.

(** The record literal looks at the first 12 characters only. *)
Lemma substring_firstn i j n (s : Js.str) :
  (j <= n)%nat -> Js.substring i j (firstn n s) = Js.substring i j s.
Proof.
  intros Hj. unfold Js.substring.
  rewrite skipn_firstn_comm, firstn_firstn. f_equal. lia.
Qed.

Lemma zombieDetails_of_prefix name (s : Js.str) :
  zombieDetails_of name (firstn 12 s) = zombieDetails_of name s.
Proof.
  unfold zombieDetails_of. rewrite !substring_firstn by lia. reflexivity.
Qed.

Lemma numeric_fields_name name name' (s : Js.str) :
  numeric_fields (zombieDetails_of name s) = numeric_fields (zombieDetails_of name' s).
Proof. reflexivity. Qed.

(** The two examples of section 8 of the specification. *)
Example generateZombie_1234567890123456 :
  fst (generateZombie (error:=unit) 0 "Rex" 1234567890123456 [])
  = {| headChoice := Js.Num 6; eyeChoice := Js.Num 2; shirtChoice := Js.Num 3;
       skinColorChoice := Js.Num 280; eyeColorChoice := Js.Num 324;
       clothesColorChoice := Js.Num 43;
       zombieName := "Rex"; zombieDescription := "A Level 1 CryptoZombie" |}.
Proof. vm_compute. reflexivity. Qed.

Example generateZombie_0 :
  fst (generateZombie (error:=unit) 0 "Rex" 0 [])
  = {| headChoice := Js.Num 1; eyeChoice := Js.Num 1; shirtChoice := Js.Num 1;
       skinColorChoice := Js.Num 0; eyeColorChoice := Js.Num 0;
       clothesColorChoice := Js.Num 0;
       zombieName := "Rex"; zombieDescription := "A Level 1 CryptoZombie" |}.
Proof. vm_compute. reflexivity. Qed.

(** The doubles behind the two exceptional values: [35 / 100 * 360] and
    [70 / 100 * 360] are the doubles just below 126 and 252. *)
Example double_35 :
  Js.fmul (Js.fdiv (Js.double_of_Z 35) (Js.double_of_Z 100)) (Js.double_of_Z 360)
  = S754_finite false 8866461766385663 (-46).
Proof. vm_compute. reflexivity. Qed.

Example double_70 :
  Js.fmul (Js.fdiv (Js.double_of_Z 70) (Js.double_of_Z 100)) (Js.double_of_Z 360)
  = S754_finite false 8866461766385663 (-45).
Proof. vm_compute. reflexivity. Qed.

(** C1, as the specification states it, fails where digits [6,8), [8,10)
    or [10,12) read 35 or 70: for [dna = 3500000000] (padded rendering
    [0000003500000000]) the source returns [skinColorChoice = 125], while
    floor(35 / 100 x 360) is 126. *)
Lemma generateZombie_differs_from_exact_floor :
  0 <= 3500000000
  /\ (length (Js.toString 3500000000) <= 16)%nat
  /\ skinColorChoice (fst (generateZombie (error:=unit) 0 "Rex" 3500000000 []))
     = Js.Num 125
  /\ skinColorChoice (Spec.deriveTraits "Rex" 3500000000) = Js.Num 126
  /\ fst (generateZombie (error:=unit) 0 "Rex" 3500000000 [])
     <> Spec.deriveTraits "Rex" 3500000000.
Proof.
  split; [lia|].
  split; [vm_compute; lia|].
  split; [vm_compute; reflexivity|].
  split; [vm_compute; reflexivity|].
  intros H. apply (f_equal skinColorChoice) in H. vm_compute in H. discriminate H.
Qed.

(** C1 (amended): for every non-negative [dna] of at most 16 decimal
    digits, every name and every id, [generateZombie] returns the record of
    the table of section 4.2 computed on the rendering of [dna] left-padded
    with ['0'] to 16 characters, where the three colour members are the
    binary64 evaluation of [floor((v / 100) * 360)]: equal to the exact
    floor except for [v = 35] and [v = 70], which give 125 and 251;
    [zombieName] is the name passed in and [zombieDescription] the constant
    ["A Level 1 CryptoZombie"]. *)
Theorem generateZombie_is_deriveTraits_binary64 :
  forall (id : Z) (name : string) (dna : Z) (console : list (console_entry error)),
    0 <= dna ->
    (length (Js.toString dna) <= 16)%nat ->
    fst (generateZombie id name dna console) = Spec.deriveTraits_binary64 name dna.
Proof.
  intros id name dna console Hdna _.
  rewrite generateZombie_digits by assumption.
  unfold Spec.deriveTraits_binary64. rewrite spec_traits_digits by assumption.
  reflexivity.
Qed.

(** The record of [generateZombie] as arithmetic on [dna]. *)
Lemma generateZombie_arithmetic id name dna (console : list (console_entry error)) :
  0 <= dna < 10 ^ 16 ->
  fst (generateZombie id name dna console)
  = {| headChoice := Js.Num ((dna / 10 ^ 14) mod 100 mod 7 + 1);
       eyeChoice := Js.Num ((dna / 10 ^ 12) mod 100 mod 11 + 1);
       shirtChoice := Js.Num ((dna / 10 ^ 10) mod 100 mod 6 + 1);
       skinColorChoice := Js.Num (Spec.degrees_binary64 ((dna / 10 ^ 8) mod 100));
       eyeColorChoice := Js.Num (Spec.degrees_binary64 ((dna / 10 ^ 6) mod 100));
       clothesColorChoice := Js.Num (Spec.degrees_binary64 ((dna / 10 ^ 4) mod 100));
       zombieName := name;
       zombieDescription := "A Level 1 CryptoZombie" |}.
Proof.
  intros Hdna. rewrite generateZombie_digits by lia. cbn [fst].
  unfold traits_of_digits.
  rewrite !padded_window_value by (assumption || lia).
  reflexivity.
Qed.

(** C2: for [dna] in [0, 10^16) the head, eye and shirt choices lie in
    [1,7], [1,11] and [1,6], and the three colour choices lie in [0,356],
    hence in [0,359]. *)
Theorem generateZombie_ranges :
  forall (id : Z) (name : string) (dna : Z) (console : list (console_entry error)),
    0 <= dna < 10 ^ 16 ->
    let d := fst (generateZombie id name dna console) in
    in_range 1 7 (headChoice d)
    /\ in_range 1 11 (eyeChoice d)
    /\ in_range 1 6 (shirtChoice d)
    /\ (forall c, In c [skinColorChoice d; eyeColorChoice d; clothesColorChoice d] ->
        in_range 0 356 c /\ in_range 0 359 c).
Proof.
  intros id name dna console Hdna. cbv zeta.
  rewrite generateZombie_digits by lia. cbn [fst].
  pose proof (padded_digits_length dna) as Hlen.
  destruct (traits_of_digits_ranges name (padded_digits dna)
              (padded_digits_are_digits dna) ltac:(lia))
    as (Hh & He & Hs & Hk & Hy & Hc).
  repeat split; try assumption;
    destruct H as [<-|[<-|[<-|[]]]];
    try assumption; eapply in_range_weaken; try eassumption; lia.
Qed.

(** C3: for [dna] in [0, 10^16), [generateZombie] returns a record whose
    six numeric members are integers, whatever the console held before;
    its only effect is the line it prints, and two calls with the same
    arguments return the same record. *)
Theorem generateZombie_returns_deterministically :
  forall (id : Z) (name : string) (dna : Z)
         (console1 console2 : list (console_entry error)),
    0 <= dna < 10 ^ 16 ->
    exists d,
      generateZombie id name dna console1 = (d, console1 ++ [LogGenerated d])
      /\ generateZombie id name dna console2 = (d, console2 ++ [LogGenerated d])
      /\ Forall is_integer (numeric_fields d)
      /\ zombieName d = name.
Proof.
  intros id name dna console1 console2 Hdna.
  exists (traits_of_digits Spec.degrees_binary64 name (padded_digits dna)).
  rewrite !generateZombie_digits by lia.
  repeat split.
  pose proof (padded_digits_length dna) as Hlen.
  destruct (traits_of_digits_ranges name (padded_digits dna)
              (padded_digits_are_digits dna) ltac:(lia))
    as (Hh & He & Hs & Hk & Hy & Hc).
  unfold numeric_fields.
  repeat constructor; eapply in_range_is_integer; eassumption.
Qed.

(** C4: the six numeric members are a function of [dna] alone, and of
    characters [0,12) of its padded rendering alone: for [dna1], [dna2] in
    [0, 10^16), whatever the ids, the names and the consoles, two calls
    with the same [dna] return the same six numbers, and so do two calls
    whose [dna] agree on characters [0,12), which is to say, differ in
    their four lowest digits only. *)
Theorem numeric_traits_depend_on_first_12_digits :
  forall (id1 id2 : Z) (name1 name2 : string) (dna1 dna2 : Z)
         (console1 console2 : list (console_entry error)),
    0 <= dna1 < 10 ^ 16 ->
    0 <= dna2 < 10 ^ 16 ->
    let traits id name dna console :=
      numeric_fields (fst (generateZombie id name dna console)) in
    let prefix dna := firstn 12 (Js.padStart 16 "0"%char (Js.toString dna)) in
    traits id1 name1 dna1 console1 = traits id2 name2 dna1 console2
    /\ (prefix dna1 = prefix dna2 ->
        traits id1 name1 dna1 console1 = traits id2 name2 dna2 console2)
    /\ (prefix dna1 = prefix dna2 <-> dna1 / 10 ^ 4 = dna2 / 10 ^ 4).
Proof.
  intros id1 id2 name1 name2 dna1 dna2 console1 console2 H1 H2. cbv zeta.
  split; [reflexivity|].
  split; [|apply first_12_digits_agree; assumption].
  intros Hprefix.
  unfold generateZombie. cbn [fst].
  rewrite <- (zombieDetails_of_prefix name1 (Js.padStart _ _ (Js.toString dna1))).
  rewrite <- (zombieDetails_of_prefix name2 (Js.padStart _ _ (Js.toString dna2))).
  rewrite Hprefix. reflexivity.
Qed.


End GenerateZombie.

(* ================================================================== *)
(** * Properties of the request/response operations *)
(* ================================================================== *)

Section RequestResponse.

Context `{C : Clients}.

Lemma skipn_app_exact {A} (l l' : list A) : skipn (length l) (l ++ l') = l'.
Proof. induction l; [reflexivity | assumption]. Qed.

(** Every run of [createRandomZombie], by the outcome of its primitives. *)
Lemma createRandomZombie_cases this name w :
  let w' := snd (createRandomZombie this name w) in
  let r := fst (createRandomZombie this name w) in
  match requestAddresses (w_node w) with
  | (Thrown e, n1) =>
      r = Thrown e /\ w_node w' = n1
      /\ calls_since w w' = [CallRequestAddresses]
      /\ w_console w' = w_console w ++ [ErrorCreating e]
  | (Returned accounts, n1) =>
      let params := creation_parameters this name accounts in
      match simulateContract params n1 with
      | (Thrown e, n2) =>
          r = Thrown e /\ w_node w' = n2
          /\ calls_since w w' = [CallRequestAddresses; CallSimulateContract params]
          /\ w_console w' = w_console w ++ [ErrorCreating e]
      | (Returned req, n2) =>
          match writeContract req n2 with
          | (Thrown e, n3) =>
              r = Thrown e /\ w_node w' = n3
              /\ calls_since w w'
                 = [CallRequestAddresses; CallSimulateContract params;
                    CallWriteContract req]
              /\ w_console w' = w_console w ++ [ErrorCreating e]
          | (Returned hash, n3) =>
              r = Returned hash /\ w_node w' = n3
              /\ calls_since w w'
                 = [CallRequestAddresses; CallSimulateContract params;
                    CallWriteContract req]
              /\ w_console w' = w_console w
          end
      end
  end.
Proof.
  unfold createRandomZombie, try_catch, bind, invoke, console_error, throw, ret,
    calls_since, creation_parameters.
  cbv zeta.
  destruct (requestAddresses (w_node w)) as [[accounts|e] n1]; cbn.
  2:{ rewrite skipn_app_exact. auto. }
  destruct (simulateContract _ n1) as [[req|e] n2]; cbn.
  2:{ rewrite <- app_assoc, skipn_app_exact. auto. }
  destruct (writeContract req n2) as [[hash|e] n3]; cbn;
    rewrite <- !app_assoc, skipn_app_exact; auto.
Qed.

(** Every run of [getZombie]. *)
Lemma getZombie_cases this zombieId w :
  let w' := snd (getZombie this zombieId w) in
  let r := fst (getZombie this zombieId w) in
  let params := read_parameters this zombieId in
  calls_since w w' = [CallReadContract params]
  /\ match readContract params (w_node w) with
     | (Thrown e, n1) =>
         r = Thrown e /\ w_node w' = n1
         /\ w_console w' = w_console w ++ [ErrorGetting e]
     | (Returned result, n1) =>
         r = Returned {| zr_name := fst result; zr_dna := snd result |}
         /\ w_node w' = n1 /\ w_console w' = w_console w
     end.
Proof.
  unfold getZombie, try_catch, bind, invoke, console_error, throw, ret,
    calls_since, read_parameters.
  cbv zeta.
  destruct (readContract _ (w_node w)) as [[result|e] n1]; cbn;
    rewrite skipn_app_exact; auto.
Qed.

(** C6: when the wallet has answered and the pre-flight simulation of the
    creation call rejects with [e], [createRandomZombie] fails with [e];
    the only primitives invoked are [requestAddresses] and
    [simulateContract], [writeContract] is not, and the node is left as
    the simulation left it. *)
Theorem createRandomZombie_simulation_rejects :
  forall (this : ZombieFactory) (name : string) (w : world)
         (accounts : list string) (n1 n2 : node) (e : error),
    requestAddresses (w_node w) = (Returned accounts, n1) ->
    simulateContract (creation_parameters this name accounts) n1 = (Thrown e, n2) ->
    exists w',
      createRandomZombie this name w = (Thrown e, w')
      /\ w_node w' = n2
      /\ calls_since w w'
         = [CallRequestAddresses;
            CallSimulateContract (creation_parameters this name accounts)]
      /\ invocations WriteContract (calls_since w w') = 0%nat.
Proof.
  intros this name w accounts n1 n2 e Hreq Hsim.
  pose proof (createRandomZombie_cases this name w) as Hcases.
  cbv zeta in Hcases. rewrite Hreq, Hsim in Hcases.
  destruct (createRandomZombie this name w) as [r w'].
  cbn [fst snd] in Hcases. destruct Hcases as (-> & Hn & Hc & _).
  exists w'. rewrite Hc. auto.
Qed.

(** C7: an error a collaborator primitive raises during
    [createRandomZombie] or [getZombie] is the error the operation fails
    with; the operation fails with no other error; and no primitive is
    invoked more than once in a call. *)
Theorem gateway_errors_propagate_unmodified :
  forall (this : ZombieFactory) (name : string) (zombieId : Z) (w : world),
    let created := createRandomZombie this name w in
    let got := getZombie this zombieId w in
    (forall e n1,
        requestAddresses (w_node w) = (Thrown e, n1) ->
        fst created = Thrown e)
    /\ (forall accounts n1 e n2,
          requestAddresses (w_node w) = (Returned accounts, n1) ->
          simulateContract (creation_parameters this name accounts) n1
          = (Thrown e, n2) ->
          fst created = Thrown e)
    /\ (forall accounts n1 req n2 e n3,
          requestAddresses (w_node w) = (Returned accounts, n1) ->
          simulateContract (creation_parameters this name accounts) n1
          = (Returned req, n2) ->
          writeContract req n2 = (Thrown e, n3) ->
          fst created = Thrown e)
    /\ (forall e n1,
          readContract (read_parameters this zombieId) (w_node w) = (Thrown e, n1) ->
          fst got = Thrown e)
    /\ (forall e,
          fst created = Thrown e ->
          (exists n1, requestAddresses (w_node w) = (Thrown e, n1))
          \/ (exists accounts n1 n2,
                requestAddresses (w_node w) = (Returned accounts, n1)
                /\ simulateContract (creation_parameters this name accounts) n1
                   = (Thrown e, n2))
          \/ (exists accounts n1 req n2 n3,
                requestAddresses (w_node w) = (Returned accounts, n1)
                /\ simulateContract (creation_parameters this name accounts) n1
                   = (Returned req, n2)
                /\ writeContract req n2 = (Thrown e, n3)))
    /\ (forall e,
          fst got = Thrown e ->
          exists n1,
            readContract (read_parameters this zombieId) (w_node w) = (Thrown e, n1))
    /\ (forall p, (invocations p (calls_since w (snd created)) <= 1)%nat)
    /\ (forall p, (invocations p (calls_since w (snd got)) <= 1)%nat).
Proof.
  intros this name zombieId w. cbv zeta.
  pose proof (createRandomZombie_cases this name w) as Hc.
  pose proof (getZombie_cases this zombieId w) as Hg.
  cbv zeta in Hc, Hg.
  split; [intros e n1 H1; rewrite H1 in Hc; tauto|].
  split; [intros accounts n1 e n2 H1 H2; rewrite H1, H2 in Hc; tauto|].
  split; [intros accounts n1 req n2 e n3 H1 H2 H3; rewrite H1, H2, H3 in Hc; tauto|].
  split; [intros e n1 H1; destruct Hg as [_ Hg]; rewrite H1 in Hg; tauto|].
  split.
  { intros e He.
    destruct (requestAddresses (w_node w)) as [[accounts|e1] n1] eqn:E1.
    2:{ left. exists n1. destruct Hc as (Hr & _). congruence. }
    destruct (simulateContract (creation_parameters this name accounts) n1)
      as [[req|e2] n2] eqn:E2.
    2:{ right. left. exists accounts, n1, n2. destruct Hc as (Hr & _).
        split; [reflexivity | congruence]. }
    destruct (writeContract req n2) as [[hash|e3] n3] eqn:E3.
    - destruct Hc as (Hr & _). congruence.
    - right. right. exists accounts, n1, req, n2, n3. destruct Hc as (Hr & _).
      repeat split; congruence. }
  split.
  { intros e He. destruct Hg as [_ Hg].
    destruct (readContract (read_parameters this zombieId) (w_node w))
      as [[result|e1] n1].
    - destruct Hg as (Hr & _). congruence.
    - exists n1. destruct Hg as (Hr & _). congruence. }
  split.
  - intros p.
    destruct (requestAddresses (w_node w)) as [[accounts|e] n1].
    2:{ destruct Hc as (_ & _ & -> & _). destruct p; cbn; lia. }
    destruct (simulateContract _ n1) as [[req|e] n2].
    2:{ destruct Hc as (_ & _ & -> & _). destruct p; cbn; lia. }
    destruct (writeContract req n2) as [[hash|e] n3];
      destruct Hc as (_ & _ & -> & _); destruct p; cbn; lia.
  - intros p. destruct Hg as [-> _]. destruct p; cbn; lia.
Qed.

End RequestResponse.

(** On a node where every primitive succeeds, the creation goes through
    the three primitives in order, with the first account and the name as
    given, and returns the hash; the read returns the record. *)
Example createRandomZombie_accepting :
  let params :=
    {| sim_address := "0xFAC7"; sim_functionName := "createRandomZombie";
       sim_args := ["Rex"%string]; sim_account := Some "0xA11CE"%string |} in
  @createRandomZombie _ _ ExampleClients.accepting ExampleClients.factory "Rex"
    ExampleClients.fresh
  = (Returned "0xBEEF"%string,
     @Build_world Example.values ExampleClients.platform 3%nat
       [@CallRequestAddresses Example.values ExampleClients.platform;
        @CallSimulateContract Example.values ExampleClients.platform params;
        @CallWriteContract Example.values ExampleClients.platform params]
       []).
Proof. reflexivity. Qed.

Example getZombie_accepting :
  fst (@getZombie _ _ ExampleClients.accepting ExampleClients.factory 0
         ExampleClients.fresh)
  = Returned {| zr_name := "Rex"; zr_dna := 1234567890123456 |}.
Proof. reflexivity. Qed.

(* ================================================================== *)
(** * Properties of the [onLogs] handler *)
(* ================================================================== *)

Section Handler.

Context `{V : Values}.

Lemma onLogs_nil callback hs : onLogs callback [] hs = (Returned tt, hs).
Proof. reflexivity. Qed.

Lemma onLogs_absent callback rest hs :
  onLogs callback ({| log_args := None |} :: rest) hs = onLogs callback rest hs.
Proof. reflexivity. Qed.

Lemma onLogs_present callback args rest hs :
  onLogs callback ({| log_args := Some args |} :: rest) hs
  = match callback (event_of_args args) (h_app hs) with
    | (Returned _, a) =>
        onLogs callback rest
          {| h_app := a; h_invoked := h_invoked hs ++ [event_of_args args] |}
    | (Thrown e, a) =>
        (Thrown e,
         {| h_app := a; h_invoked := h_invoked hs ++ [event_of_args args] |})
    end.
Proof.
  unfold onLogs. cbn [forEach log_args]. unfold bind, invoke_callback.
  fold (event_of_args args).
  destruct (callback (event_of_args args) (h_app hs)) as [[u|e] a]; reflexivity.
Qed.

(** With a callback that returns normally, a batch is handled by invoking
    the callback on the events of its logs that have arguments, in order. *)
Lemma onLogs_delivers_decoded callback :
  returns_normally callback ->
  forall batch hs,
    exists a',
      onLogs callback batch hs
      = (Returned tt,
         {| h_app := a'; h_invoked := h_invoked hs ++ decoded batch |}).
Proof.
  intros Hcb batch.
  induction batch as [|[[args|]] rest IH]; intros hs.
  - exists (h_app hs). rewrite onLogs_nil, List.app_nil_r. destruct hs; reflexivity.
  - rewrite onLogs_present.
    destruct (Hcb (event_of_args args) (h_app hs)) as [a Ha]. rewrite Ha.
    destruct (IH {| h_app := a; h_invoked := h_invoked hs ++ [event_of_args args] |})
      as [a' Ha'].
    exists a'. rewrite Ha'. cbn [h_invoked decoded flat_map log_args].
    rewrite <- app_assoc. reflexivity.
  - rewrite onLogs_absent. apply IH.
Qed.



(** C5, as the specification states it, fails: a log without arguments is
    passed over with no effect at all, and a log whose arguments lack
    members reaches the callback with these members [undefined]. *)
Lemma malformed_logs_pass_in_silence :
  onLogs Example.counting [Example.absent; Example.partial; Example.complete]
    Example.start
  = (Returned tt,
     @Build_hstate Example.values 2%nat
       [ {| ev_zombieId := Some 7; ev_name := None; ev_dna := None |};
         {| ev_zombieId := Some 8; ev_name := Some "Rex"%string;
            ev_dna := Some 1234567890123456 |} ])
  /\ ~ @decode_failures_surfaced Example.values.
Proof.
  split; [reflexivity|].
  intros Hsurfaced.
  apply (Hsurfaced Example.counting Example.absent Example.start eq_refl).
  exists Example.start. split; [reflexivity | left; reflexivity].
Qed.

(** C5 (amended): a log without arguments is skipped without a report, a
    log whose arguments lack members is delivered with these members
    [undefined], and neither ends the delivery: with a callback that
    returns normally, over any sequence of batches the handler invokes the
    callback on every log that has arguments, in order, in this batch and
    in the later ones. *)
Theorem malformed_logs_do_not_end_delivery :
  forall (callback : Callback),
    returns_normally callback ->
    forall (batches : list (list Log)) (hs : hstate),
      (exists a',
         handle_batches (onLogs callback) batches hs
         = (Returned tt,
            {| h_app := a';
               h_invoked := h_invoked hs ++ decoded (concat batches) |}))
      /\ (forall log, log_args log = None -> decoded [log] = [])
      /\ (forall log args,
            log_args log = Some args ->
            decoded [log]
            = [{| ev_zombieId := arg_zombieId args;
                  ev_name := arg_name args;
                  ev_dna := arg_dna args |}]).
Proof.
  intros callback Hcb batches hs.
  split.
  - revert hs. induction batches as [|batch rest IH]; intros hs.
    + exists (h_app hs). cbn. rewrite List.app_nil_r. destruct hs; reflexivity.
    + unfold handle_batches in *. cbn [forEach concat]. unfold bind at 1.
      destruct (onLogs_delivers_decoded callback Hcb batch hs) as [a Ha].
      rewrite Ha.
      destruct (IH {| h_app := a; h_invoked := h_invoked hs ++ decoded batch |})
        as [a' Ha'].
      exists a'. rewrite Ha'. cbn [h_invoked]. unfold decoded.
      rewrite flat_map_app, app_assoc. reflexivity.
  - split.
    + intros log Hlog. unfold decoded. cbn. rewrite Hlog. reflexivity.
    + intros log args Hlog. unfold decoded. cbn. rewrite Hlog. reflexivity.
Qed.

End Handler.

(* ================================================================== *)
(** * Properties of the unsubscribe handle *)
(* ================================================================== *)

Section Watch.

Context `{EC : EventClient}.

(** Whatever the client, [watchNewZombieEvents] hands the client's answer
    on as it is: the handle is the client's, and the only handler it has
    registered is [onLogs callback]. *)
Lemma watchNewZombieEvents_forwards this callback w :
  let answer :=
    watchContractEvent
      {| watch_address := contractAddress this;
         watch_eventName := "NewZombie";
         watch_onLogs := onLogs callback |} (w_node w) in
  fst (watchNewZombieEvents this callback w) = fst answer
  /\ w_node (snd (watchNewZombieEvents this callback w)) = snd answer
  /\ w_console (snd (watchNewZombieEvents this callback w)) = w_console w.
Proof.
  cbv zeta. unfold watchNewZombieEvents, invoke.
  destruct (watchContractEvent _ (w_node w)) as [r n]. cbn. auto.
Qed.

End Watch.

Section Subscription.

Context `{V : Values}.

#[local] Existing Instance Polling.platform.
#[local] Existing Instance Polling.client.

Import Polling.

Lemma stopped_is_active h subs : stopped h subs -> is_active h subs = false.
Proof. intros (s & Hs & Ha). unfold is_active. rewrite Hs. exact Ha. Qed.

Lemma active_is_active h subs : active h subs <-> is_active h subs = true.
Proof.
  unfold active, is_active. split.
  - intros (s & -> & Ha). exact Ha.
  - destruct (nth_error subs h) as [s|]; [|discriminate]. eauto.
Qed.

Lemma stop_same h subs s :
  nth_error subs h = Some s -> stopped h (stop h subs).
Proof.
  revert h. induction subs as [|s0 r IH]; intros [|h] Hs; try discriminate.
  - eexists. split; reflexivity.
  - cbn in *. apply IH. assumption.
Qed.

Lemma stop_other h h' subs :
  h' <> h -> nth_error (stop h subs) h' = nth_error subs h'.
Proof.
  revert h h'. induction subs as [|s0 r IH]; intros [|h] [|h'] Hne;
    cbn; try reflexivity; try contradiction.
  apply IH. congruence.
Qed.

Lemma stop_stopped h subs : stopped h subs -> stop h subs = subs.
Proof.
  revert h. induction subs as [|s0 r IH]; intros [|h] (s & Hs & Ha);
    try discriminate; cbn in *.
  - injection Hs as ->. destruct s as [f b]. cbn in *. subst. reflexivity.
  - f_equal. apply IH. exists s. auto.
Qed.

Lemma stopped_stop h h' subs : stopped h subs -> stopped h (stop h' subs).
Proof.
  intros Hst. destruct (Nat.eq_dec h h') as [->|Hne].
  - rewrite stop_stopped; assumption.
  - destruct Hst as (s & Hs & Ha). exists s. rewrite stop_other; auto.
Qed.

Lemma nth_error_registered {A} (l l' : list A) h x :
  nth_error l h = Some x -> nth_error (l ++ l') h = Some x.
Proof.
  intros Hx. rewrite nth_error_app1; [assumption|].
  apply nth_error_Some. congruence.
Qed.

(** A batch does not reach a subscription that is not active. *)
Lemma deliver_inactive batch subs :
  forall k a trace h,
    (h < k)%nat \/ is_active (h - k) subs = false ->
    invocations_of h (snd (deliver batch subs k a trace)) = invocations_of h trace.
Proof.
  induction subs as [|s r IH]; intros k a trace h Hh; [reflexivity|].
  cbn [deliver].
  assert (Hrest : (h < S k)%nat \/ is_active (h - S k) r = false).
  { destruct Hh as [Hlt|Hin]; [left; lia|].
    destruct (Nat.eq_dec h k) as [->|Hne]; [left; lia|].
    destruct (Nat.lt_ge_cases h k) as [Hlt|Hge]; [left; lia|].
    right. unfold is_active in *.
    replace (h - k)%nat with (S (h - S k)) in Hin by lia. exact Hin. }
  destruct (sub_active s) eqn:Hact.
  - destruct (sub_onLogs s batch _) as [r' hs'].
    rewrite IH by assumption.
    unfold invocations_of. rewrite filter_app, map_app.
    assert (Hk : h <> k).
    { intros ->. destruct Hh as [Hlt|Hin]; [lia|].
      unfold is_active in Hin. rewrite Nat.sub_diag in Hin. cbn in Hin. congruence. }
    assert (Hnone :
      filter (fun p : nat * NewZombieEvent => Nat.eqb (fst p) h)
        (map (fun ev => (k, ev)) (h_invoked hs')) = []).
    { induction (h_invoked hs') as [|ev evs IHe]; [reflexivity|].
      cbn. destruct (Nat.eqb_spec k h); [congruence | exact IHe]. }
    rewrite Hnone. cbn. rewrite List.app_nil_r. reflexivity.
  - apply IH. assumption.
Qed.

Lemma invocations_of_tagged h k (evs : list NewZombieEvent) :
  invocations_of h (map (fun ev => (k, ev)) evs) = if Nat.eqb k h then evs else [].
Proof.
  unfold invocations_of.
  induction evs as [|ev evs IH]; cbn; [destruct (Nat.eqb k h); reflexivity|].
  destruct (Nat.eqb k h) eqn:E; cbn; rewrite IH; reflexivity.
Qed.

Lemma invocations_of_app h t1 t2 :
  invocations_of h (t1 ++ t2) = invocations_of h t1 ++ invocations_of h t2.
Proof. unfold invocations_of. rewrite filter_app, map_app. reflexivity. Qed.

(** A batch reaches an active subscription: when its callback returns
    normally, the callback is invoked on the logs of the batch that have
    arguments. *)
Lemma deliver_active callback batch subs :
  returns_normally callback ->
  forall k a trace h,
    (k <= h)%nat ->
    nth_error subs (h - k)
    = Some {| sub_onLogs := onLogs callback; sub_active := true |} ->
    invocations_of h (snd (deliver batch subs k a trace))
    = invocations_of h trace ++ decoded batch.
Proof.
  intros Hcb. induction subs as [|s r IH]; intros k a trace h Hk Hs.
  - destruct (h - k)%nat; discriminate.
  - cbn [deliver]. destruct (Nat.eq_dec h k) as [->|Hne].
    + rewrite Nat.sub_diag in Hs. cbn in Hs. injection Hs as ->.
      cbn [sub_active sub_onLogs].
      destruct (onLogs_delivers_decoded callback Hcb batch
                  {| h_app := a; h_invoked := [] |}) as [a' Ha'].
      rewrite Ha'. cbn [h_app h_invoked app].
      rewrite deliver_inactive by (left; lia).
      rewrite invocations_of_app, invocations_of_tagged, Nat.eqb_refl.
      reflexivity.
    + replace (h - k)%nat with (S (h - S k)) in Hs by lia. cbn in Hs.
      destruct (sub_active s).
      * destruct (sub_onLogs s batch _) as [r' hs'].
        rewrite (IH (S k)) by (assumption || lia).
        rewrite invocations_of_app, invocations_of_tagged.
        destruct (Nat.eqb_spec k h); [congruence|].
        rewrite List.app_nil_r. reflexivity.
      * apply IH; [lia | assumption].
Qed.

Lemma emit_reaches_active_subscription this callback s h batch :
  returns_normally callback ->
  nth_error (w_node (s_world s)) h
  = Some {| sub_onLogs := onLogs callback; sub_active := true |} ->
  invocations_of h (s_trace (step this (Emit batch) s))
  = invocations_of h (s_trace s) ++ decoded batch.
Proof.
  intros Hcb Hs. cbn.
  pose proof (deliver_active callback batch (w_node (s_world s)) Hcb 0
                (s_app s) (s_trace s) h ltac:(lia)) as Hd.
  rewrite Nat.sub_0_r in Hd. specialize (Hd Hs).
  destruct (deliver batch (w_node (s_world s)) 0 (s_app s) (s_trace s)).
  exact Hd.
Qed.

(** Once stopped, a subscription stays stopped and receives nothing. *)
Lemma step_stopped this act s h :
  stopped h (w_node (s_world s)) ->
  stopped h (w_node (s_world (step this act s)))
  /\ invocations_of h (s_trace (step this act s)) = invocations_of h (s_trace s).
Proof.
  intros Hst. destruct act as [callback|h'|batch]; cbn.
  - split; [|reflexivity].
    destruct Hst as (x & Hx & Ha). exists x.
    split; [apply nth_error_registered; assumption | assumption].
  - split; [apply stopped_stop; assumption | reflexivity].
  - pose proof (deliver_inactive batch (w_node (s_world s)) 0 (s_app s)
                  (s_trace s) h) as Hd.
    destruct (deliver batch (w_node (s_world s)) 0 (s_app s) (s_trace s))
      as [a t] eqn:E.
    cbn in *. split; [assumption|].
    apply Hd. right. rewrite Nat.sub_0_r. apply stopped_is_active. assumption.
Qed.

Lemma run_stopped this acts : forall s h,
  stopped h (w_node (s_world s)) ->
  stopped h (w_node (s_world (run this acts s)))
  /\ invocations_of h (s_trace (run this acts s)) = invocations_of h (s_trace s).
Proof.
  induction acts as [|act acts IH]; intros s h Hst; [split; [assumption|reflexivity]|].
  cbn [run fold_left]. fold (run this acts (step this act s)).
  destruct (step_stopped this act s h Hst) as [Hst' Htr].
  destruct (IH _ h Hst') as [Hst'' Htr']. split; [assumption | congruence].
Qed.

(** Only the handle stops its subscription. *)
Lemma step_active this act s h :
  is_unwatch h act = false ->
  active h (w_node (s_world s)) ->
  active h (w_node (s_world (step this act s))).
Proof.
  intros Hact (x & Hx & Ha). destruct act as [callback|h'|batch]; cbn.
  - exists x. split; [apply nth_error_registered; assumption | assumption].
  - exists x. cbn in Hact. split; [|assumption].
    rewrite stop_other; [assumption|].
    intros ->. rewrite Nat.eqb_refl in Hact. discriminate.
  - destruct (deliver batch (w_node (s_world s)) 0 (s_app s) (s_trace s)).
    cbn. exists x. split; assumption.
Qed.

Lemma run_active this acts : forall s h,
  forallb (fun act => negb (is_unwatch h act)) acts = true ->
  active h (w_node (s_world s)) ->
  active h (w_node (s_world (run this acts s))).
Proof.
  induction acts as [|act acts IH]; intros s h Hacts Hst; [assumption|].
  cbn in Hacts. apply andb_true_iff in Hacts. destruct Hacts as [Hact Hacts].
  cbn [run fold_left]. fold (run this acts (step this act s)).
  apply IH; [assumption|]. apply step_active; [|assumption].
  destruct (is_unwatch h act); [discriminate | reflexivity].
Qed.

(** A registered subscription stays registered. *)
Lemma run_registered this acts : forall s h,
  (exists x, nth_error (w_node (s_world s)) h = Some x) ->
  exists x, nth_error (w_node (s_world (run this acts s))) h = Some x.
Proof.
  induction acts as [|act acts IH]; intros s h Hreg; [assumption|].
  cbn [run fold_left]. fold (run this acts (step this act s)).
  apply IH. destruct Hreg as [x Hx].
  destruct act as [cb|h'|batch]; cbn.
  - exists x. apply nth_error_registered. assumption.
  - destruct (Nat.eq_dec h h') as [<-|Hne].
    + destruct (stop_same h _ x Hx) as (y & Hy & _). exists y. assumption.
    + exists x. rewrite stop_other; auto.
  - destruct (deliver batch (w_node (s_world s)) 0 (s_app s) (s_trace s)).
    cbn. exists x. assumption.
Qed.

Lemma call_handle_stopped h (w : world) :
  stopped h (w_node w) -> call_handle h w = (Returned tt, w).
Proof.
  intros Hst. unfold call_handle. cbn.
  rewrite stop_stopped by assumption. destruct w; reflexivity.
Qed.

(** A run: subscribe, one batch, unsubscribe, one more batch, unsubscribe
    again. The callback sees the first batch only. *)
Example subscribe_emit_unwatch_emit :
  let s :=
    run (H:=Example.values) ExampleClients.factory
      [Watch Example.counting; Emit [Example.complete; Example.absent];
       Unwatch 0; Emit [Example.complete]; Unwatch 0]
      ExampleClients.idle in
  s_app s = 1%nat
  /\ invocations_of 0 (s_trace s)
     = [{| ev_zombieId := Some 8; ev_name := Some "Rex"%string;
           ev_dna := Some 1234567890123456 |}]
  /\ is_active (H:=Example.values) 0 (w_node (s_world s)) = false.
Proof. vm_compute. repeat split; reflexivity. Qed.

(** C8: [watchNewZombieEvents] registers the [onLogs] handler of the
    callback as an active subscription and returns its handle [h]. The
    subscription stays active as long as [h] is not invoked. Invoking [h]
    returns normally and stops it; from then on, whatever happens
    (further subscriptions, other handles, batches of logs, [h] again), it
    stays stopped, the callback is not invoked for it any more, and
    invoking [h] again returns normally and changes nothing. *)
Theorem unsubscribe_handle_stops_subscription :
  forall (this : ZombieFactory) (callback : Callback) (s0 : system)
         (before after : list action),
    exists h w1,
      watchNewZombieEvents this callback (s_world s0) = (Returned h, w1)
      /\ nth_error (w_node w1) h
         = Some {| sub_onLogs := onLogs callback; sub_active := true |}
      /\ let s1 := {| s_world := w1; s_app := s_app s0; s_trace := s_trace s0 |} in
         let s2 := run this before s1 in
         let s3 := step this (Unwatch h) s2 in
         let s4 := run this after s3 in
         (forallb (fun act => negb (is_unwatch h act)) before = true ->
          is_active h (w_node (s_world s2)) = true)
         /\ fst (call_handle h (s_world s2)) = Returned tt
         /\ is_active h (w_node (s_world s3)) = false
         /\ is_active h (w_node (s_world s4)) = false
         /\ invocations_of h (s_trace s4) = invocations_of h (s_trace s2)
         /\ call_handle h (s_world s4) = (Returned tt, s_world s4).
Proof.
  intros this callback s0 before after.
  exists (length (w_node (s_world s0))).
  eexists. split; [reflexivity|].
  cbn [w_node].
  assert (Hreg :
    nth_error
      (w_node (s_world s0)
       ++ [{| sub_onLogs := onLogs callback; sub_active := true |}])
      (length (w_node (s_world s0)))
    = Some {| sub_onLogs := onLogs callback; sub_active := true |}).
  { rewrite nth_error_app2, Nat.sub_diag by lia. reflexivity. }
  split; [exact Hreg|].
  cbv zeta.
  set (h := length (w_node (s_world s0))) in *.
  set (s1 := {| s_world := _; s_app := s_app s0; s_trace := s_trace s0 |}).
  set (s2 := run this before s1).
  assert (Hact1 : active h (w_node (s_world s1))) by (eexists; split; [exact Hreg | reflexivity]).
  assert (Hreg2 : exists x, nth_error (w_node (s_world s2)) h = Some x).
  { apply run_registered. eexists. exact Hreg. }
  destruct Hreg2 as [x Hx].
  assert (Hst3 : stopped h (w_node (s_world (step this (Unwatch h) s2))))
    by (cbn; eapply stop_same; exact Hx).
  destruct (run_stopped this after _ h Hst3) as [Hst4 Htr4].
  split; [intros Hbefore; apply active_is_active; apply run_active; assumption|].
  split; [reflexivity|].
  split; [apply stopped_is_active; assumption|].
  split; [apply stopped_is_active; assumption|].
  split; [rewrite Htr4; reflexivity|].
  apply call_handle_stopped. assumption.
Qed.

End Subscription.

Lemma generateZombie_is_deriveTraits_binary64_witness :
  0 <= 7035000000
  /\ (length (Js.toString 7035000000) <= 16)%nat
  /\ fst (generateZombie (error:=unit) 0 "Rex" 7035000000 [])
     = Spec.deriveTraits_binary64 "Rex" 7035000000.
Proof.
  split; [lia|]. split; [vm_compute; lia|].
  apply generateZombie_is_deriveTraits_binary64; [lia | vm_compute; lia].
Defined.

Lemma generateZombie_ranges_witness :
  0 <= 1234567890123456 < 10 ^ 16
  /\ in_range 1 7
       (headChoice (fst (generateZombie (error:=unit) 0 "Rex" 1234567890123456 []))).
Proof.
  split; [lia|].
  apply (generateZombie_ranges (error:=unit) 0 "Rex" 1234567890123456 []). lia.
Defined.

Lemma generateZombie_returns_deterministically_witness :
  0 <= 0 < 10 ^ 16
  /\ exists d,
       generateZombie (error:=unit) 1 "Rex" 0 [] = (d, [] ++ [LogGenerated d])
       /\ generateZombie (error:=unit) 1 "Rex" 0 [ErrorGetting tt]
          = (d, [ErrorGetting tt] ++ [LogGenerated d])
       /\ Forall is_integer (numeric_fields d)
       /\ zombieName d = "Rex"%string.
Proof.
  split; [lia|].
  apply (generateZombie_returns_deterministically (error:=unit)). lia.
Defined.

Lemma numeric_traits_depend_on_first_12_digits_witness :
  0 <= 1234567890120000 < 10 ^ 16
  /\ 0 <= 1234567890129999 < 10 ^ 16
  /\ numeric_fields (fst (generateZombie (error:=unit) 1 "Rex" 1234567890120000 []))
     = numeric_fields (fst (generateZombie (error:=unit) 2 "Max" 1234567890129999 [])).
Proof.
  split; [lia|]. split; [lia|].
  apply (numeric_traits_depend_on_first_12_digits (error:=unit) 1 2 "Rex" "Max"
           1234567890120000 1234567890129999 [] []); [lia | lia |].
  vm_compute. reflexivity.
Defined.


Lemma createRandomZombie_simulation_rejects_witness :
  @requestAddresses _ _ ExampleClients.rejecting 0%nat
  = (Returned ["0xA11CE"%string], 1%nat)
  /\ @simulateContract _ _ ExampleClients.rejecting
       (creation_parameters ExampleClients.factory "Rex" ["0xA11CE"%string]) 1%nat
     = (Thrown "SimulationReverted"%string, 2%nat)
  /\ exists w',
       @createRandomZombie _ _ ExampleClients.rejecting ExampleClients.factory
         "Rex" ExampleClients.fresh
       = (Thrown "SimulationReverted"%string, w')
       /\ w_node w' = 2%nat
       /\ calls_since ExampleClients.fresh w'
          = [CallRequestAddresses;
             CallSimulateContract
               (creation_parameters ExampleClients.factory "Rex" ["0xA11CE"%string])]
       /\ invocations WriteContract (calls_since ExampleClients.fresh w') = 0%nat.
Proof.
  split; [reflexivity|]. split; [reflexivity|].
  apply (@createRandomZombie_simulation_rejects _ _ ExampleClients.rejecting
           ExampleClients.factory "Rex" ExampleClients.fresh
           ["0xA11CE"%string] 1%nat 2%nat "SimulationReverted"%string);
    reflexivity.
Defined.

Lemma gateway_errors_propagate_unmodified_witness :
  fst (@createRandomZombie _ _ ExampleClients.rejecting ExampleClients.factory
         "Rex" ExampleClients.fresh)
  = Thrown "SimulationReverted"%string
  /\ fst (@getZombie _ _ ExampleClients.rejecting ExampleClients.factory 0
            ExampleClients.fresh)
     = Thrown "ReadFailed"%string.
Proof.
  destruct (@gateway_errors_propagate_unmodified _ _ ExampleClients.rejecting
              ExampleClients.factory "Rex" 0 ExampleClients.fresh)
    as (_ & Hsim & _ & Hread & _).
  split.
  - apply (Hsim ["0xA11CE"%string] 1%nat "SimulationReverted"%string 2%nat);
      reflexivity.
  - apply (Hread "ReadFailed"%string 1%nat). reflexivity.
Defined.


Lemma malformed_logs_do_not_end_delivery_witness :
  @returns_normally Example.values Example.counting
  /\ exists a',
       handle_batches (onLogs Example.counting)
         [[Example.absent; Example.partial]; [Example.complete]] Example.start
       = (Returned tt,
          @Build_hstate Example.values a'
            (h_invoked Example.start
             ++ decoded (concat [[Example.absent; Example.partial];
                                 [Example.complete]]))).
Proof.
  split; [intros ev a; exists (S a); reflexivity|].
  apply (@malformed_logs_do_not_end_delivery Example.values Example.counting).
  intros ev a. exists (S a). reflexivity.
Defined.

Lemma unsubscribe_handle_stops_subscription_witness :
  exists h w1,
    @watchNewZombieEvents Example.values Polling.platform Polling.client
      ExampleClients.factory Example.counting
      (Polling.s_world ExampleClients.idle)
    = (Returned h, w1)
    /\ nth_error (w_node w1) h
       = Some (@Polling.Build_subscription Example.values
                 (onLogs Example.counting) true).
Proof.
  destruct (@unsubscribe_handle_stops_subscription Example.values
              ExampleClients.factory Example.counting ExampleClients.idle
              [Polling.Emit [Example.complete]]
              [Polling.Emit [Example.complete]; Polling.Unwatch 0])
    as (h & w1 & Hwatch & Hreg & _).
  exists h, w1. split; assumption.
Defined.

(* ================================================================== *)
(** * Properties of the string methods *)
(* ================================================================== *)

Section Strings.

Lemma starts_with_spec k m :
  JsString.starts_with k m = true <-> exists b, m = k ++ b.
Proof.
  revert m. induction k as [|a k IH]; intros m; cbn.
  - split; [intros _; exists m; reflexivity | reflexivity].
  - destruct m as [|c m]; cbn.
    + split; [discriminate | intros [b Hb]; discriminate].
    + rewrite andb_true_iff, IH. split.
      * intros [Hac [b ->]]. apply Ascii.eqb_eq in Hac. subst. exists b. reflexivity.
      * intros [b Hb]. injection Hb as -> ->. split; [apply Ascii.eqb_refl | eauto].
Qed.

(** [m.includes(k)] holds exactly when [k] occurs in [m]. *)
Lemma includes_chars_spec m k :
  JsString.includes_chars m k = true <-> exists a b, m = a ++ k ++ b.
Proof.
  induction m as [|c m IH]; cbn.
  - rewrite orb_false_r, starts_with_spec. split.
    + intros [b Hb]. exists [], b. exact Hb.
    + intros (a & b & Hab). destruct a; [exists b; exact Hab | discriminate].
  - rewrite orb_true_iff, starts_with_spec, IH. split.
    + intros [[b Hb] | (a & b & ->)].
      * exists [], b. exact Hb.
      * exists (c :: a), b. reflexivity.
    + intros (a & b & Hab). destruct a as [|a0 a].
      * left. exists b. exact Hab.
      * right. injection Hab as -> ->. eauto.
Qed.

Lemma chars_app (a b : string) :
  JsString.chars (a ++ b)%string = JsString.chars a ++ JsString.chars b.
Proof. induction a as [|c a IH]; cbn; [reflexivity | f_equal; exact IH]. Qed.

Lemma of_chars_app (a b : list ascii) :
  JsString.of_chars (a ++ b) = (JsString.of_chars a ++ JsString.of_chars b)%string.
Proof. induction a as [|c a IH]; cbn; [reflexivity | f_equal; exact IH]. Qed.

Lemma of_chars_chars s : JsString.of_chars (JsString.chars s) = s.
Proof. apply string_of_list_ascii_of_string. Qed.

Lemma chars_of_chars l : JsString.chars (JsString.of_chars l) = l.
Proof. apply list_ascii_of_string_of_list_ascii. Qed.

Lemma includes_spec m k :
  JsString.includes m k = true <-> exists a b, m = (a ++ k ++ b)%string.
Proof.
  unfold JsString.includes. rewrite includes_chars_spec. split.
  - intros (a & b & Hab). exists (JsString.of_chars a), (JsString.of_chars b).
    rewrite <- (of_chars_chars m), Hab, !of_chars_app, of_chars_chars. reflexivity.
  - intros (a & b & ->). exists (JsString.chars a), (JsString.chars b).
    rewrite !chars_app. reflexivity.
Qed.

(** ** [trim] *)

Lemma trimStart_split l :
  exists pre,
    l = pre ++ JsString.trimStart_chars l /\ all_space pre
    /\ no_space_at_head (JsString.trimStart_chars l).
Proof.
  induction l as [|c l (pre & Hl & Hpre & Hhead)].
  - exists []. split; [reflexivity|]. split; [constructor | exact I].
  - cbn. destruct (JsString.is_space c) eqn:Hc.
    + exists (c :: pre). split; [cbn; f_equal; exact Hl|].
      split; [constructor; assumption | exact Hhead].
    + exists []. split; [reflexivity|]. split; [constructor | exact Hc].
Qed.

Lemma trimStart_all_space l : all_space l -> JsString.trimStart_chars l = [].
Proof.
  induction 1 as [|c l Hc _ IH]; [reflexivity|]. cbn. rewrite Hc. exact IH.
Qed.

Lemma all_space_rev l : all_space l -> all_space (List.rev l).
Proof. unfold all_space. intros Hl. apply Forall_rev. exact Hl. Qed.

(** [trim] takes white space off both ends and nothing else. *)
Lemma trim_chars_split l :
  exists pre post,
    l = pre ++ JsString.trim_chars l ++ post
    /\ all_space pre /\ all_space post
    /\ no_space_at_head (JsString.trim_chars l)
    /\ no_space_at_head (List.rev (JsString.trim_chars l)).
Proof.
  unfold JsString.trim_chars.
  destruct (trimStart_split l) as (pre & Hl & Hpre & Hhead).
  destruct (trimStart_split (List.rev (JsString.trimStart_chars l)))
    as (post & Hr & Hpost & Hlast).
  set (t1 := JsString.trimStart_chars l) in *.
  set (t2 := JsString.trimStart_chars (List.rev t1)) in *.
  assert (Ht1 : t1 = List.rev t2 ++ List.rev post).
  { rewrite <- rev_app_distr, <- Hr, rev_involutive. reflexivity. }
  exists pre, (List.rev post). repeat split.
  - rewrite <- Ht1. exact Hl.
  - exact Hpre.
  - apply all_space_rev. exact Hpost.
  - rewrite Ht1 in Hhead. destruct (List.rev t2); [exact I | exact Hhead].
  - rewrite rev_involutive. exact Hlast.
Qed.

Lemma trim_chars_nil l : JsString.trim_chars l = [] <-> all_space l.
Proof.
  split.
  - intros Hnil. destruct (trim_chars_split l) as (pre & post & Hl & Hpre & Hpost & _).
    rewrite Hnil in Hl. rewrite Hl. apply Forall_app. split; assumption.
  - intros Hall. unfold JsString.trim_chars.
    rewrite (trimStart_all_space l Hall). reflexivity.
Qed.

Lemma of_chars_nil l : JsString.of_chars l = EmptyString <-> l = [].
Proof. destruct l; cbn; split; intros H; try reflexivity; discriminate. Qed.

Lemma trim_empty s : JsString.trim s = EmptyString <-> all_space (JsString.chars s).
Proof. unfold JsString.trim. rewrite of_chars_nil. apply trim_chars_nil. Qed.

Lemma trim_split s :
  exists pre post,
    s = (JsString.of_chars pre ++ JsString.trim s ++ JsString.of_chars post)%string
    /\ all_space pre /\ all_space post
    /\ no_space_at_head (JsString.chars (JsString.trim s))
    /\ no_space_at_head (List.rev (JsString.chars (JsString.trim s))).
Proof.
  destruct (trim_chars_split (JsString.chars s))
    as (pre & post & Hs & Hpre & Hpost & Hhead & Hlast).
  exists pre, post. unfold JsString.trim. rewrite chars_of_chars.
  repeat split; try assumption.
  rewrite <- !of_chars_app, <- Hs, of_chars_chars. reflexivity.
Qed.

End Strings.

(* ================================================================== *)
(** * Properties of [ZombieErrorHandler] *)
(* ================================================================== *)

Section ErrorHandler.

Context {E : Type} {EO : ErrorObjects E}.

Lemma lower_char_idempotent c :
  JsString.lower_char (JsString.lower_char c) = JsString.lower_char c.
Proof.
  destruct c as [[] [] [] [] [] [] [] []]; reflexivity.
Qed.

(** An occurrence survives [toLowerCase] on both sides. *)
Lemma includes_toLowerCase m k :
  JsString.includes m k = true ->
  JsString.includes (JsString.toLowerCase m) (JsString.toLowerCase k) = true.
Proof.
  unfold JsString.includes, JsString.toLowerCase.
  rewrite !chars_of_chars, !includes_chars_spec.
  intros (a & b & ->). exists (map JsString.lower_char a), (map JsString.lower_char b).
  rewrite !map_app. reflexivity.
Qed.

(** X1: [handleContractError] throws a [TypeError] exactly on a value
    without a message; otherwise the first keyword found, in the order
    'User rejected', 'insufficient funds', 'execution reverted', 'network',
    decides the answer, whatever else the message holds: a message with
    'User rejected' is a cancellation, and only a message with none of the
    four keywords is an unexpected error. *)
Theorem handleContractError_first_keyword_decides :
  forall (e : E),
    (message e = None <->
     exists t, ZombieErrorHandler.handleContractError e = Thrown t)
    /\ (forall m,
          message e = Some m ->
          let has k := JsString.includes m k in
          let answer text :=
            ZombieErrorHandler.handleContractError e = Returned text in
          (answer "Transaction was cancelled by user"%string
           <-> has "User rejected"%string = true)
          /\ (answer "Insufficient funds for gas fees"%string
              <-> has "User rejected"%string = false
                  /\ has "insufficient funds"%string = true)
          /\ (answer "Transaction failed - contract rejected the operation"%string
              <-> has "User rejected"%string = false
                  /\ has "insufficient funds"%string = false
                  /\ has "execution reverted"%string = true)
          /\ (answer "Network error - please check your connection"%string
              <-> has "User rejected"%string = false
                  /\ has "insufficient funds"%string = false
                  /\ has "execution reverted"%string = false
                  /\ has "network"%string = true)
          /\ (answer "An unexpected error occurred"%string
              <-> has "User rejected"%string = false
                  /\ has "insufficient funds"%string = false
                  /\ has "execution reverted"%string = false
                  /\ has "network"%string = false)).
Proof.
  intros e. unfold ZombieErrorHandler.handleContractError. split.
  - destruct (message e) as [m|].
    + split; [discriminate | intros [t Ht]; discriminate].
    + split; [intros _; eexists; reflexivity | reflexivity].
  - intros m ->. cbv zeta.
    destruct (JsString.includes m "User rejected");
      destruct (JsString.includes m "insufficient funds");
      destruct (JsString.includes m "execution reverted");
      destruct (JsString.includes m "network");
      repeat split; intros; try reflexivity; try discriminate;
      repeat match goal with H : _ /\ _ |- _ => destruct H end;
      discriminate.
Qed.

(** X2: what [handleContractError] reports as a network error,
    [isRetryableError] takes for retryable. *)
Theorem network_errors_are_retryable :
  forall (e : E),
    ZombieErrorHandler.handleContractError e
    = Returned "Network error - please check your connection"%string ->
    ZombieErrorHandler.isRetryableError e = Returned true.
Proof.
  intros e.
  unfold ZombieErrorHandler.handleContractError, ZombieErrorHandler.isRetryableError.
  destruct (message e) as [m|]; [|discriminate].
  destruct (JsString.includes m "User rejected"); [discriminate|].
  destruct (JsString.includes m "insufficient funds"); [discriminate|].
  destruct (JsString.includes m "execution reverted"); [discriminate|].
  destruct (JsString.includes m "network") eqn:Hnet; [|discriminate].
  intros _. f_equal.
  apply includes_toLowerCase in Hnet.
  change (JsString.toLowerCase "network") with "network"%string in Hnet.
  unfold ZombieErrorHandler.retryableErrors. cbn [existsb].
  rewrite Hnet. reflexivity.
Qed.

End ErrorHandler.

Lemma handleContractError_first_keyword_decides_witness :
  ZombieErrorHandler.handleContractError (H:=ExampleErrors.objects)
    (Some "User rejected the request: insufficient funds"%string)
  = Returned "Transaction was cancelled by user"%string.
Proof.
  destruct (@handleContractError_first_keyword_decides _ ExampleErrors.objects
              (Some "User rejected the request: insufficient funds"%string))
    as [_ Hm].
  destruct (Hm "User rejected the request: insufficient funds"%string eq_refl)
    as [Hfirst _].
  apply Hfirst. vm_compute. reflexivity.
Defined.

Lemma network_errors_are_retryable_witness :
  ZombieErrorHandler.handleContractError (H:=ExampleErrors.objects)
    (Some "network unreachable"%string)
  = Returned "Network error - please check your connection"%string
  /\ ZombieErrorHandler.isRetryableError (H:=ExampleErrors.objects)
       (Some "network unreachable"%string)
     = Returned true.
Proof.
  split; [vm_compute; reflexivity|].
  apply (@network_errors_are_retryable _ ExampleErrors.objects).
  vm_compute. reflexivity.
Defined.

(** The converse fails on capitals: [isRetryableError] lowers the message
    first, [handleContractError] does not. *)
Example retryable_but_unexpected :
  ZombieErrorHandler.isRetryableError (H:=ExampleErrors.objects)
    (Some "Network request failed"%string) = Returned true
  /\ ZombieErrorHandler.handleContractError (H:=ExampleErrors.objects)
       (Some "Network request failed"%string)
     = Returned "An unexpected error occurred"%string.
Proof. vm_compute. split; reflexivity. Qed.

(* ================================================================== *)
(** * Properties of the click listener of [setupZombieFactoryUI] *)
(* ================================================================== *)

Section Click.

Context `{C : Clients}.

Lemma onClick_nonblank value (s : UI.state) :
  JsString.trim value <> EmptyString ->
  UI.onClick value s
  = match createRandomZombie UI.zombieFactory (JsString.trim value) (UI.ui_world s) with
    | (Returned txHash, w) =>
        (Returned tt,
         {| UI.ui_world := w;
            UI.ui_out := UI.ui_out s ++ [UI.LogTransactionSent txHash] |})
    | (Thrown e, w) =>
        (Returned tt,
         {| UI.ui_world := w;
            UI.ui_out := UI.ui_out s ++ [UI.ErrorFailedToCreate e] |})
    end.
Proof.
  intros Hname. unfold UI.onClick.
  destruct (JsString.trim value) as [|c name] eqn:Htrim; [contradiction|].
  unfold try_catch, bind, UI.on_world, UI.print.
  destruct (createRandomZombie UI.zombieFactory (String c name) (UI.ui_world s))
    as [[txHash|e] w]; reflexivity.
Qed.

(** X3: a click on an empty or blank input shows the alert and does
    nothing else: the world is untouched, so no primitive is invoked. *)
Theorem click_on_blank_input_only_alerts :
  forall (value : string) (s : UI.state),
    all_space (JsString.chars value) ->
    UI.onClick value s
    = (Returned tt,
       {| UI.ui_world := UI.ui_world s;
          UI.ui_out := UI.ui_out s ++ [UI.Alert "Please enter a zombie name"] |}).
Proof.
  intros value s Hblank. unfold UI.onClick.
  apply trim_empty in Hblank. rewrite Hblank. reflexivity.
Qed.

(** X4: the click listener never throws, and on an input that is not
    blank it creates the zombie under the input without the white space
    around it: this name is not empty, has no white space at either end,
    is what [simulateContract] receives once the wallet has answered, and
    the outcome of the creation is printed, not thrown. *)
Theorem click_submits_trimmed_name :
  forall (value : string) (s : UI.state),
    ~ all_space (JsString.chars value) ->
    let name := JsString.trim value in
    let created := createRandomZombie UI.zombieFactory name (UI.ui_world s) in
    name <> EmptyString
    /\ (exists pre post,
          value = (JsString.of_chars pre ++ name ++ JsString.of_chars post)%string
          /\ all_space pre /\ all_space post)
    /\ no_space_at_head (JsString.chars name)
    /\ no_space_at_head (List.rev (JsString.chars name))
    /\ fst (UI.onClick value s) = Returned tt
    /\ UI.ui_world (snd (UI.onClick value s)) = snd created
    /\ UI.ui_out (snd (UI.onClick value s))
       = UI.ui_out s
         ++ [match fst created with
             | Returned txHash => UI.LogTransactionSent txHash
             | Thrown e => UI.ErrorFailedToCreate e
             end]
    /\ (forall accounts n1,
          requestAddresses (w_node (UI.ui_world s)) = (Returned accounts, n1) ->
          nth_error (calls_since (UI.ui_world s) (snd created)) 1
          = Some (CallSimulateContract
                    (creation_parameters UI.zombieFactory name accounts))).
Proof.
  intros value s Hvalue. cbv zeta.
  assert (Hname : JsString.trim value <> EmptyString)
    by (rewrite trim_empty; exact Hvalue).
  destruct (trim_split value) as (pre & post & Hsplit & Hpre & Hpost & Hhead & Hlast).
  split; [exact Hname|].
  split; [exists pre, post; auto|].
  split; [exact Hhead|].
  split; [exact Hlast|].
  rewrite onClick_nonblank by exact Hname.
  pose proof (createRandomZombie_cases UI.zombieFactory (JsString.trim value)
                (UI.ui_world s)) as Hcases.
  cbv zeta in Hcases.
  destruct (createRandomZombie UI.zombieFactory (JsString.trim value) (UI.ui_world s))
    as [[txHash|e] w]; cbn [fst snd UI.ui_world UI.ui_out] in *;
    (split; [reflexivity|]); (split; [reflexivity|]); (split; [reflexivity|]);
    intros accounts n1 Hreq; rewrite Hreq in Hcases;
    destruct (simulateContract _ n1) as [[req|e2] n2];
    try destruct (writeContract req n2) as [[hash|e3] n3];
    destruct Hcases as (_ & _ & -> & _); reflexivity.
Qed.

End Click.

Lemma click_on_blank_input_only_alerts_witness :
  all_space (JsString.chars "   ")
  /\ @UI.onClick _ _ ExampleClients.accepting "   "
       {| UI.ui_world := ExampleClients.fresh; UI.ui_out := [] |}
     = (Returned tt,
        {| UI.ui_world := ExampleClients.fresh;
           UI.ui_out := [UI.Alert "Please enter a zombie name"] |}).
Proof.
  split; [repeat constructor|].
  apply (@click_on_blank_input_only_alerts _ _ ExampleClients.accepting "   "
           {| UI.ui_world := ExampleClients.fresh; UI.ui_out := [] |}).
  repeat constructor.
Defined.

Lemma click_submits_trimmed_name_witness :
  ~ all_space (JsString.chars "  Rex ")
  /\ JsString.trim "  Rex " <> EmptyString
  /\ fst (@UI.onClick _ _ ExampleClients.rejecting "  Rex "
            {| UI.ui_world := ExampleClients.fresh; UI.ui_out := [] |})
     = Returned tt.
Proof.
  assert (Hvalue : ~ all_space (JsString.chars "  Rex ")).
  { intros Hall. inversion Hall as [|? ? _ H1]; subst.
    inversion H1 as [|? ? _ H2]; subst. inversion H2 as [|? ? Hr _]; subst.
    discriminate Hr. }
  split; [exact Hvalue|].
  destruct (@click_submits_trimmed_name _ _ ExampleClients.rejecting "  Rex "
              {| UI.ui_world := ExampleClients.fresh; UI.ui_out := [] |} Hvalue)
    as (Hname & _ & _ & _ & Hreturned & _).
  split; assumption.
Defined.

(* ================================================================== *)
(** * Properties of [ZombieApp] *)
(* ================================================================== *)

Section ZombieAppFacts.

Context {E : Type} {EO : ErrorObjects E}.
Context {P : @Platform (ZombieApp.values E)}.
Context {C : @Clients (ZombieApp.values E) P} {EC : @EventClient (ZombieApp.values E) P}.

(** ** The map *)

Lemma key_eqb_eq a b : ZombieApp.key_eqb a b = true <-> a = b.
Proof.
  unfold ZombieApp.key_eqb. destruct (list_eq_dec Ascii.ascii_dec a b); split;
    intros; congruence.
Qed.

Lemma key_eqb_refl a : ZombieApp.key_eqb a a = true.
Proof. apply key_eqb_eq. reflexivity. Qed.

Lemma map_get_set_same {V} key (v : V) m :
  ZombieApp.map_get key (ZombieApp.map_set key v m) = Some v.
Proof.
  induction m as [|[k v0] r IH]; cbn.
  - rewrite key_eqb_refl. reflexivity.
  - destruct (ZombieApp.key_eqb k key) eqn:Hk; cbn.
    + rewrite key_eqb_refl. reflexivity.
    + rewrite Hk. exact IH.
Qed.

Lemma map_get_set_other {V} key key' (v : V) m :
  key <> key' ->
  ZombieApp.map_get key (ZombieApp.map_set key' v m) = ZombieApp.map_get key m.
Proof.
  intros Hne. induction m as [|[k v0] r IH]; cbn.
  - destruct (ZombieApp.key_eqb key' key) eqn:Hk; [|reflexivity].
    apply key_eqb_eq in Hk. congruence.
  - destruct (ZombieApp.key_eqb k key') eqn:Hk'; cbn.
    + apply key_eqb_eq in Hk'. subst k.
      destruct (ZombieApp.key_eqb key' key) eqn:Hk; [|reflexivity].
      apply key_eqb_eq in Hk. congruence.
    + destruct (ZombieApp.key_eqb k key); [reflexivity | exact IH].
Qed.

(** ** [getZombie] *)

(** Every run of [getZombie]. *)
Lemma getZombie_runs zombieFactory zombieId (s : ZombieApp.state) :
  let id := Js.toString zombieId in
  match ZombieApp.map_get id (ZombieApp.zombies (ZombieApp.st_memory s)) with
  | Some cached =>
      ZombieApp.getZombie zombieFactory zombieId s = (Returned (Some cached), s)
  | None =>
      match getZombie zombieFactory zombieId (ZombieApp.st_world s) with
      | (Returned zombie, w) =>
          let generated :=
            generateZombie zombieId (zr_name zombie) (zr_dna zombie) (w_console w) in
          let fullZombie :=
            ZombieApp.Loaded zombieId (zr_name zombie) (zr_dna zombie)
              (fst generated) (ZombieApp.now (ZombieApp.st_memory s)) in
          ZombieApp.getZombie zombieFactory zombieId s
          = (Returned (Some fullZombie),
             {| ZombieApp.st_world :=
                  {| w_node := w_node w; w_calls := w_calls w;
                     w_console := snd generated |};
                ZombieApp.st_memory :=
                  {| ZombieApp.zombies :=
                       ZombieApp.map_set id fullZombie
                         (ZombieApp.zombies (ZombieApp.st_memory s));
                     ZombieApp.out := ZombieApp.out (ZombieApp.st_memory s);
                     ZombieApp.now := ZombieApp.now (ZombieApp.st_memory s) |};
                ZombieApp.st_eventCleanup := ZombieApp.st_eventCleanup s;
                ZombieApp.st_invoked := ZombieApp.st_invoked s |})
      | (Thrown e, w) =>
          ZombieApp.getZombie zombieFactory zombieId s
          = (Returned None,
             {| ZombieApp.st_world := w;
                ZombieApp.st_memory :=
                  ZombieApp.show_in (ZombieApp.ErrorFailedToGet id e)
                    (ZombieApp.st_memory s);
                ZombieApp.st_eventCleanup := ZombieApp.st_eventCleanup s;
                ZombieApp.st_invoked := ZombieApp.st_invoked s |})
      end
  end.
Proof.
  cbv zeta. unfold ZombieApp.getZombie.
  destruct (ZombieApp.map_get (Js.toString zombieId)
              (ZombieApp.zombies (ZombieApp.st_memory s))) as [cached|];
    [reflexivity|].
  unfold try_catch, bind, ZombieApp.on_world, ZombieApp.generate, ZombieApp.show,
    ZombieApp.on_memory, ret.
  destruct (getZombie zombieFactory zombieId (ZombieApp.st_world s)) as [[zombie|e] w];
    cbn; reflexivity.
Qed.

Lemma skipn_all_exact {A} (l : list A) : skipn (length l) l = [].
Proof. induction l; [reflexivity | assumption]. Qed.

Lemma gateway_getZombie_calls zombieFactory zombieId (w : world) :
  w_calls (snd (getZombie zombieFactory zombieId w))
  = w_calls w ++ [CallReadContract (read_parameters zombieFactory zombieId)].
Proof.
  unfold getZombie, try_catch, bind, invoke, console_error, throw, ret, read_parameters.
  destruct (readContract _ (w_node w)) as [[result|e] n]; reflexivity.
Qed.

(** The calls of one [getZombie]. *)
Lemma getZombie_calls zombieFactory zombieId (s : ZombieApp.state) :
  w_calls (ZombieApp.st_world (snd (ZombieApp.getZombie zombieFactory zombieId s)))
  = w_calls (ZombieApp.st_world s)
    ++ map (fun id => CallReadContract (read_parameters zombieFactory id))
         (uncached (ZombieApp.zombies (ZombieApp.st_memory s)) [zombieId]).
Proof.
  pose proof (getZombie_runs zombieFactory zombieId s) as Hrun. cbv zeta in Hrun.
  unfold uncached, ZombieApp.map_has. cbn [filter].
  destruct (ZombieApp.map_get (Js.toString zombieId)
              (ZombieApp.zombies (ZombieApp.st_memory s))) as [cached|].
  - rewrite Hrun. cbn. rewrite List.app_nil_r. reflexivity.
  - pose proof (gateway_getZombie_calls zombieFactory zombieId (ZombieApp.st_world s))
      as Hcalls.
    destruct (getZombie zombieFactory zombieId (ZombieApp.st_world s)) as [[zombie|e] w];
      rewrite Hrun; cbn in *; exact Hcalls.
Qed.

Lemma getZombie_reads_only_on_a_miss_aux zombieFactory zombieId (s : ZombieApp.state) :
  let run := ZombieApp.getZombie zombieFactory zombieId s in
  (forall zombie,
      fst run = Returned (Some zombie) ->
      ZombieApp.map_get (Js.toString zombieId)
        (ZombieApp.zombies (ZombieApp.st_memory (snd run))) = Some zombie)
  /\ exists answer, fst run = Returned answer.
Proof.
  cbv zeta.
  pose proof (getZombie_runs zombieFactory zombieId s) as Hrun. cbv zeta in Hrun.
  destruct (ZombieApp.map_get (Js.toString zombieId)
              (ZombieApp.zombies (ZombieApp.st_memory s))) as [cached|] eqn:Hget.
  - rewrite Hrun. cbn [fst snd].
    split; [intros zombie [= <-]; first [exact Hget | reflexivity]|].
    eexists; reflexivity.
  - destruct (getZombie zombieFactory zombieId (ZombieApp.st_world s)) as [[zombie|e] w];
      rewrite Hrun; cbn [fst snd ZombieApp.st_memory ZombieApp.zombies].
    + split; [intros z [= <-]; apply map_get_set_same | eexists; reflexivity].
    + split; [discriminate | eexists; reflexivity].
Qed.

(** X5: [getZombie] never throws; it reads the chain once when the id is
    not in the map and not at all when it is; a zombie it returns is in
    the map afterwards, and after a failed read (the answer is [null]) the
    map is as it was, so that the next call reads again. *)
Theorem getZombie_reads_only_on_a_miss :
  forall (zombieFactory : ZombieFactory) (zombieId : Z) (s : ZombieApp.state),
    let run := ZombieApp.getZombie zombieFactory zombieId s in
    let id := Js.toString zombieId in
    let cache s := ZombieApp.zombies (ZombieApp.st_memory s) in
    (exists answer, fst run = Returned answer)
    /\ invocations ReadContract
         (calls_since (ZombieApp.st_world s) (ZombieApp.st_world (snd run)))
       = (if ZombieApp.map_has id (cache s) then 0 else 1)%nat
    /\ (forall zombie,
          fst run = Returned (Some zombie) ->
          ZombieApp.map_get id (cache (snd run)) = Some zombie)
    /\ (fst run = Returned None ->
        cache (snd run) = cache s /\ ZombieApp.map_has id (cache s) = false).
Proof.
  intros zombieFactory zombieId s. cbv zeta.
  pose proof (getZombie_runs zombieFactory zombieId s) as Hrun. cbv zeta in Hrun.
  pose proof (getZombie_calls zombieFactory zombieId s) as Hcalls.
  unfold calls_since. rewrite Hcalls, skipn_app_exact.
  unfold uncached, ZombieApp.map_has in *. cbn [filter].
  destruct (ZombieApp.map_get (Js.toString zombieId)
              (ZombieApp.zombies (ZombieApp.st_memory s))) as [cached|] eqn:Hget.
  - rewrite Hrun. cbn [fst snd]. try rewrite Hget.
    split; [eexists; reflexivity|]. split; [reflexivity|].
    split; [intros zombie [= <-]; first [exact Hget | reflexivity] | discriminate].
  - destruct (getZombie zombieFactory zombieId (ZombieApp.st_world s)) as [[zombie|e] w];
      rewrite Hrun; cbn [fst snd ZombieApp.st_memory ZombieApp.zombies].
    + split; [eexists; reflexivity|]. split; [reflexivity|].
      split; [intros z [= <-]; apply map_get_set_same | discriminate].
    + split; [eexists; reflexivity|]. split; [reflexivity|].
      split; [discriminate | intros _; split; reflexivity].
Qed.

(** A [getZombie] keeps what the map holds under another key, and under
    its own key once it is there. *)
Lemma getZombie_keeps_entries zombieFactory zombieId key zombie (s : ZombieApp.state) :
  ZombieApp.map_get key (ZombieApp.zombies (ZombieApp.st_memory s)) = Some zombie ->
  ZombieApp.map_get key
    (ZombieApp.zombies
       (ZombieApp.st_memory (snd (ZombieApp.getZombie zombieFactory zombieId s))))
  = Some zombie.
Proof.
  intros Hkey.
  pose proof (getZombie_runs zombieFactory zombieId s) as Hrun. cbv zeta in Hrun.
  destruct (ZombieApp.map_get (Js.toString zombieId)
              (ZombieApp.zombies (ZombieApp.st_memory s))) as [cached|] eqn:Hget.
  - rewrite Hrun. exact Hkey.
  - assert (Hne : key <> Js.toString zombieId) by congruence.
    destruct (getZombie zombieFactory zombieId (ZombieApp.st_world s)) as [[z|e] w];
      rewrite Hrun; cbn [snd ZombieApp.st_memory ZombieApp.zombies ZombieApp.show_in].
    + rewrite map_get_set_other by exact Hne. exact Hkey.
    + exact Hkey.
Qed.

(** X6: a zombie is read from the chain at most once: once [getZombie]
    has returned it, then after any further calls of [getZombie], for this
    id or for others, [getZombie] returns the same object for this id and
    changes nothing, so it invokes no primitive. *)
Theorem getZombie_answers_from_the_cache :
  forall (zombieFactory : ZombieFactory) (zombieId : Z) (zombie : ZombieApp.CachedZombie)
         (s s1 : ZombieApp.state) (ids : list Z),
    ZombieApp.getZombie zombieFactory zombieId s = (Returned (Some zombie), s1) ->
    let s2 := getZombies zombieFactory ids s1 in
    ZombieApp.getZombie zombieFactory zombieId s2 = (Returned (Some zombie), s2).
Proof.
  intros zombieFactory zombieId zombie s s1 ids Hfirst. cbv zeta.
  assert (Hcached :
    ZombieApp.map_get (Js.toString zombieId)
      (ZombieApp.zombies (ZombieApp.st_memory s1)) = Some zombie).
  { destruct (getZombie_reads_only_on_a_miss_aux zombieFactory zombieId s) as [Hin _].
    rewrite Hfirst in Hin. apply Hin. reflexivity. }
  clear Hfirst. revert s1 Hcached.
  induction ids as [|id ids IH]; intros s1 Hcached; cbn [getZombies fold_left].
  - pose proof (getZombie_runs zombieFactory zombieId s1) as Hrun. cbv zeta in Hrun.
    rewrite Hcached in Hrun. exact Hrun.
  - apply IH. apply getZombie_keeps_entries. exact Hcached.
Qed.

(** ** [loadExistingZombies] *)

(** A [getZombie] leaves the other keys of the map as they are. *)
Lemma getZombie_other_keys zombieFactory zombieId key (s : ZombieApp.state) :
  key <> Js.toString zombieId ->
  ZombieApp.map_get key
    (ZombieApp.zombies
       (ZombieApp.st_memory (snd (ZombieApp.getZombie zombieFactory zombieId s))))
  = ZombieApp.map_get key (ZombieApp.zombies (ZombieApp.st_memory s)).
Proof.
  intros Hne.
  pose proof (getZombie_runs zombieFactory zombieId s) as Hrun. cbv zeta in Hrun.
  destruct (ZombieApp.map_get (Js.toString zombieId)
              (ZombieApp.zombies (ZombieApp.st_memory s))) as [cached|].
  - rewrite Hrun. reflexivity.
  - destruct (getZombie zombieFactory zombieId (ZombieApp.st_world s)) as [[z|e] w];
      rewrite Hrun; cbn [snd ZombieApp.st_memory ZombieApp.zombies ZombieApp.show_in].
    + apply map_get_set_other. exact Hne.
    + reflexivity.
Qed.

(** One turn of the loop: the body never throws, so the loop goes on. *)
Lemma load_from_cons zombieFactory i rest (s : ZombieApp.state) :
  exists s1,
    ZombieApp.load_from zombieFactory (i :: rest) s
    = ZombieApp.load_from zombieFactory rest s1
    /\ ZombieApp.st_world s1
       = ZombieApp.st_world (snd (ZombieApp.getZombie zombieFactory i s))
    /\ ZombieApp.zombies (ZombieApp.st_memory s1)
       = ZombieApp.zombies
           (ZombieApp.st_memory (snd (ZombieApp.getZombie zombieFactory i s))).
Proof.
  cbn [ZombieApp.load_from]. unfold bind.
  destruct (getZombie_reads_only_on_a_miss_aux zombieFactory i s) as [_ [answer Hanswer]].
  destruct (ZombieApp.getZombie zombieFactory i s) as [r s0]. cbn [fst snd] in *.
  subst r. destruct answer as [z|].
  - eexists. split; [reflexivity|]. split; reflexivity.
  - exists s0. split; [reflexivity|]. split; reflexivity.
Qed.

Lemma load_from_runs zombieFactory ids :
  NoDup (map Js.toString ids) ->
  forall (s : ZombieApp.state),
    exists s',
      ZombieApp.load_from zombieFactory ids s = (Returned tt, s')
      /\ w_calls (ZombieApp.st_world s')
         = w_calls (ZombieApp.st_world s)
           ++ map (fun id => CallReadContract (read_parameters zombieFactory id))
                (uncached (ZombieApp.zombies (ZombieApp.st_memory s)) ids).
Proof.
  induction ids as [|i rest IH]; intros Hnodup s.
  - exists s. split; [reflexivity|]. cbn. rewrite List.app_nil_r. reflexivity.
  - cbn [map] in Hnodup. inversion Hnodup as [|? ? Hnotin Hrest]; subst.
    destruct (load_from_cons zombieFactory i rest s) as (s1 & Hstep & Hworld & Hmap).
    destruct (IH Hrest s1) as (s' & Hrun & Hcalls).
    exists s'. split; [rewrite Hstep; exact Hrun|].
    rewrite Hcalls, Hworld, Hmap, getZombie_calls, <- app_assoc, <- map_app.
    do 2 f_equal.
    assert (Hsplit :
      uncached (ZombieApp.zombies (ZombieApp.st_memory s)) (i :: rest)
      = uncached (ZombieApp.zombies (ZombieApp.st_memory s)) [i]
        ++ uncached (ZombieApp.zombies (ZombieApp.st_memory s)) rest).
    { unfold uncached. cbn [filter].
      destruct (negb (ZombieApp.map_has (Js.toString i)
                        (ZombieApp.zombies (ZombieApp.st_memory s)))); reflexivity. }
    rewrite Hsplit. f_equal. unfold uncached. apply filter_ext_in. intros j Hj.
    unfold ZombieApp.map_has. rewrite getZombie_other_keys; [reflexivity|].
    intros Heq. apply Hnotin. rewrite <- Heq. apply in_map. exact Hj.
Qed.

(** X7: [loadExistingZombies] never throws and does not stop at a zombie
    that cannot be read: it reads every id from 0 to 9 that is not in the
    map, in order, whatever the reads answer; the [break] of its [catch]
    is never reached. From an empty map this makes ten reads. *)
Theorem loadExistingZombies_asks_for_all_ten :
  forall (zombieFactory : ZombieFactory) (s : ZombieApp.state),
    exists s',
      ZombieApp.loadExistingZombies zombieFactory s = (Returned tt, s')
      /\ calls_since (ZombieApp.st_world s) (ZombieApp.st_world s')
         = map (fun id => CallReadContract (read_parameters zombieFactory id))
             (uncached (ZombieApp.zombies (ZombieApp.st_memory s))
                [0; 1; 2; 3; 4; 5; 6; 7; 8; 9])
      /\ (ZombieApp.zombies (ZombieApp.st_memory s) = [] ->
          invocations ReadContract
            (calls_since (ZombieApp.st_world s) (ZombieApp.st_world s'))
          = 10%nat).
Proof.
  intros zombieFactory s.
  unfold ZombieApp.loadExistingZombies, bind, ZombieApp.show, ZombieApp.on_memory.
  assert (Hnodup : NoDup (map Js.toString [0; 1; 2; 3; 4; 5; 6; 7; 8; 9])).
  { vm_compute. repeat constructor; cbn; intuition discriminate. }
  destruct (load_from_runs zombieFactory _ Hnodup
              {| ZombieApp.st_world := ZombieApp.st_world s;
                 ZombieApp.st_memory :=
                   ZombieApp.show_in ZombieApp.LogLoadingExisting (ZombieApp.st_memory s);
                 ZombieApp.st_eventCleanup := ZombieApp.st_eventCleanup s;
                 ZombieApp.st_invoked := ZombieApp.st_invoked s |})
    as (s' & Hrun & Hcalls).
  cbn [ZombieApp.st_world ZombieApp.st_memory ZombieApp.show_in ZombieApp.zombies] in Hcalls.
  exists s'. split; [exact Hrun|].
  unfold calls_since. rewrite Hcalls, skipn_app_exact.
  split; [reflexivity|].
  intros Hempty. rewrite Hempty. reflexivity.
Qed.

(** ** [createZombie] *)

(** X8: [createZombie] turns down a blank name and a name of more than 32
    code units before anything else happens: it answers [false], prints
    one error, and leaves the world untouched, so no primitive is
    invoked and no loading indicator is shown. *)
Theorem createZombie_turns_down_bad_names :
  forall (zombieFactory : ZombieFactory) (name : string) (s : ZombieApp.state),
    all_space (JsString.chars name) \/ (32 < JsString.length name)%nat ->
    exists text,
      ZombieApp.createZombie zombieFactory name s
      = (Returned false,
         {| ZombieApp.st_world := ZombieApp.st_world s;
            ZombieApp.st_memory :=
              ZombieApp.show_in (ZombieApp.ShowError text) (ZombieApp.st_memory s);
            ZombieApp.st_eventCleanup := ZombieApp.st_eventCleanup s;
            ZombieApp.st_invoked := ZombieApp.st_invoked s |}).
Proof.
  intros zombieFactory name s Hbad. unfold ZombieApp.createZombie.
  destruct (JsString.trim name) as [|c rest] eqn:Htrim.
  - eexists. reflexivity.
  - destruct Hbad as [Hblank | Hlong].
    + apply trim_empty in Hblank. congruence.
    + apply Nat.ltb_lt in Hlong. rewrite Hlong. eexists. reflexivity.
Qed.

(** Every run of [createZombie] on a name that passes the two checks. *)
Lemma createZombie_runs zombieFactory name (s : ZombieApp.state) :
  ~ all_space (JsString.chars name) ->
  (JsString.length name <= 32)%nat ->
  let shown entries :=
    {| ZombieApp.zombies := ZombieApp.zombies (ZombieApp.st_memory s);
       ZombieApp.out := ZombieApp.out (ZombieApp.st_memory s) ++ entries;
       ZombieApp.now := ZombieApp.now (ZombieApp.st_memory s) |} in
  let after w entries :=
    {| ZombieApp.st_world := w;
       ZombieApp.st_memory := shown entries;
       ZombieApp.st_eventCleanup := ZombieApp.st_eventCleanup s;
       ZombieApp.st_invoked := ZombieApp.st_invoked s |} in
  ZombieApp.createZombie zombieFactory name s
  = match createRandomZombie zombieFactory name (ZombieApp.st_world s) with
    | (Returned txHash, w) =>
        (Returned true,
         after w
           [ZombieApp.ShowLoading "Creating zombie...";
            ZombieApp.ShowSuccess ("Zombie creation started! Transaction: " ++ txHash);
            ZombieApp.LogCreationTransaction txHash;
            ZombieApp.HideLoading])
    | (Thrown e, w) =>
        match @message E EO e with
        | None =>
            (Thrown (@TypeError E EO "error.message is undefined"),
             after w
               [ZombieApp.ShowLoading "Creating zombie...";
                ZombieApp.ErrorFailedToCreate e;
                ZombieApp.HideLoading])
        | Some m =>
            (Returned false,
             after w
               [ZombieApp.ShowLoading "Creating zombie...";
                ZombieApp.ErrorFailedToCreate e;
                ZombieApp.ShowError
                  (if JsString.includes m "User rejected" then
                     "Transaction was cancelled"
                   else if JsString.includes m "insufficient funds" then
                     "Insufficient funds for transaction"
                   else "Failed to create zombie. Please try again.");
                ZombieApp.HideLoading])
        end
    end.
Proof.
  intros Hname Hlength. cbv zeta. unfold ZombieApp.createZombie.
  destruct (JsString.trim name) as [|c rest] eqn:Htrim.
  { exfalso. apply Hname. apply trim_empty. exact Htrim. }
  apply Nat.leb_le in Hlength. rewrite Nat.ltb_antisym, Hlength. cbn [negb].
  unfold try_finally, try_catch, bind, ZombieApp.show, ZombieApp.on_memory,
    ZombieApp.on_world, ret, throw.
  cbn [ZombieApp.st_world ZombieApp.st_memory ZombieApp.st_eventCleanup
       ZombieApp.st_invoked].
  destruct (createRandomZombie zombieFactory name (ZombieApp.st_world s))
    as [[txHash|e] w]; cbn.
  - unfold ZombieApp.show_in; cbn. rewrite <- !app_assoc. reflexivity.
  - destruct (@message E EO e) as [m|]; cbn.
    + destruct (JsString.includes m "User rejected");
        [|destruct (JsString.includes m "insufficient funds")];
        cbn; unfold ZombieApp.show_in; cbn; rewrite <- !app_assoc; reflexivity.
    + unfold ZombieApp.show_in; cbn. rewrite <- !app_assoc. reflexivity.
Qed.

(** X9: on a name that passes the two checks, [createZombie] hands the
    name to [createRandomZombie] as it is, white space around it
    included; it answers [true] exactly when the creation returned a hash
    and [false] when it failed with an error that has a message; when the
    error has no message it throws a [TypeError] itself. In every case the
    loading indicator is shown first and hidden last. *)
Theorem createZombie_reports_and_hides_loading :
  forall (zombieFactory : ZombieFactory) (name : string) (s : ZombieApp.state),
    ~ all_space (JsString.chars name) ->
    (JsString.length name <= 32)%nat ->
    let created := createRandomZombie zombieFactory name (ZombieApp.st_world s) in
    let run := ZombieApp.createZombie zombieFactory name s in
    ZombieApp.st_world (snd run) = snd created
    /\ (fst run = Returned true <-> exists txHash, fst created = Returned txHash)
    /\ (forall e,
          fst created = Thrown e ->
          match @message E EO e with
          | Some _ => fst run = Returned false
          | None => exists t, fst run = Thrown t
          end)
    /\ (exists middle,
          ZombieApp.out (ZombieApp.st_memory (snd run))
          = ZombieApp.out (ZombieApp.st_memory s)
            ++ [ZombieApp.ShowLoading "Creating zombie..."] ++ middle
            ++ [ZombieApp.HideLoading]).
Proof.
  intros zombieFactory name s Hname Hlength. cbv zeta.
  rewrite (createZombie_runs zombieFactory name s Hname Hlength).
  destruct (createRandomZombie zombieFactory name (ZombieApp.st_world s))
    as [[txHash|e] w]; cbn [fst snd].
  - split; [reflexivity|].
    split; [split; [intros _; exists txHash; reflexivity | reflexivity]|].
    split; [discriminate|].
    eexists [_; _]. reflexivity.
  - destruct (@message E EO e) as [m|] eqn:Hm; cbn [fst snd];
      (split; [reflexivity|]);
      (split; [split; [discriminate | intros [txHash Hhash]; discriminate]|]);
      (split; [intros e' [= <-]; rewrite Hm; first [reflexivity | eexists; reflexivity]|]).
    + eexists [_; _]. reflexivity.
    + eexists [_]. reflexivity.
Qed.

(** ** [destroy] *)

Lemma destroy_runs (s : ZombieApp.state) :
  let cleared w :=
    {| ZombieApp.st_world := w;
       ZombieApp.st_memory :=
         ZombieApp.show_in ZombieApp.LogCleanedUp
           {| ZombieApp.zombies := [];
              ZombieApp.out := ZombieApp.out (ZombieApp.st_memory s);
              ZombieApp.now := ZombieApp.now (ZombieApp.st_memory s) |};
       ZombieApp.st_eventCleanup := None;
       ZombieApp.st_invoked :=
         ZombieApp.st_invoked s
         ++ match ZombieApp.st_eventCleanup s with
            | Some h => [h]
            | None => []
            end |} in
  match ZombieApp.st_eventCleanup s with
  | None => ZombieApp.destroy s = (Returned tt, cleared (ZombieApp.st_world s))
  | Some h =>
      match call_handle h (ZombieApp.st_world s) with
      | (Returned _, w) => ZombieApp.destroy s = (Returned tt, cleared w)
      | (Thrown e, w) =>
          ZombieApp.destroy s
          = (Thrown e,
             {| ZombieApp.st_world := w;
                ZombieApp.st_memory := ZombieApp.st_memory s;
                ZombieApp.st_eventCleanup := Some h;
                ZombieApp.st_invoked := ZombieApp.st_invoked s ++ [h] |})
      end
  end.
Proof.
  cbv zeta. unfold ZombieApp.destroy, bind, ZombieApp.invoke_cleanup, ZombieApp.show,
    ZombieApp.on_memory.
  destruct s as [w mem cleanup invoked]. cbn.
  destruct cleanup as [h|]; cbn.
  - destruct (call_handle h w) as [[u|e] w']; cbn; reflexivity.
  - rewrite List.app_nil_r. reflexivity.
Qed.

(** X10: a [destroy] that returns has invoked the unsubscribe handle of
    the object once, if it had one, has cleared the field and emptied the
    map; however often [destroy] is called after that, it returns, invokes
    no handle and leaves the world as it is. *)
Theorem destroy_invokes_the_handle_once :
  forall (s s1 : ZombieApp.state) (n : nat),
    ZombieApp.destroy s = (Returned tt, s1) ->
    ZombieApp.st_eventCleanup s1 = None
    /\ ZombieApp.zombies (ZombieApp.st_memory s1) = []
    /\ ZombieApp.st_invoked s1
       = ZombieApp.st_invoked s
         ++ match ZombieApp.st_eventCleanup s with
            | Some h => [h]
            | None => []
            end
    /\ exists s2,
         destroys n s1 = (Returned tt, s2)
         /\ ZombieApp.st_invoked s2 = ZombieApp.st_invoked s1
         /\ ZombieApp.st_world s2 = ZombieApp.st_world s1
         /\ ZombieApp.st_eventCleanup s2 = None.
Proof.
  intros s s1 n Hfirst.
  pose proof (destroy_runs s) as Hrun. cbv zeta in Hrun.
  assert (Hs1 :
    ZombieApp.st_eventCleanup s1 = None
    /\ ZombieApp.zombies (ZombieApp.st_memory s1) = []
    /\ ZombieApp.st_invoked s1
       = ZombieApp.st_invoked s
         ++ match ZombieApp.st_eventCleanup s with
            | Some h => [h]
            | None => []
            end).
  { destruct (ZombieApp.st_eventCleanup s) as [h|].
    - destruct (call_handle h (ZombieApp.st_world s)) as [[u|e] w];
        rewrite Hrun in Hfirst; [|discriminate].
      injection Hfirst as <-. repeat split.
    - rewrite Hrun in Hfirst. injection Hfirst as <-. repeat split. }
  destruct Hs1 as (Hfield & Hmap & Hinvoked).
  repeat (split; [assumption|]).
  clear Hfirst Hrun Hmap Hinvoked s. revert s1 Hfield.
  induction n as [|n IH]; intros s1 Hfield.
  - exists s1. repeat split. exact Hfield.
  - unfold destroys. cbn [repeat forEach]. unfold bind at 1.
    pose proof (destroy_runs s1) as Hrun. cbv zeta in Hrun.
    rewrite Hfield in Hrun. rewrite Hrun.
    match goal with |- context [forEach _ _ ?s] => destruct (IH s eq_refl)
      as (s2 & Hrest & Hinv & Hworld & Hnone) end.
    exists s2. unfold destroys in Hrest. rewrite Hrest.
    cbn in Hinv, Hworld. rewrite List.app_nil_r in Hinv. auto.
Qed.

(** ** The event callback *)

(** X11: the callback of [startEventListening] returns normally exactly
    on the events that have both [zombieId] and [dna]; it then holds the
    zombie of the event in the map under the rendering of its id, with the
    six numbers [generateZombie] derives from the [dna], and [getZombie]
    for this id answers with that zombie without touching anything, so
    without a read. On any other event it throws and the map stays as it
    was. *)
Theorem callback_caches_complete_events :
  forall (zombieFactory : ZombieFactory) (event : NewZombieEvent) (mem : ZombieApp.Memory E),
    let run := ZombieApp.callback event mem in
    match ev_zombieId event, ev_dna event with
    | Some id, Some dna =>
        let zombie :=
          ZombieApp.Created id (ev_name event) (Some dna)
            {| u_numbers :=
                 numeric_fields (fst (generateZombie (error:=E) id "" dna []));
               u_zombieName := ev_name event;
               u_zombieDescription := "A Level 1 CryptoZombie" |}
            (ZombieApp.now mem) in
        fst run = Returned tt
        /\ ZombieApp.map_get (Js.toString id) (ZombieApp.zombies (snd run))
           = Some zombie
        /\ forall (s : ZombieApp.state),
             ZombieApp.st_memory s = snd run ->
             ZombieApp.getZombie zombieFactory id s = (Returned (Some zombie), s)
    | _, _ =>
        (exists t, fst run = Thrown t)
        /\ ZombieApp.zombies (snd run) = ZombieApp.zombies mem
    end.
Proof.
  intros zombieFactory event mem. cbv zeta.
  unfold ZombieApp.callback, generateZombieUnchecked.
  destruct (ev_zombieId event) as [id|]; destruct (ev_dna event) as [dna|];
    cbn [fst snd ZombieApp.zombies ZombieApp.show_in].
  - split; [reflexivity|].
    split; [apply map_get_set_same|].
    intros s Hs.
    pose proof (getZombie_runs zombieFactory id s) as Hrun. cbv zeta in Hrun.
    rewrite Hs in Hrun. cbn [ZombieApp.zombies ZombieApp.show_in] in Hrun.
    rewrite map_get_set_same in Hrun. exact Hrun.
  - split; [eexists; reflexivity | reflexivity].
  - split; [eexists; reflexivity | reflexivity].
  - split; [eexists; reflexivity | reflexivity].
Qed.

(** ** [searchZombies] *)

Lemma includes_empty m : JsString.includes m EmptyString = true.
Proof. unfold JsString.includes. destruct (JsString.chars m); reflexivity. Qed.

Lemma filter_throwing_spec {A} (p : A -> outcome E bool) (l : list A) :
  match ZombieApp.filter_throwing p l with
  | Thrown _ => Exists (fun x => exists t, p x = Thrown t) l
  | Returned kept =>
      Forall (fun x => exists keep, p x = Returned keep) l
      /\ (Forall (fun x => p x = Returned true) l -> kept = l)
  end.
Proof.
  induction l as [|x r IH]; cbn.
  - split; [constructor | reflexivity].
  - destruct (p x) as [keep|t] eqn:Hx.
    + destruct (ZombieApp.filter_throwing p r) as [kept|t].
      * destruct IH as [Hall Hsame]. split.
        -- constructor; [eexists; exact Hx | exact Hall].
        -- intros Htrue. inversion Htrue as [|? ? Hx' Hr]; subst.
           rewrite Hx in Hx'. injection Hx' as ->. f_equal. apply Hsame. exact Hr.
      * apply Exists_cons_tl. exact IH.
    + apply Exists_cons_hd. eexists. exact Hx.
Qed.

(** X12: [searchZombies] throws, whatever the query, exactly when the
    map holds a zombie without a name (one cached from an event whose
    [name] was [undefined]); when every zombie has a name, the empty query
    returns all of them, in the order of the map. *)
Theorem searchZombies_needs_every_name :
  forall (query : string) (s : ZombieApp.state),
    ((exists t, ZombieApp.searchZombies query s = Thrown t)
     <-> Exists (fun zombie => ZombieApp.name_of zombie = None)
           (ZombieApp.getAllZombies s))
    /\ (Forall (fun zombie => ZombieApp.name_of zombie <> None)
          (ZombieApp.getAllZombies s) ->
        ZombieApp.searchZombies EmptyString s
        = Returned (ZombieApp.getAllZombies s)).
Proof.
  intros query s. unfold ZombieApp.searchZombies. split.
  - match goal with |- context [ZombieApp.filter_throwing ?p ?l] =>
      pose proof (filter_throwing_spec p l) as Hspec;
      destruct (ZombieApp.filter_throwing p l) as [kept|t] end.
    + destruct Hspec as [Hall _]. split.
      * intros [t Ht]. discriminate.
      * intros Hex. exfalso. apply Exists_exists in Hex.
        destruct Hex as (zombie & Hin & Hnone).
        rewrite Forall_forall in Hall. destruct (Hall zombie Hin) as [keep Hkeep].
        rewrite Hnone in Hkeep. discriminate.
    + split; [|intros _; eexists; reflexivity].
      intros _. apply Exists_exists in Hspec. destruct Hspec as (zombie & Hin & t' & Ht).
      apply Exists_exists. exists zombie. split; [exact Hin|].
      destruct (ZombieApp.name_of zombie); [discriminate | reflexivity].
  - intros Hnames.
    match goal with |- context [ZombieApp.filter_throwing ?p ?l] =>
      pose proof (filter_throwing_spec p l) as Hspec;
      destruct (ZombieApp.filter_throwing p l) as [kept|t] end.
    + destruct Hspec as [_ Hsame]. f_equal. apply Hsame.
      rewrite Forall_forall in *. intros zombie Hin.
      specialize (Hnames zombie Hin).
      destruct (ZombieApp.name_of zombie) as [name|]; [|congruence].
      change (JsString.toLowerCase EmptyString) with EmptyString.
      rewrite includes_empty. reflexivity.
    + exfalso. apply Exists_exists in Hspec. destruct Hspec as (zombie & Hin & t' & Ht).
      rewrite Forall_forall in Hnames. specialize (Hnames zombie Hin).
      destruct (ZombieApp.name_of zombie); [discriminate | congruence].
Qed.

(** ** [initialize] *)

Lemma getZombie_keeps_subscription zombieFactory zombieId (s : ZombieApp.state) :
  let s' := snd (ZombieApp.getZombie zombieFactory zombieId s) in
  ZombieApp.st_eventCleanup s' = ZombieApp.st_eventCleanup s
  /\ ZombieApp.st_invoked s' = ZombieApp.st_invoked s.
Proof.
  cbv zeta.
  pose proof (getZombie_runs zombieFactory zombieId s) as Hrun. cbv zeta in Hrun.
  destruct (ZombieApp.map_get (Js.toString zombieId)
              (ZombieApp.zombies (ZombieApp.st_memory s))) as [cached|].
  - rewrite Hrun. split; reflexivity.
  - destruct (getZombie zombieFactory zombieId (ZombieApp.st_world s)) as [[zombie|e] w];
      rewrite Hrun; split; reflexivity.
Qed.

Lemma load_from_keeps_subscription zombieFactory ids :
  forall (s : ZombieApp.state),
    let s' := snd (ZombieApp.load_from zombieFactory ids s) in
    ZombieApp.st_eventCleanup s' = ZombieApp.st_eventCleanup s
    /\ ZombieApp.st_invoked s' = ZombieApp.st_invoked s.
Proof.
  cbv zeta. induction ids as [|i rest IH]; intros s.
  - split; reflexivity.
  - cbn [ZombieApp.load_from]. unfold bind.
    destruct (getZombie_keeps_subscription zombieFactory i s) as [Hfield Hinvoked].
    destruct (ZombieApp.getZombie zombieFactory i s) as [[[zombie|]|e] s0];
      cbn [snd] in Hfield, Hinvoked.
    + unfold ZombieApp.show, ZombieApp.on_memory.
      match goal with |- context [ZombieApp.load_from _ _ ?s1] =>
        destruct (IH s1) as [IHfield IHinvoked] end.
      cbn [ZombieApp.st_eventCleanup ZombieApp.st_invoked] in IHfield, IHinvoked.
      rewrite IHfield, IHinvoked. split; assumption.
    + unfold ret. destruct (IH s0) as [IHfield IHinvoked].
      rewrite IHfield, IHinvoked. split; assumption.
    + cbn [snd]. split; assumption.
Qed.

(** Every run of [initialize]. *)
Lemma initialize_runs zombieFactory (s : ZombieApp.state) :
  let run := ZombieApp.initialize zombieFactory s in
  let watch := CallWatchContractEvent (contractAddress zombieFactory) "NewZombie" in
  ZombieApp.st_invoked (snd run) = ZombieApp.st_invoked s
  /\ match watchNewZombieEvents zombieFactory ZombieApp.callback
             (ZombieApp.st_world s) with
     | (Returned unwatch, _) =>
         fst run = Returned tt
         /\ ZombieApp.st_eventCleanup (snd run) = Some unwatch
         /\ w_calls (ZombieApp.st_world (snd run))
            = w_calls (ZombieApp.st_world s)
              ++ watch
                 :: map (fun id => CallReadContract (read_parameters zombieFactory id))
                      (uncached (ZombieApp.zombies (ZombieApp.st_memory s))
                         [0; 1; 2; 3; 4; 5; 6; 7; 8; 9])
     | (Thrown e, _) =>
         fst run = Thrown e
         /\ ZombieApp.st_eventCleanup (snd run) = ZombieApp.st_eventCleanup s
         /\ w_calls (ZombieApp.st_world (snd run))
            = w_calls (ZombieApp.st_world s) ++ [watch]
     end.
Proof.
  cbv zeta.
  assert (Hcalls : w_calls (snd (watchNewZombieEvents zombieFactory ZombieApp.callback
                                   (ZombieApp.st_world s)))
                   = w_calls (ZombieApp.st_world s)
                     ++ [CallWatchContractEvent (contractAddress zombieFactory)
                           "NewZombie"]).
  { unfold watchNewZombieEvents, invoke.
    destruct (watchContractEvent _ (w_node (ZombieApp.st_world s))) as [r n].
    reflexivity. }
  unfold ZombieApp.initialize, ZombieApp.startEventListening,
    ZombieApp.loadExistingZombies, bind, ZombieApp.show, ZombieApp.on_memory,
    ZombieApp.on_world.
  cbn [ZombieApp.st_world ZombieApp.st_memory ZombieApp.st_eventCleanup
       ZombieApp.st_invoked].
  destruct (watchNewZombieEvents zombieFactory ZombieApp.callback
              (ZombieApp.st_world s)) as [[unwatch|e] w1]; cbn [snd] in Hcalls.
  - cbn [ZombieApp.st_world ZombieApp.st_memory ZombieApp.st_eventCleanup
         ZombieApp.st_invoked].
    assert (Hnodup : NoDup (map Js.toString [0; 1; 2; 3; 4; 5; 6; 7; 8; 9])).
    { vm_compute. repeat constructor; cbn; intuition discriminate. }
    match goal with |- context [ZombieApp.load_from _ _ ?s1] =>
      destruct (load_from_runs zombieFactory _ Hnodup s1) as (s' & Hrun & Hreads);
      destruct (load_from_keeps_subscription zombieFactory
                  [0; 1; 2; 3; 4; 5; 6; 7; 8; 9] s1) as [Hfield Hinvoked] end.
    rewrite Hrun in Hfield, Hinvoked |- *.
    cbn [fst snd ZombieApp.st_world ZombieApp.st_memory ZombieApp.st_eventCleanup
         ZombieApp.st_invoked ZombieApp.show_in ZombieApp.zombies]
      in Hfield, Hinvoked, Hreads |- *.
    split; [exact Hinvoked|]. split; [reflexivity|]. split; [exact Hfield|].
    rewrite Hreads, Hcalls, <- app_assoc. reflexivity.
  - cbn [fst snd ZombieApp.st_world ZombieApp.st_eventCleanup ZombieApp.st_invoked].
    split; [reflexivity|]. split; [reflexivity|]. split; [reflexivity | exact Hcalls].
Qed.

(** X19: [initialize] subscribes before it loads: its first call is
    [watchContractEvent] for the event NewZombie at the address of the
    factory; when this throws, [initialize] throws the same value, has
    made no other call and the field [eventCleanup] is as it was;
    otherwise [initialize] returns, the field holds the handle
    [watchContractEvent] answered, and the reads of the ids from 0 to 9
    that are not in the map follow, in order. It invokes no handle. *)
Theorem initialize_subscribes_then_loads :
  forall (zombieFactory : ZombieFactory) (s : ZombieApp.state),
    let watched :=
      watchNewZombieEvents zombieFactory ZombieApp.callback (ZombieApp.st_world s) in
    let run := ZombieApp.initialize zombieFactory s in
    let calls := calls_since (ZombieApp.st_world s) (ZombieApp.st_world (snd run)) in
    let watch := CallWatchContractEvent (contractAddress zombieFactory) "NewZombie" in
    ZombieApp.st_invoked (snd run) = ZombieApp.st_invoked s
    /\ match fst watched with
       | Returned unwatch =>
           fst run = Returned tt
           /\ ZombieApp.st_eventCleanup (snd run) = Some unwatch
           /\ calls
              = watch
                :: map (fun id => CallReadContract (read_parameters zombieFactory id))
                     (uncached (ZombieApp.zombies (ZombieApp.st_memory s))
                        [0; 1; 2; 3; 4; 5; 6; 7; 8; 9])
       | Thrown e =>
           fst run = Thrown e
           /\ ZombieApp.st_eventCleanup (snd run) = ZombieApp.st_eventCleanup s
           /\ calls = [watch]
       end.
Proof.
  intros zombieFactory s. cbv zeta.
  pose proof (initialize_runs zombieFactory s) as Hrun. cbv zeta in Hrun.
  destruct Hrun as [Hinvoked Hrun]. split; [exact Hinvoked|].
  unfold calls_since.
  destruct (watchNewZombieEvents zombieFactory ZombieApp.callback
              (ZombieApp.st_world s)) as [[unwatch|e] w1]; cbn [fst];
    destruct Hrun as (Hanswer & Hfield & Hcalls);
    (split; [exact Hanswer|]); (split; [exact Hfield|]);
    rewrite Hcalls; apply skipn_app_exact.
Qed.

(** X20: [destroy] after [initialize] releases the subscription
    [initialize] has made and no other: when both return, the one handle
    invoked is the one [watchContractEvent] answered to this
    [initialize]. A handle the field held before, from an earlier
    [initialize], is overwritten and never invoked. *)
Theorem destroy_releases_the_latest_subscription :
  forall (zombieFactory : ZombieFactory) (s s1 s2 : ZombieApp.state),
    ZombieApp.initialize zombieFactory s = (Returned tt, s1) ->
    ZombieApp.destroy s1 = (Returned tt, s2) ->
    exists unwatch,
      fst (watchNewZombieEvents zombieFactory ZombieApp.callback
             (ZombieApp.st_world s))
      = Returned unwatch
      /\ ZombieApp.st_invoked s2 = ZombieApp.st_invoked s ++ [unwatch]
      /\ ZombieApp.st_eventCleanup s2 = None.
Proof.
  intros zombieFactory s s1 s2 Hinitialize Hdestroy.
  pose proof (initialize_runs zombieFactory s) as Hrun. cbv zeta in Hrun.
  rewrite Hinitialize in Hrun. cbn [fst snd] in Hrun.
  destruct Hrun as [Hinvoked Hrun].
  destruct (watchNewZombieEvents zombieFactory ZombieApp.callback
              (ZombieApp.st_world s)) as [[unwatch|e] w1];
    destruct Hrun as (Hanswer & Hfield & _); [|discriminate Hanswer].
  exists unwatch. split; [reflexivity|].
  pose proof (destroy_runs s1) as Hcases. cbv zeta in Hcases.
  rewrite Hfield in Hcases.
  destruct (call_handle unwatch (ZombieApp.st_world s1)) as [[u|e] w2];
    rewrite Hcases in Hdestroy; [|discriminate Hdestroy].
  injection Hdestroy as <-. cbn [ZombieApp.st_invoked ZombieApp.st_eventCleanup].
  rewrite Hinvoked. split; reflexivity.
Qed.

End ZombieAppFacts.

(** ** The statements at an application on a counting node *)

Lemma getZombie_reads_only_on_a_miss_witness :
  invocations ReadContract
    (calls_since (ZombieApp.st_world ExampleApp.fresh)
       (ZombieApp.st_world
          (snd (@ZombieApp.getZombie _ _ ExampleApp.accepting ExampleApp.events
                  ExampleApp.factory 3 ExampleApp.fresh))))
  = 1%nat.
Proof.
  exact (proj1 (proj2
    (@getZombie_reads_only_on_a_miss _ _ ExampleApp.accepting ExampleApp.events
       ExampleApp.factory 3 ExampleApp.fresh))).
Defined.

Lemma getZombie_answers_from_the_cache_witness :
  exists zombie s1,
    @ZombieApp.getZombie _ _ ExampleApp.accepting ExampleApp.events
      ExampleApp.factory 3 ExampleApp.fresh
    = (Returned (Some zombie), s1)
    /\ let s2 :=
         @getZombies _ _ ExampleApp.accepting ExampleApp.events
           ExampleApp.factory [1; 2; 3] s1 in
       @ZombieApp.getZombie _ _ ExampleApp.accepting ExampleApp.events
         ExampleApp.factory 3 s2
       = (Returned (Some zombie), s2).
Proof.
  destruct (@ZombieApp.getZombie _ _ ExampleApp.accepting ExampleApp.events
              ExampleApp.factory 3 ExampleApp.fresh)
    as [[[zombie|]|e] s1] eqn:Hrun; try (vm_compute in Hrun; discriminate Hrun).
  exists zombie, s1. split; [reflexivity|].
  exact (@getZombie_answers_from_the_cache _ _ ExampleApp.accepting
           ExampleApp.events ExampleApp.factory 3 zombie ExampleApp.fresh s1
           [1; 2; 3] Hrun).
Defined.

Lemma loadExistingZombies_asks_for_all_ten_witness :
  exists s',
    @ZombieApp.loadExistingZombies _ _ ExampleApp.accepting ExampleApp.events
      ExampleApp.factory ExampleApp.fresh
    = (Returned tt, s')
    /\ invocations ReadContract
         (calls_since (ZombieApp.st_world ExampleApp.fresh) (ZombieApp.st_world s'))
       = 10%nat.
Proof.
  destruct (@loadExistingZombies_asks_for_all_ten _ _ ExampleApp.accepting
              ExampleApp.events ExampleApp.factory ExampleApp.fresh)
    as (s' & Hrun & _ & Hten).
  exists s'. split; [exact Hrun | exact (Hten eq_refl)].
Defined.

Lemma createZombie_turns_down_bad_names_witness :
  all_space (JsString.chars "   ")
  /\ exists text,
       fst (@ZombieApp.createZombie _ ExampleErrors.objects _ ExampleApp.accepting
              ExampleApp.events ExampleApp.factory "   " ExampleApp.fresh)
       = Returned false
       /\ ZombieApp.out
            (ZombieApp.st_memory
               (snd (@ZombieApp.createZombie _ ExampleErrors.objects _
                       ExampleApp.accepting ExampleApp.events ExampleApp.factory
                       "   " ExampleApp.fresh)))
          = [ZombieApp.ShowError text].
Proof.
  assert (Hblank : all_space (JsString.chars "   "))
    by (repeat constructor).
  split; [exact Hblank|].
  destruct (@createZombie_turns_down_bad_names _ ExampleErrors.objects _
              ExampleApp.accepting ExampleApp.events ExampleApp.factory "   "
              ExampleApp.fresh (or_introl Hblank)) as [text Hrun].
  exists text. rewrite Hrun. split; reflexivity.
Defined.

Lemma createZombie_reports_and_hides_loading_witness :
  ~ all_space (JsString.chars "Rex")
  /\ (JsString.length "Rex" <= 32)%nat
  /\ fst (@ZombieApp.createZombie _ ExampleErrors.objects _ ExampleApp.accepting
            ExampleApp.events ExampleApp.factory "Rex" ExampleApp.fresh)
     = Returned true
  /\ fst (@ZombieApp.createZombie _ ExampleErrors.objects _ ExampleApp.rejecting
            ExampleApp.events ExampleApp.factory "Rex" ExampleApp.fresh)
     = Returned false.
Proof.
  assert (Hname : ~ all_space (JsString.chars "Rex")).
  { intros Hall. inversion Hall as [|? ? Hr _]. discriminate Hr. }
  assert (Hlength : (JsString.length "Rex" <= 32)%nat) by (vm_compute; lia).
  split; [exact Hname|]. split; [exact Hlength|]. split.
  - apply (proj1 (proj2
      (@createZombie_reports_and_hides_loading _ ExampleErrors.objects _
         ExampleApp.accepting ExampleApp.events ExampleApp.factory "Rex"
         ExampleApp.fresh Hname Hlength))).
    eexists. reflexivity.
  - exact (proj1 (proj2 (proj2
      (@createZombie_reports_and_hides_loading _ ExampleErrors.objects _
         ExampleApp.rejecting ExampleApp.events ExampleApp.factory "Rex"
         ExampleApp.fresh Hname Hlength)))
      (Some "User rejected the request."%string) eq_refl).
Defined.

Lemma destroy_invokes_the_handle_once_witness :
  exists s1,
    @ZombieApp.destroy _ _ ExampleApp.events ExampleApp.listening = (Returned tt, s1)
    /\ ZombieApp.st_invoked s1 = [0%nat]
    /\ exists s2,
         @destroys _ _ ExampleApp.events 3 s1 = (Returned tt, s2)
         /\ ZombieApp.st_invoked s2 = [0%nat].
Proof.
  destruct (@ZombieApp.destroy _ _ ExampleApp.events ExampleApp.listening)
    as [[[]|e] s1] eqn:Hrun; try (vm_compute in Hrun; discriminate Hrun).
  exists s1.
  destruct (@destroy_invokes_the_handle_once _ _ ExampleApp.events
              ExampleApp.listening s1 3 Hrun)
    as (_ & _ & Hinvoked & s2 & Hagain & Hsame & _).
  split; [reflexivity|]. split; [exact Hinvoked|].
  exists s2. split; [exact Hagain|]. rewrite Hsame. exact Hinvoked.
Defined.

Lemma callback_caches_complete_events_witness :
  fst (@ZombieApp.callback _ ExampleErrors.objects ExampleApp.NewZombie
         ExampleApp.memory)
  = Returned tt
  /\ ZombieApp.map_has (Js.toString 7)
       (ZombieApp.zombies
          (snd (@ZombieApp.callback _ ExampleErrors.objects ExampleApp.NewZombie
                  ExampleApp.memory)))
     = true.
Proof.
  destruct (@callback_caches_complete_events _ ExampleErrors.objects _
              ExampleApp.accepting ExampleApp.events ExampleApp.factory
              ExampleApp.NewZombie ExampleApp.memory)
    as (Hreturned & Hcached & _).
  split; [exact Hreturned|].
  unfold ZombieApp.map_has. rewrite Hcached. reflexivity.
Defined.

Lemma searchZombies_needs_every_name_witness :
  Forall (fun zombie => ZombieApp.name_of zombie <> None)
    (ZombieApp.getAllZombies ExampleApp.notified)
  /\ length (ZombieApp.getAllZombies ExampleApp.notified) = 1%nat
  /\ @ZombieApp.searchZombies _ ExampleErrors.objects _ ExampleApp.events
       EmptyString ExampleApp.notified
     = Returned (ZombieApp.getAllZombies ExampleApp.notified).
Proof.
  assert (Hnames : Forall (fun zombie => ZombieApp.name_of zombie <> None)
                     (ZombieApp.getAllZombies ExampleApp.notified))
    by (repeat constructor; discriminate).
  split; [exact Hnames|]. split; [reflexivity|].
  exact (proj2
    (@searchZombies_needs_every_name _ ExampleErrors.objects _ ExampleApp.events
       EmptyString ExampleApp.notified) Hnames).
Defined.

Lemma initialize_subscribes_then_loads_witness :
  fst (@ZombieApp.initialize _ ExampleErrors.objects _ ExampleApp.accepting
         ExampleApp.events ExampleApp.factory ExampleApp.fresh)
  = Returned tt
  /\ ZombieApp.st_eventCleanup
       (snd (@ZombieApp.initialize _ ExampleErrors.objects _ ExampleApp.accepting
               ExampleApp.events ExampleApp.factory ExampleApp.fresh))
     = Some 0%nat
  /\ length
       (calls_since (ZombieApp.st_world ExampleApp.fresh)
          (ZombieApp.st_world
             (snd (@ZombieApp.initialize _ ExampleErrors.objects _
                     ExampleApp.accepting ExampleApp.events ExampleApp.factory
                     ExampleApp.fresh))))
     = 11%nat.
Proof.
  destruct (@initialize_subscribes_then_loads _ ExampleErrors.objects _
              ExampleApp.accepting ExampleApp.events ExampleApp.factory
              ExampleApp.fresh) as (_ & Hreturned & Hfield & Hcalls).
  split; [exact Hreturned|]. split; [exact Hfield|].
  rewrite Hcalls. reflexivity.
Defined.

Lemma destroy_releases_the_latest_subscription_witness :
  exists s1 s2,
    @ZombieApp.initialize _ ExampleErrors.objects _ ExampleApp.accepting
      ExampleApp.events ExampleApp.factory ExampleApp.listening
    = (Returned tt, s1)
    /\ @ZombieApp.destroy _ _ ExampleApp.events s1 = (Returned tt, s2)
    /\ ZombieApp.st_eventCleanup ExampleApp.listening = Some 0%nat
    /\ ZombieApp.st_invoked s2 = [1%nat].
Proof.
  destruct (@ZombieApp.initialize _ ExampleErrors.objects _ ExampleApp.accepting
              ExampleApp.events ExampleApp.factory ExampleApp.listening)
    as [[[]|e] s1] eqn:Hinitialize;
    [|vm_compute in Hinitialize; discriminate Hinitialize].
  destruct (@ZombieApp.destroy _ _ ExampleApp.events s1) as [[[]|e] s2] eqn:Hdestroy.
  - exists s1, s2.
    destruct (@destroy_releases_the_latest_subscription _ ExampleErrors.objects _
                ExampleApp.accepting ExampleApp.events ExampleApp.factory
                ExampleApp.listening s1 s2 Hinitialize Hdestroy)
      as (unwatch & Hwatch & Hinvoked & _).
    vm_compute in Hwatch. injection Hwatch as <-.
    split; [reflexivity|]. split; [exact Hdestroy|]. split; [reflexivity|].
    exact Hinvoked.
  - exfalso. vm_compute in Hinitialize. injection Hinitialize as <-.
    vm_compute in Hdestroy. discriminate Hdestroy.
Defined.

(* ================================================================== *)
(** * The answers of the gateway *)
(* ================================================================== *)

Section GatewayAnswers.

Context `{C : Clients}.

(** X13: when [createRandomZombie] returns a hash, the wallet has been
    asked for the accounts, the call has been simulated for the first of
    them (for [undefined] if there is none) with the name as its only
    argument, the request written is the one the simulation handed back,
    the hash is the one [writeContract] answered, these three calls are
    all it made, in this order, and the console is as it was. *)
Theorem createRandomZombie_writes_what_it_simulated :
  forall (this : ZombieFactory) (name hash : string) (w w' : world),
    createRandomZombie this name w = (Returned hash, w') ->
    exists accounts n1 req n2,
      requestAddresses (w_node w) = (Returned accounts, n1)
      /\ simulateContract
           {| sim_address := contractAddress this;
              sim_functionName := "createRandomZombie";
              sim_args := [name];
              sim_account := hd_error accounts |} n1
         = (Returned req, n2)
      /\ writeContract req n2 = (Returned hash, w_node w')
      /\ calls_since w w'
         = [CallRequestAddresses;
            CallSimulateContract (creation_parameters this name accounts);
            CallWriteContract req]
      /\ w_console w' = w_console w.
Proof.
  intros this name hash w w' Hrun.
  pose proof (createRandomZombie_cases this name w) as Hcases. cbv zeta in Hcases.
  rewrite Hrun in Hcases. cbn [fst snd] in Hcases.
  destruct (requestAddresses (w_node w)) as [[accounts|e] n1] eqn:Haccounts.
  - fold (creation_parameters this name accounts).
    destruct (simulateContract (creation_parameters this name accounts) n1)
      as [[req|e] n2] eqn:Hsimulated.
    + destruct (writeContract req n2) as [[hash'|e] n3] eqn:Hwrite.
      * destruct Hcases as (Hhash & Hnode & Hcalls & Hconsole).
        injection Hhash as ->. subst n3.
        exists accounts, n1, req, n2. repeat split; assumption.
      * destruct Hcases as (Hthrown & _). discriminate.
    + destruct Hcases as (Hthrown & _). discriminate.
  - destruct Hcases as (Hthrown & _). discriminate.
Qed.

(** X14: [getZombie] makes one call, the read of [zombies(zombieId)] at
    the address of the factory, whether it returns or throws; when it
    returns, the record holds the two components the read answered, in
    this order, and the console is as it was. *)
Theorem getZombie_returns_what_it_read :
  forall (this : ZombieFactory) (zombieId : Z) (w : world),
    let run := getZombie this zombieId w in
    calls_since w (snd run)
    = [CallReadContract
         {| read_address := contractAddress this;
            read_functionName := "zombies";
            read_args := [zombieId] |}]
    /\ forall zombie,
         fst run = Returned zombie ->
         readContract (read_parameters this zombieId) (w_node w)
         = (Returned (zr_name zombie, zr_dna zombie), w_node (snd run))
         /\ w_console (snd run) = w_console w.
Proof.
  intros this zombieId w. cbv zeta.
  pose proof (getZombie_cases this zombieId w) as Hcases. cbv zeta in Hcases.
  destruct Hcases as [Hcalls Hread]. split; [exact Hcalls|].
  intros zombie Hreturned.
  destruct (readContract (read_parameters this zombieId) (w_node w))
    as [[[name dna]|e] n1].
  - destruct Hread as (Hrecord & Hnode & Hconsole).
    rewrite Hreturned in Hrecord. injection Hrecord as ->.
    cbn [zr_name zr_dna fst snd]. rewrite Hnode. split; [reflexivity | exact Hconsole].
  - destruct Hread as (Hthrown & _). rewrite Hreturned in Hthrown. discriminate.
Qed.

End GatewayAnswers.

Lemma createRandomZombie_writes_what_it_simulated_witness :
  exists w',
    @createRandomZombie _ _ ExampleClients.accepting ExampleClients.factory "Rex"
      ExampleClients.fresh
    = (Returned "0xBEEF"%string, w')
    /\ exists req,
         calls_since ExampleClients.fresh w'
         = [CallRequestAddresses;
            CallSimulateContract
              (creation_parameters ExampleClients.factory "Rex"
                 ["0xA11CE"%string; "0xB0B"%string]);
            CallWriteContract req]
         /\ sim_account req = Some "0xA11CE"%string.
Proof.
  destruct (@createRandomZombie _ _ ExampleClients.accepting ExampleClients.factory
              "Rex" ExampleClients.fresh) as [[hash|e] w'] eqn:Hrun;
    [|vm_compute in Hrun; discriminate Hrun].
  assert (Hhash : hash = "0xBEEF"%string)
    by (vm_compute in Hrun; injection Hrun as <- _; reflexivity).
  subst hash. exists w'. split; [reflexivity|].
  destruct (@createRandomZombie_writes_what_it_simulated _ _
              ExampleClients.accepting ExampleClients.factory "Rex" "0xBEEF"
              ExampleClients.fresh w' Hrun)
    as (accounts & n1 & req & n2 & Haccounts & Hsimulated & _ & Hcalls & _).
  vm_compute in Haccounts. injection Haccounts as <- <-.
  vm_compute in Hsimulated. injection Hsimulated as <- _.
  eexists. split; [exact Hcalls | reflexivity].
Defined.

Lemma getZombie_returns_what_it_read_witness :
  fst (@getZombie _ _ ExampleClients.accepting ExampleClients.factory 3
         ExampleClients.fresh)
  = Returned {| zr_name := "Rex"; zr_dna := 1234567890123456 |}
  /\ w_console
       (snd (@getZombie _ _ ExampleClients.accepting ExampleClients.factory 3
               ExampleClients.fresh))
     = w_console ExampleClients.fresh.
Proof.
  split; [reflexivity|].
  exact (proj2 (proj2
    (@getZombie_returns_what_it_read _ _ ExampleClients.accepting
       ExampleClients.factory 3 ExampleClients.fresh)
    {| zr_name := "Rex"; zr_dna := 1234567890123456 |} eq_refl)).
Defined.

(* ================================================================== *)
(** * The subscriber of the page *)
(* ================================================================== *)

Section PageSubscriber.

Context {E : Type} {EO : ErrorObjects E}.

Lemma UI_callback_runs (event : NewZombieEvent) (console : list UncheckedDetails) :
  match ev_dna event with
  | Some dna =>
      exists details,
        UI.callback event console = (Returned tt, console ++ [details])
  | None =>
      UI.callback event console
      = (Thrown (@TypeError E EO "dna is undefined"), console)
  end.
Proof.
  unfold UI.callback, generateZombieUnchecked.
  destruct (ev_dna event) as [dna|]; [eexists|]; reflexivity.
Qed.

(** X15: a batch handed to the subscriber [setupZombieFactoryUI]
    registers. When every log with arguments has a [dna], the handler
    returns, the subscriber has been called on each of them in order and
    has printed one record for each. At the first log with arguments and
    without [dna] the [TypeError] of [dna.toString()] leaves the handler:
    the subscriber has been called on the logs up to this one, has printed
    a record for those before it, and the logs after it are not looked
    at. *)
Theorem page_subscriber_stops_at_missing_dna :
  forall (batch : list Log) (hs : @hstate (UI.values E)),
    let run := onLogs UI.callback batch hs in
    (Forall (fun ev => ev_dna ev <> None) (decoded batch) ->
     fst run = Returned tt
     /\ h_invoked (snd run) = h_invoked hs ++ decoded batch
     /\ length (h_app (snd run)) = (length (h_app hs) + length (decoded batch))%nat)
    /\ (forall before ev after,
          decoded batch = before ++ ev :: after ->
          Forall (fun ev => ev_dna ev <> None) before ->
          ev_dna ev = None ->
          fst run = Thrown (@TypeError E EO "dna is undefined")
          /\ h_invoked (snd run) = h_invoked hs ++ before ++ [ev]
          /\ length (h_app (snd run)) = (length (h_app hs) + length before)%nat).
Proof.
  intros batch. cbv zeta.
  induction batch as [|[[args|]] rest IH]; intros hs.
  - rewrite onLogs_nil. cbn [decoded flat_map fst snd length]. split.
    + intros _. rewrite List.app_nil_r. repeat split. lia.
    + intros before ev after Hsplit. destruct before; discriminate Hsplit.
  - rewrite onLogs_present.
    pose proof (UI_callback_runs (event_of_args args) (h_app hs)) as Hstep.
    change (decoded ({| log_args := Some args |} :: rest))
      with (event_of_args args :: decoded rest).
    destruct (ev_dna (event_of_args args)) as [dna|] eqn:Hdna.
    + destruct Hstep as [details Hstep]. rewrite Hstep.
      destruct (IH (@Build_hstate (UI.values E) (h_app hs ++ [details])
                      (h_invoked hs ++ [event_of_args args])))
        as [IHall IHsplit].
      cbn [h_app h_invoked] in IHall, IHsplit. split.
      * intros Hall. inversion Hall as [|? ? _ Hrest]; subst.
        destruct (IHall Hrest) as (Hreturned & Hinvoked & Hlength).
        split; [exact Hreturned|]. split.
        -- rewrite Hinvoked, <- app_assoc. reflexivity.
        -- rewrite Hlength, length_app. cbn [length]. lia.
      * intros before ev after Hsplit Hbefore Hnone.
        destruct before as [|first before].
        -- cbn [app] in Hsplit. injection Hsplit as <- _. congruence.
        -- cbn [app] in Hsplit. injection Hsplit as <- Hsplit.
           inversion Hbefore as [|? ? _ Hbefore']; subst.
           destruct (IHsplit before ev after Hsplit Hbefore' Hnone)
             as (Hthrown & Hinvoked & Hlength).
           split; [exact Hthrown|]. split.
           ++ rewrite Hinvoked, <- app_assoc. reflexivity.
           ++ rewrite Hlength, length_app. cbn [length]. lia.
    + rewrite Hstep. cbn [fst snd h_app h_invoked]. split.
      * intros Hall. inversion Hall as [|? ? Hsome _]; subst. congruence.
      * intros before ev after Hsplit Hbefore Hnone.
        destruct before as [|first before].
        -- cbn [app] in Hsplit. injection Hsplit as <- _.
           cbn [app length]. repeat split. lia.
        -- cbn [app] in Hsplit. injection Hsplit as <- _.
           inversion Hbefore as [|? ? Hsome _]; subst. congruence.
  - rewrite onLogs_absent. apply IH.
Qed.

End PageSubscriber.

Lemma page_subscriber_stops_at_missing_dna_witness :
  fst (@onLogs (UI.values (option string))
         (@UI.callback _ ExampleErrors.objects) ExamplePages.broken_batch
         ExamplePages.subscriber)
  = Thrown (Some "dna is undefined"%string)
  /\ length (h_invoked
       (snd (@onLogs (UI.values (option string))
               (@UI.callback _ ExampleErrors.objects) ExamplePages.broken_batch
               ExamplePages.subscriber)))
     = 2%nat
  /\ length (h_app
       (snd (@onLogs (UI.values (option string))
               (@UI.callback _ ExampleErrors.objects) ExamplePages.broken_batch
               ExamplePages.subscriber)))
     = 1%nat.
Proof.
  assert (Hbefore : Forall (fun ev => ev_dna ev <> None)
                      [event_of_args (ExamplePages.args 0)])
    by (repeat constructor; discriminate).
  destruct (proj2
    (@page_subscriber_stops_at_missing_dna _ ExampleErrors.objects
       ExamplePages.broken_batch ExamplePages.subscriber)
    [event_of_args (ExamplePages.args 0)]
    {| ev_zombieId := Some 1; ev_name := Some "Bob"%string; ev_dna := None |}
    [event_of_args (ExamplePages.args 2)]
    eq_refl Hbefore eq_refl) as (Hthrown & Hinvoked & Hlength).
  split; [exact Hthrown|]. split.
  - rewrite Hinvoked. reflexivity.
  - rewrite Hlength. reflexivity.
Defined.

(* ================================================================== *)
(** * The dashboard *)
(* ================================================================== *)

Section DashboardFacts.

Context {E : Type} {EO : ErrorObjects E}.

Lemma firstn_app_firstn {A} n (a b : list A) :
  firstn n (a ++ firstn n b) = firstn n (a ++ b).
Proof.
  rewrite !firstn_app, firstn_firstn.
  replace (Nat.min (n - length a) n) with (n - length a)%nat by lia.
  reflexivity.
Qed.

Lemma unshift_and_slice {A} (x : A) (l : list A) :
  (if (10 <? length (x :: l))%nat then firstn 10 (x :: l) else x :: l)
  = firstn 10 (x :: l).
Proof.
  destruct (10 <? length (x :: l))%nat eqn:Hlong; [reflexivity|].
  apply Nat.ltb_ge in Hlong. symmetry. apply firstn_all2. exact Hlong.
Qed.

(** The subscriber on an event that has [zombieId] and [dna]. *)
Lemma dashboard_callback_lists (event : NewZombieEvent) (page : Dashboard.Page) :
  is_complete event = true ->
  exists page',
    Dashboard.callback event page = (Returned tt, page')
    /\ Dashboard.totalZombies (Dashboard.stats page')
       = Dashboard.increment (Dashboard.totalZombies (Dashboard.stats page))
    /\ map listed (Dashboard.recentZombies (Dashboard.stats page'))
       = firstn 10
           (listing_of event
            :: map listed (Dashboard.recentZombies (Dashboard.stats page))).
Proof.
  unfold Dashboard.callback, is_complete, listing_of.
  destruct (ev_zombieId event) as [zombieId|]; [|discriminate].
  destruct (ev_dna event) as [dna|]; [|discriminate].
  intros _. eexists. split; [reflexivity|].
  cbn [Dashboard.stats Dashboard.totalZombies Dashboard.recentZombies rendering].
  split; [reflexivity|].
  rewrite unshift_and_slice, <- firstn_map. reflexivity.
Qed.

(** X16: the subscriber of the dashboard counts every event and dates
    it, also when it throws. It throws exactly on the events without
    [zombieId] or without [dna], and then neither lists the event nor
    prints; so [totalZombies] can exceed the number of zombies ever
    listed. When it returns it has printed the statistics once. *)
Theorem dashboard_counts_what_it_fails_to_list :
  forall (event : NewZombieEvent) (page : Dashboard.Page),
    let run := Dashboard.callback event page in
    let after := Dashboard.stats (snd run) in
    Dashboard.totalZombies after
    = Dashboard.increment (Dashboard.totalZombies (Dashboard.stats page))
    /\ Dashboard.lastActivity after
       = Some (Dashboard.clock page (Dashboard.reads page))
    /\ (if is_complete event then
          fst run = Returned tt
          /\ map listed (Dashboard.recentZombies after)
             = firstn 10
                 (listing_of event
                  :: map listed (Dashboard.recentZombies (Dashboard.stats page)))
          /\ Dashboard.out (snd run) = Dashboard.out page ++ [after]
        else
          (exists t, fst run = Thrown t)
          /\ Dashboard.recentZombies after
             = Dashboard.recentZombies (Dashboard.stats page)
          /\ Dashboard.out (snd run) = Dashboard.out page).
Proof.
  intros event page. cbv zeta.
  unfold Dashboard.callback, is_complete, listing_of.
  destruct (ev_zombieId event) as [zombieId|]; [destruct (ev_dna event) as [dna|]|];
    cbn [fst snd Dashboard.stats Dashboard.totalZombies Dashboard.lastActivity
         Dashboard.recentZombies Dashboard.out rendering].
  - split; [reflexivity|]. split; [reflexivity|]. split; [reflexivity|].
    split; [|reflexivity].
    rewrite unshift_and_slice, <- firstn_map. reflexivity.
  - split; [reflexivity|]. split; [reflexivity|].
    split; [eexists; reflexivity|]. split; reflexivity.
  - split; [reflexivity|]. split; [reflexivity|].
    split; [eexists; reflexivity|]. split; reflexivity.
Qed.

(** X17: a batch of logs whose events all have [zombieId] and [dna],
    handed to the subscriber of the dashboard: the handler returns, the
    list holds at most ten zombies again, they are the ten newest of the
    events and the zombies listed before, the newest first, and below
    [2^53] the counter has grown by the number of events. *)
Theorem dashboard_lists_the_ten_newest :
  forall (batch : list Log) (hs : @hstate (Dashboard.values E)),
    Forall (fun ev => is_complete ev = true) (decoded batch) ->
    (length (Dashboard.recentZombies (Dashboard.stats (h_app hs))) <= 10)%nat ->
    Dashboard.totalZombies (Dashboard.stats (h_app hs))
      + Z.of_nat (length (decoded batch)) <= 9007199254740992 ->
    let run := onLogs Dashboard.callback batch hs in
    let after := Dashboard.stats (h_app (snd run)) in
    fst run = Returned tt
    /\ h_invoked (snd run) = h_invoked hs ++ decoded batch
    /\ (length (Dashboard.recentZombies after) <= 10)%nat
    /\ map listed (Dashboard.recentZombies after)
       = firstn 10
           (List.rev (map listing_of (decoded batch))
            ++ map listed (Dashboard.recentZombies (Dashboard.stats (h_app hs))))
    /\ Dashboard.totalZombies after
       = Dashboard.totalZombies (Dashboard.stats (h_app hs))
         + Z.of_nat (length (decoded batch)).
Proof.
  intros batch. cbv zeta.
  induction batch as [|[[args|]] rest IH]; intros hs Hall Hten Hbound.
  - rewrite onLogs_nil. cbn [decoded flat_map fst snd length List.rev map app].
    rewrite List.app_nil_r. repeat split.
    + exact Hten.
    + symmetry. apply firstn_all2. rewrite length_map. exact Hten.
    + cbn. lia.
  - rewrite onLogs_present.
    change (decoded ({| log_args := Some args |} :: rest))
      with (event_of_args args :: decoded rest) in *.
    inversion Hall as [|? ? Hcomplete Hrest]; subst.
    destruct (dashboard_callback_lists (event_of_args args) (h_app hs) Hcomplete)
      as (page' & Hrun & Htotal & Hlisted).
    rewrite Hrun.
    cbn [length] in Hbound.
    assert (Hten' : (length (Dashboard.recentZombies (Dashboard.stats page')) <= 10)%nat).
    { rewrite <- (length_map listed), Hlisted. apply firstn_le_length. }
    assert (Htotal' : Dashboard.totalZombies (Dashboard.stats page')
                      = Dashboard.totalZombies (Dashboard.stats (h_app hs)) + 1).
    { rewrite Htotal. unfold Dashboard.increment.
      destruct (Z.ltb_spec (Dashboard.totalZombies (Dashboard.stats (h_app hs)))
                  9007199254740992); lia. }
    destruct (IH (@Build_hstate (Dashboard.values E) page'
                    (h_invoked hs ++ [event_of_args args])) Hrest)
      as (IHreturned & IHinvoked & IHten & IHlisted & IHtotal);
      cbn [h_app h_invoked]; [exact Hten' | lia |].
    cbn [h_app h_invoked] in IHinvoked, IHlisted, IHtotal.
    split; [exact IHreturned|]. split.
    { rewrite IHinvoked, <- app_assoc. reflexivity. }
    split; [exact IHten|]. split.
    + rewrite IHlisted, Hlisted, firstn_app_firstn.
      cbn [map List.rev]. rewrite <- app_assoc. reflexivity.
    + rewrite IHtotal, Htotal'. cbn [length]. lia.
  - rewrite onLogs_absent. apply IH; assumption.
Qed.

End DashboardFacts.

Lemma dashboard_counts_what_it_fails_to_list_witness :
  let event := {| ev_zombieId := Some 1; ev_name := Some "Bob"%string;
                  ev_dna := None |} in
  let run := @Dashboard.callback _ ExampleErrors.objects event ExamplePages.page in
  Dashboard.totalZombies (Dashboard.stats (snd run)) = 1
  /\ Dashboard.recentZombies (Dashboard.stats (snd run)) = [].
Proof.
  cbv zeta.
  destruct (@dashboard_counts_what_it_fails_to_list _ ExampleErrors.objects
              {| ev_zombieId := Some 1; ev_name := Some "Bob"%string;
                 ev_dna := None |} ExamplePages.page)
    as (Htotal & _ & _ & Hrecent & _).
  split; [exact Htotal | exact Hrecent].
Defined.

Lemma dashboard_lists_the_ten_newest_witness :
  let run :=
    @onLogs (Dashboard.values (option string))
      (@Dashboard.callback _ ExampleErrors.objects) ExamplePages.batch
      ExamplePages.dashboard in
  length (decoded ExamplePages.batch) = 12%nat
  /\ fst run = Returned tt
  /\ map Dashboard.row_id (Dashboard.recentZombies (Dashboard.stats (h_app (snd run))))
     = map Js.toString [11; 10; 9; 8; 7; 6; 5; 4; 3; 2]
  /\ Dashboard.totalZombies (Dashboard.stats (h_app (snd run))) = 12.
Proof.
  cbv zeta. split; [reflexivity|].
  destruct (@dashboard_lists_the_ten_newest _ ExampleErrors.objects
              ExamplePages.batch ExamplePages.dashboard)
    as (Hreturned & _ & _ & Hlisted & Htotal).
  - repeat constructor.
  - vm_compute. lia.
  - vm_compute. discriminate.
  - split; [exact Hreturned|]. split; [|exact Htotal].
    apply (f_equal (map (fun l => fst (fst l)))) in Hlisted.
    rewrite map_map in Hlisted. exact Hlisted.
Defined.

(* ================================================================== *)
(** * The test of the subscription *)
(* ================================================================== *)

Section EventTestFacts.

Context {E : Type} {P : @Platform (EventTest.values E)}.
Context {C : @Clients (EventTest.values E) P}.
Context {EC : @EventClient (EventTest.values E) P}.

(** Every run of [testEventListening]. *)
Lemma testEventListening_runs (s : EventTest.state) :
  let after w lines timers invoked :=
    {| EventTest.st_world := w;
       EventTest.st_console :=
         EventTest.st_console s
         ++ [EventTest.LogStarting; EventTest.LogSettingUp] ++ lines;
       EventTest.st_timers := EventTest.st_timers s ++ timers;
       EventTest.st_invoked := EventTest.st_invoked s ++ invoked |} in
  EventTest.testEventListening s
  = match watchNewZombieEvents EventTest.zombieFactory EventTest.callback
            (EventTest.st_world s) with
    | (Thrown e, w1) => (Thrown e, after w1 [] [] [])
    | (Returned unwatch, w1) =>
        match createRandomZombie EventTest.zombieFactory "TestZombie" w1 with
        | (Returned txHash, w2) =>
            (Returned tt,
             after w2
               [EventTest.LogCreating; EventTest.LogTransactionSent txHash;
                EventTest.LogWaiting; EventTest.LogAutoComplete]
               [{| EventTest.delay := 30000; EventTest.stops := unwatch |}] [])
        | (Thrown e, w2) =>
            (fst (call_handle unwatch w2),
             after (snd (call_handle unwatch w2))
               [EventTest.LogCreating; EventTest.ErrorFailedToCreate e]
               [] [unwatch])
        end
    end.
Proof.
  cbv zeta.
  unfold EventTest.testEventListening, bind, try_catch, ret, EventTest.print,
    EventTest.on_world, EventTest.setTimeout, EventTest.invoke_handle.
  cbn [EventTest.st_world EventTest.st_console EventTest.st_timers
       EventTest.st_invoked].
  destruct (watchNewZombieEvents EventTest.zombieFactory EventTest.callback
              (EventTest.st_world s)) as [[unwatch|e] w1].
  - cbn [EventTest.st_world EventTest.st_console EventTest.st_timers
         EventTest.st_invoked].
    destruct (createRandomZombie EventTest.zombieFactory "TestZombie" w1)
      as [[txHash|e] w2].
    + cbn [EventTest.st_world EventTest.st_console EventTest.st_timers
           EventTest.st_invoked].
      rewrite List.app_nil_r, <- !app_assoc. reflexivity.
    + cbn [EventTest.st_world EventTest.st_console EventTest.st_timers
           EventTest.st_invoked].
      destruct (call_handle unwatch w2) as [[[]|e'] w3];
        cbn [fst snd EventTest.st_world EventTest.st_console EventTest.st_timers
             EventTest.st_invoked];
        rewrite List.app_nil_r, <- !app_assoc; reflexivity.
  - rewrite !List.app_nil_r, <- !app_assoc. reflexivity.
Qed.

(** X18: when [testEventListening] returns, the subscription it has
    made is either scheduled for release, by one timer of 30000 ms, and
    not released yet, or released at once and no timer is set: the first
    exactly when the creation of the test zombie returns, the second when
    it throws. The error of a failed creation does not leave the test. *)
Theorem testEventListening_releases_or_schedules :
  forall (s s1 : EventTest.state),
    EventTest.testEventListening s = (Returned tt, s1) ->
    exists unwatch w1,
      watchNewZombieEvents EventTest.zombieFactory EventTest.callback
        (EventTest.st_world s)
      = (Returned unwatch, w1)
      /\ match fst (createRandomZombie EventTest.zombieFactory "TestZombie" w1) with
         | Returned _ =>
             EventTest.st_timers s1
             = EventTest.st_timers s
               ++ [{| EventTest.delay := 30000; EventTest.stops := unwatch |}]
             /\ EventTest.st_invoked s1 = EventTest.st_invoked s
         | Thrown _ =>
             EventTest.st_timers s1 = EventTest.st_timers s
             /\ EventTest.st_invoked s1 = EventTest.st_invoked s ++ [unwatch]
         end.
Proof.
  intros s s1 Hrun.
  pose proof (testEventListening_runs s) as Hcases. cbv zeta in Hcases.
  rewrite Hrun in Hcases.
  destruct (watchNewZombieEvents EventTest.zombieFactory EventTest.callback
              (EventTest.st_world s)) as [[unwatch|e] w1]; [|discriminate Hcases].
  exists unwatch, w1. split; [reflexivity|].
  destruct (createRandomZombie EventTest.zombieFactory "TestZombie" w1)
    as [[txHash|e] w2]; cbn [fst].
  - injection Hcases as ->. cbn [EventTest.st_timers EventTest.st_invoked].
    rewrite List.app_nil_r. split; reflexivity.
  - injection Hcases as _ ->. cbn [EventTest.st_timers EventTest.st_invoked].
    rewrite List.app_nil_r. split; reflexivity.
Qed.

End EventTestFacts.

Lemma testEventListening_releases_or_schedules_witness :
  (exists s1,
     @EventTest.testEventListening _ _ ExamplePages.accepting ExamplePages.events
       ExamplePages.fresh = (Returned tt, s1)
     /\ EventTest.st_invoked s1 = []
     /\ length (EventTest.st_timers s1) = 1%nat)
  /\ (exists s1,
        @EventTest.testEventListening _ _ ExamplePages.rejecting ExamplePages.events
          ExamplePages.fresh = (Returned tt, s1)
        /\ EventTest.st_invoked s1 = [0%nat]
        /\ EventTest.st_timers s1 = []).
Proof.
  split.
  - destruct (@EventTest.testEventListening _ _ ExamplePages.accepting
                ExamplePages.events ExamplePages.fresh) as [[[]|e] s1] eqn:Hrun;
      [|vm_compute in Hrun; discriminate Hrun].
    exists s1. split; [reflexivity|].
    destruct (@testEventListening_releases_or_schedules _ _ ExamplePages.accepting
                ExamplePages.events ExamplePages.fresh s1 Hrun)
      as (unwatch & w1 & Hwatch & Hcase).
    vm_compute in Hwatch. injection Hwatch as <- <-.
    destruct Hcase as [Htimers Hinvoked].
    split; [exact Hinvoked|]. rewrite Htimers. reflexivity.
  - destruct (@EventTest.testEventListening _ _ ExamplePages.rejecting
                ExamplePages.events ExamplePages.fresh) as [[[]|e] s1] eqn:Hrun;
      [|vm_compute in Hrun; discriminate Hrun].
    exists s1. split; [reflexivity|].
    destruct (@testEventListening_releases_or_schedules _ _ ExamplePages.rejecting
                ExamplePages.events ExamplePages.fresh s1 Hrun)
      as (unwatch & w1 & Hwatch & Hcase).
    vm_compute in Hwatch. injection Hwatch as <- <-.
    destruct Hcase as [Htimers Hinvoked].
    split; [exact Hinvoked | exact Htimers].
Defined.
